(** * cynes: cartridge mappers, save states and the Python wrapper

    A shallow embedding of [src/mapper.hpp] (the [Mapper] base class, its
    [MemoryBank] table, the generic [MMC<BANK_SIZE>] mapper and the [dump]
    walks of [Mapper], [MMC1], [MMC3] and [MMC]) and of [src/wrapper.cpp]
    (the [NesWrapper] class exposed to Python).

    Conventions.  A [uintN_t] is a [Z] with its wrap-around written out, a
    byte of memory is a [Z], a C array is a [list] read with [!!] and
    updated with [<[k:=v]>].  The cursor of a save-state buffer is a
    zipper: the bytes behind the pointer and the bytes ahead of it. *)

From Stdlib Require Import ZArith List Bool Lia.
From stdpp Require Import base list.
Import ListNotations.

(** ** The dump primitive ([utils.hpp]) *)

Module Dump.

(** Modelled from the spec: [utils.hpp] (the [DumpOperation] enumeration and
    the [cynes::dump] primitive) is not among the sources.  Section 4.1:
    "a single polymorphic operation parameterized by direction (WRITE or
    READ) walks primitive fields (fixed-width integers, booleans,
    fixed-size arrays) and an advancing byte cursor". *)
Inductive DumpOperation : Type := WRITE | READ.

(** The advancing byte cursor [uint8_t*& buffer]: [behind] holds the bytes
    of the buffer the pointer has passed, [ahead] the bytes from the
    pointer to the end of the buffer. *)
Record Cursor : Type := mkCursor { behind : list Z; ahead : list Z }.

(** A cursor at the first byte of a buffer. *)
Definition rewind (buffer : list Z) : Cursor := mkCursor [] buffer.

(** A walk threads the cursor and stops when the buffer is exhausted (the
    source would run past the end of the allocation there). *)
Definition M (A : Type) : Type := Cursor -> option (A * Cursor).

Definition ret {A} (a : A) : M A := fun c => Some (a, c).

Definition bind {A B} (m : M A) (k : A -> M B) : M B :=
  fun c => match m c with
           | Some (a, c') => k a c'
           | None => None
           end.

Notation "x <- m ;; k" := (bind m (fun x => k))
  (at level 100, m at next level, right associativity).

(** Modelled from the spec: the primitive [cynes::dump<operation>(buffer,
    field)] on a field whose object representation is [size] bytes.
    Section 4.1: "In WRITE mode it copies the field into the cursor; in
    READ mode it copies from the cursor into the field"; the cursor then
    advances by the size of the field.  [to_bytes] is the object
    representation of the field, [of_bytes] stores bytes into it. *)
Definition dump_field {T} (size : nat) (to_bytes : T -> list Z)
    (of_bytes : list Z -> T -> T) (operation : DumpOperation) (field : T)
    : M T :=
  fun c =>
    if decide (size <= length (ahead c))%nat then
      match operation with
      | WRITE =>
          Some (field,
                mkCursor (behind c ++ to_bytes field) (drop size (ahead c)))
      | READ =>
          let bytes := take size (ahead c) in
          Some (of_bytes bytes field,
                mkCursor (behind c ++ bytes) (drop size (ahead c)))
      end
    else None.

(** Section 6: "each primitive is written little-endian native width". *)
Fixpoint le_bytes (width : nat) (v : Z) : list Z :=
  match width with
  | O => []
  | S w => (v mod 256)%Z :: le_bytes w (v / 256)%Z
  end.

Fixpoint le_value (bytes : list Z) : Z :=
  match bytes with
  | [] => 0%Z
  | b :: bs => (b + 256 * le_value bs)%Z
  end.

(** Modelled from the spec: the primitive of [utils.hpp] at an unsigned
    integer field of [width] bytes ([uint8_t], [uint16_t], [uint32_t],
    [size_t]); reading keeps the field's own width. *)
Definition dump_uint (width : nat) : DumpOperation -> Z -> M Z :=
  dump_field width (le_bytes width) (fun bytes _ => le_value bytes).

(** The byte of a [bool], and the [bool] a byte is read as. *)
Definition bool_byte (b : bool) : list Z := [if b then 1%Z else 0%Z].

Definition byte_bool (bytes : list Z) : bool :=
  match bytes with
  | [] => false
  | x :: _ => negb (x =? 0)%Z
  end.

(** Modelled from the spec: the primitive of [utils.hpp] at a [bool]
    field, one byte. *)
Definition dump_bool : DumpOperation -> bool -> M bool :=
  dump_field 1 bool_byte (fun bytes _ => byte_bool bytes).

(** Modelled from the spec: the primitive of [utils.hpp] at a fixed-size
    array field ([uint8_t _registers[4]], [bool _latches[2]]): the object
    representation of an array is that of its elements in index order. *)
Fixpoint dump_array {T} (dump_elem : DumpOperation -> T -> M T)
    (operation : DumpOperation) (a : list T) : M (list T) :=
  match a with
  | [] => ret []
  | x :: rest =>
      x' <- dump_elem operation x ;;
      rest' <- dump_array dump_elem operation rest ;;
      ret (x' :: rest')
  end.

(** The [size] bytes of [memory] that start at [start], and the memory
    with those bytes replaced. *)
Definition region (start size : nat) (memory : list Z) : list Z :=
  take size (drop start memory).

Definition set_region (start size : nat) (bytes memory : list Z) : list Z :=
  take start memory ++ bytes ++ drop (start + size) memory.

(** Modelled from the spec: the primitive of [utils.hpp] on a pointer and
    a length, [cynes::dump<operation>(buffer, pointer, size)], on the
    [size] bytes of [memory] that start at [start]. *)
Definition dump_region (start size : nat)
    : DumpOperation -> list Z -> M (list Z) :=
  dump_field size (region start size) (set_region start size).

(** Width of [size_t] on the 64-bit targets the module is built for. *)
Definition sizeof_size_t : nat := 8.

End Dump.

(** ** The mapper base class ([mapper.hpp], [class Mapper]) *)

Module Mapper.
Import Dump.

Inductive MirroringMode : Type :=
  NONE | ONE_SCREEN_LOW | ONE_SCREEN_HIGH | HORIZONTAL | VERTICAL.

(** [struct MemoryBank]: a view of 0x400 bytes within the mapper memory. *)
Record MemoryBank : Type := mkBank {
  offset : Z;        (* size_t *)
  read_only : bool;
  mapped : bool
}.

(** Modelled from the spec: the default constructor [MemoryBank()] is
    defined in [mapper.cpp], which is not among the sources; its
    declaration says "Initialize an unmapped bank". *)
Definition unmapped_bank : MemoryBank := mkBank 0 true false.

(** [MemoryBank::dump]: offset, then read_only, then mapped. *)
Definition MemoryBank_dump (operation : DumpOperation) (bank : MemoryBank)
    : M MemoryBank :=
  o <- dump_uint sizeof_size_t operation (offset bank) ;;
  r <- dump_bool operation (read_only bank) ;;
  m <- dump_bool operation (mapped bank) ;;
  ret (mkBank o r m).

(** The data members of [class Mapper] (the back reference [_nes] apart). *)
Record Mapper : Type := mkMapper {
  _banks_prg : Z;        (* const uint16_t *)
  _banks_chr : Z;        (* const uint16_t *)
  _banks_cpu_ram : Z;    (* const uint8_t *)
  _banks_ppu_ram : Z;    (* const uint8_t *)
  _size_prg : Z;         (* const size_t *)
  _size_chr : Z;         (* const size_t *)
  _size_cpu_ram : Z;     (* const size_t *)
  _size_ppu_ram : Z;     (* const size_t *)
  _read_only_chr : bool; (* const bool *)
  _memory : list Z;                 (* unique_ptr<uint8_t[]> *)
  _banks_cpu : list MemoryBank;     (* std::array<MemoryBank, 0x40> *)
  _banks_ppu : list MemoryBank      (* std::array<MemoryBank, 0x10> *)
}.

Definition set_memory (memory : list Z) (m : Mapper) : Mapper :=
  mkMapper (_banks_prg m) (_banks_chr m) (_banks_cpu_ram m) (_banks_ppu_ram m)
    (_size_prg m) (_size_chr m) (_size_cpu_ram m) (_size_ppu_ram m)
    (_read_only_chr m) memory (_banks_cpu m) (_banks_ppu m).

Definition set_banks_cpu (banks : list MemoryBank) (m : Mapper) : Mapper :=
  mkMapper (_banks_prg m) (_banks_chr m) (_banks_cpu_ram m) (_banks_ppu_ram m)
    (_size_prg m) (_size_chr m) (_size_cpu_ram m) (_size_ppu_ram m)
    (_read_only_chr m) (_memory m) banks (_banks_ppu m).

Definition set_banks_ppu (banks : list MemoryBank) (m : Mapper) : Mapper :=
  mkMapper (_banks_prg m) (_banks_chr m) (_banks_cpu_ram m) (_banks_ppu_ram m)
    (_size_prg m) (_size_chr m) (_size_cpu_ram m) (_size_ppu_ram m)
    (_read_only_chr m) (_memory m) (_banks_cpu m) banks.

(** [for (uint8_t k = first; k < first + count; k++) banks[k].dump(buffer)] *)
Fixpoint dump_banks (operation : DumpOperation) (count k : nat)
    (banks : list MemoryBank) : M (list MemoryBank) :=
  match count with
  | O => ret banks
  | S count' =>
      bank <- MemoryBank_dump operation (default unmapped_bank (banks !! k)) ;;
      dump_banks operation count' (S k) (<[k := bank]> banks)
  end.

(** [Mapper::dump]: the 0x40 CPU banks, the 0x10 PPU banks, then the CHR
    region unless it is read only, the CPU RAM and the PPU RAM unless
    their size is zero. *)
Definition Mapper_dump (operation : DumpOperation) (m : Mapper) : M Mapper :=
  cpu <- dump_banks operation 0x40 0 (_banks_cpu m) ;;
  ppu <- dump_banks operation 0x10 0 (_banks_ppu m) ;;
  mem1 <- (if negb (_read_only_chr m)
           then dump_region (Z.to_nat (_size_prg m)) (Z.to_nat (_size_chr m))
                  operation (_memory m)
           else ret (_memory m)) ;;
  mem2 <- (if negb (_size_cpu_ram m =? 0)%Z
           then dump_region (Z.to_nat (_size_prg m + _size_chr m))
                  (Z.to_nat (_size_cpu_ram m)) operation mem1
           else ret mem1) ;;
  mem3 <- (if negb (_size_ppu_ram m =? 0)%Z
           then dump_region
                  (Z.to_nat (_size_prg m + _size_chr m + _size_cpu_ram m))
                  (Z.to_nat (_size_ppu_ram m)) operation mem2
           else ret mem2) ;;
  ret (set_memory mem3 (set_banks_ppu ppu (set_banks_cpu cpu m))).

(** *** Bank helpers ([mapper.cpp])

    The bodies of the helpers below are in [mapper.cpp], which is not among
    the sources.  They are modelled from section 3 of the spec: the mapper
    memory is "a contiguous owned byte array concatenating
    [PRG | CHR | CPU-work-RAM | PPU-work-RAM]", a bank is 0x400 bytes and a
    bank entry is "{offset into the byte array, read-only flag, mapped
    flag}"; and from the calls in [mapper.hpp], which pass a page index, a
    count of pages and the index of a 0x400-byte bank within the region. *)

Definition uint8 (v : Z) : Z := v mod 0x100.
Definition uint16 (v : Z) : Z := v mod 0x10000.

(** [banks[page]], a default bank standing for an index past the array. *)
Definition bank_at (banks : list MemoryBank) (page : Z) : MemoryBank :=
  default unmapped_bank (banks !! Z.to_nat page).

(** Modelled from the spec: [map_bank_prg(page, address)]; PRG is at the
    start of the memory and is read only. *)
Definition map_bank_prg1 (page address : Z) (m : Mapper) : Mapper :=
  set_banks_cpu
    (<[Z.to_nat page := mkBank (Z.shiftl address 10) true true]> (_banks_cpu m))
    m.

(** Modelled from the spec: [map_bank_cpu_ram(page, address, read_only)];
    the CPU work RAM follows PRG and CHR. *)
Definition map_bank_cpu_ram1 (read_only : bool) (page address : Z)
    (m : Mapper) : Mapper :=
  set_banks_cpu
    (<[Z.to_nat page :=
         mkBank (_size_prg m + _size_chr m + Z.shiftl address 10) read_only true]>
       (_banks_cpu m))
    m.

(** Modelled from the spec: [map_bank_chr(page, address)]; CHR follows PRG
    and is writable exactly when it is CHR RAM. *)
Definition map_bank_chr1 (page address : Z) (m : Mapper) : Mapper :=
  set_banks_ppu
    (<[Z.to_nat page :=
         mkBank (_size_prg m + Z.shiftl address 10) (_read_only_chr m) true]>
       (_banks_ppu m))
    m.

(** Modelled from the spec: [map_bank_ppu_ram(page, address, read_only)];
    the PPU work RAM is the last region. *)
Definition map_bank_ppu_ram1 (read_only : bool) (page address : Z)
    (m : Mapper) : Mapper :=
  set_banks_ppu
    (<[Z.to_nat page :=
         mkBank (_size_prg m + _size_chr m + _size_cpu_ram m
                 + Z.shiftl address 10) read_only true]>
       (_banks_ppu m))
    m.

(** Modelled from the spec: the loop of the overloads that take a count
    of pages ("each takes a starting 1 KiB-aligned page index and
    optionally a length in pages"),
    [for (uint8_t index = 0; index < size; index++)
       map(page + index, address + index)]. *)
Fixpoint map_pages (map1 : Z -> Z -> Mapper -> Mapper) (count : nat)
    (index page address : Z) (m : Mapper) : Mapper :=
  match count with
  | O => m
  | S count' =>
      map_pages map1 count' (index + 1) page address
        (map1 (uint8 (page + index)) (uint16 (address + index)) m)
  end.

(** Modelled from the spec: [map_bank_prg(page, size, address)]. *)
Definition map_bank_prg (page size address : Z) : Mapper -> Mapper :=
  map_pages map_bank_prg1 (Z.to_nat size) 0 page address.

(** Modelled from the spec: [map_bank_cpu_ram(page, size, address,
    read_only)]. *)
Definition map_bank_cpu_ram (page size address : Z) (read_only : bool)
    : Mapper -> Mapper :=
  map_pages (map_bank_cpu_ram1 read_only) (Z.to_nat size) 0 page address.

(** Modelled from the spec: [map_bank_chr(page, size, address)]. *)
Definition map_bank_chr (page size address : Z) : Mapper -> Mapper :=
  map_pages map_bank_chr1 (Z.to_nat size) 0 page address.

(** Modelled from the spec: [map_bank_ppu_ram(page, size, address,
    read_only)]. *)
Definition map_bank_ppu_ram (page size address : Z) (read_only : bool)
    : Mapper -> Mapper :=
  map_pages (map_bank_ppu_ram1 read_only) (Z.to_nat size) 0 page address.

(** Modelled from the spec: the loop of [mirror_ppu_banks]; "mirroring is
    expressed by pointing multiple logical banks at the same offset". *)
Fixpoint mirror_ppu_banks_from (count : nat) (index page mirror : Z)
    (m : Mapper) : Mapper :=
  match count with
  | O => m
  | S count' =>
      mirror_ppu_banks_from count' (index + 1) page mirror
        (set_banks_ppu
           (<[Z.to_nat (uint8 (mirror + index)) :=
                bank_at (_banks_ppu m) (uint8 (page + index))]> (_banks_ppu m))
           m)
  end.

(** Modelled from the spec: [mirror_ppu_banks(page, size, mirror)], the
    [size] pages from [mirror] on show what the pages from [page] on show. *)
Definition mirror_ppu_banks (page size mirror : Z) : Mapper -> Mapper :=
  mirror_ppu_banks_from (Z.to_nat size) 0 page mirror.

(** Modelled from the spec: the nametable a slot shows.  "Mirroring modes
    select among the two internal nametables per 1 KiB slot": horizontal
    mirroring gives the four slots the nametables 0, 0, 1, 1, vertical
    mirroring 0, 1, 0, 1, and one-screen mirroring the same nametable. *)
Definition nametable_of (mode : MirroringMode) (slot : Z) : option Z :=
  match mode with
  | NONE => None
  | ONE_SCREEN_LOW => Some 0
  | ONE_SCREEN_HIGH => Some 1
  | HORIZONTAL => Some (Z.shiftr slot 1)
  | VERTICAL => Some (Z.land slot 1)
  end%Z.

(** Modelled from the spec: the four nametable slots are the PPU pages
    0x8..0xB (0x2000-0x2FFF) and the two nametables are the banks 0 and 1
    of the PPU RAM, writable. *)
Definition map_nametable (mode : MirroringMode) (slot : Z) (m : Mapper)
    : Mapper :=
  match nametable_of mode slot with
  | Some nt => map_bank_ppu_ram1 false (0x8 + slot) nt m
  | None => m
  end.

(** Modelled from the spec: [set_mirroring_mode(mode)]; the four slots,
    then their mirror at the pages 0xC..0xF (0x3000-0x3FFF). *)
Definition set_mirroring_mode (mode : MirroringMode) (m : Mapper) : Mapper :=
  mirror_ppu_banks 0x8 0x4 0xC
    (map_nametable mode 3
       (map_nametable mode 2 (map_nametable mode 1 (map_nametable mode 0 m)))).

(** *** Bus accesses of the base class ([mapper.cpp]) *)

(** Modelled from the spec: a read through a bank table.  Section 4.3:
    the "base implementation translates address -> bank -> offset";
    section 7: unmapped regions "read open bus", the value the caller
    passes as [open_bus].  A byte past the end of the memory reads as 0
    here (the source would read past its allocation). *)
Definition read_bank (open_bus : Z) (banks : list MemoryBank) (address : Z)
    (m : Mapper) : Z :=
  let bank := bank_at banks (Z.shiftr address 10) in
  if mapped bank
  then default 0%Z
         (_memory m !! Z.to_nat (offset bank + Z.land address 0x3FF))
  else open_bus.

(** Modelled from the spec: [Mapper::read_ppu]. *)
Definition read_ppu (open_bus address : Z) (m : Mapper) : Z :=
  read_bank open_bus (_banks_ppu m) address m.

(** Modelled from the spec: [Mapper::read_cpu]. *)
Definition read_cpu (open_bus address : Z) (m : Mapper) : Z :=
  read_bank open_bus (_banks_cpu m) address m.

(** Modelled from the spec: a write through a bank table.  Section 3:
    "writes to an unmapped or read-only CPU bank are silently dropped";
    section 4.3: "writes respect the read-only flag". *)
Definition write_bank (banks : list MemoryBank) (address value : Z)
    (m : Mapper) : Mapper :=
  let bank := bank_at banks (Z.shiftr address 10) in
  if mapped bank && negb (read_only bank)
  then set_memory
         (<[Z.to_nat (offset bank + Z.land address 0x3FF) := value]> (_memory m))
         m
  else m.

(** Modelled from the spec: [Mapper::write_cpu]. *)
Definition write_cpu (address value : Z) (m : Mapper) : Mapper :=
  write_bank (_banks_cpu m) address value m.

(** Modelled from the spec: [Mapper::write_ppu]. *)
Definition write_ppu (address value : Z) (m : Mapper) : Mapper :=
  write_bank (_banks_ppu m) address value m.

(** Modelled from the spec: [Mapper::tick], section 4.3: "advance any
    cartridge internal clocks (default: no-op)". *)
Definition tick (m : Mapper) : Mapper := m.

(** [struct ParsedMemory]; the sizes count banks of 0x400 bytes. *)
Record ParsedMemory : Type := mkParsedMemory {
  read_only_chr : bool;
  size_prg : Z;           (* uint16_t *)
  size_chr : Z;           (* uint16_t *)
  trainer : option (list Z);
  memory_prg : list Z;
  memory_chr : list Z
}.

(** Modelled from the spec: the constructor [Mapper::Mapper].  The memory
    is [PRG | CHR | CPU-work-RAM | PPU-work-RAM] with the two work RAMs
    zeroed, every bank starts unmapped, and the mirroring mode of the ROM
    maps the nametables.  (What the constructor does with a trainer is
    not described; no trainer is copied here.) *)
Definition Mapper_new (metadata : ParsedMemory) (mode : MirroringMode)
    (size_cpu_ram size_ppu_ram : Z) : Mapper :=
  set_mirroring_mode mode
    (mkMapper (size_prg metadata) (size_chr metadata) size_cpu_ram size_ppu_ram
       (Z.shiftl (size_prg metadata) 10) (Z.shiftl (size_chr metadata) 10)
       (Z.shiftl size_cpu_ram 10) (Z.shiftl size_ppu_ram 10)
       (read_only_chr metadata)
       (take (Z.to_nat (Z.shiftl (size_prg metadata) 10)) (memory_prg metadata)
        ++ take (Z.to_nat (Z.shiftl (size_chr metadata) 10)) (memory_chr metadata)
        ++ replicate (Z.to_nat (Z.shiftl size_cpu_ram 10)) 0%Z
        ++ replicate (Z.to_nat (Z.shiftl size_ppu_ram 10)) 0%Z)
       (replicate 0x40 unmapped_bank)
       (replicate 0x10 unmapped_bank)).

End Mapper.

(** ** The save-state walks of MMC1 and MMC3 ([mapper.hpp]) *)

Module MMC1.
Import Dump Mapper.

(** The data members of [class MMC1]. *)
Record MMC1 : Type := mkMMC1 {
  base : Mapper;
  _tick : Z;               (* uint8_t *)
  _registers : list Z;     (* uint8_t[0x4] *)
  _register : Z;           (* uint8_t *)
  _counter : Z             (* uint8_t *)
}.

(** [MMC1::dump] *)
Definition dump (operation : DumpOperation) (m : MMC1) : M MMC1 :=
  b <- Mapper_dump operation (base m) ;;
  t <- dump_uint 1 operation (_tick m) ;;
  rs <- dump_array (dump_uint 1) operation (_registers m) ;;
  r <- dump_uint 1 operation (_register m) ;;
  c <- dump_uint 1 operation (_counter m) ;;
  ret (mkMMC1 b t rs r c).

End MMC1.

Module MMC3.
Import Dump Mapper.

(** The data members of [class MMC3]. *)
Record MMC3 : Type := mkMMC3 {
  base : Mapper;
  _tick : Z;                   (* uint32_t *)
  _registers : list Z;         (* uint32_t[0x8] *)
  _counter : Z;                (* uint16_t *)
  _counter_reset_value : Z;    (* uint16_t *)
  _register_target : Z;        (* uint8_t *)
  _mode_prg : bool;
  _mode_chr : bool;
  _enable_interrupt : bool;
  _should_reload_interrupt : bool
}.

(** [MMC3::dump] *)
Definition dump (operation : DumpOperation) (m : MMC3) : M MMC3 :=
  b <- Mapper_dump operation (base m) ;;
  t <- dump_uint 4 operation (_tick m) ;;
  rs <- dump_array (dump_uint 4) operation (_registers m) ;;
  c <- dump_uint 2 operation (_counter m) ;;
  cr <- dump_uint 2 operation (_counter_reset_value m) ;;
  rt <- dump_uint 1 operation (_register_target m) ;;
  mp <- dump_bool operation (_mode_prg m) ;;
  mc <- dump_bool operation (_mode_chr m) ;;
  ei <- dump_bool operation (_enable_interrupt m) ;;
  sr <- dump_bool operation (_should_reload_interrupt m) ;;
  ret (mkMMC3 b t rs c cr rt mp mc ei sr).

End MMC3.

(** ** The generic MMC mapper ([mapper.hpp], [template class MMC]) *)

Module MMC.
Import Dump Mapper.

(** The data members of [class MMC<BANK_SIZE>]. *)
Record MMC : Type := mkMMC {
  base : Mapper;
  _latches : list bool;         (* bool[0x2] *)
  _selected_banks : list Z      (* uint8_t[0x4] *)
}.

Definition latch (s : MMC) (k : nat) : bool :=
  default false (_latches s !! k).

Definition selected_bank (s : MMC) (k : nat) : Z :=
  default 0%Z (_selected_banks s !! k).

Definition set_base (b : Mapper) (s : MMC) : MMC :=
  mkMMC b (_latches s) (_selected_banks s).

Definition set_latch (k : nat) (v : bool) (s : MMC) : MMC :=
  mkMMC (base s) (<[k := v]> (_latches s)) (_selected_banks s).

Definition set_selected_bank (k : nat) (v : Z) (s : MMC) : MMC :=
  mkMMC (base s) (_latches s) (<[k := v]> (_selected_banks s)).

(** [_selected_banks[k] << 2], passed as a [uint16_t]: a selected bank
    counts 0x1000 bytes, a page 0x400. *)
Definition chr_page (selected : Z) : Z := uint16 (Z.shiftl selected 2).

(** [MMC::update_banks] *)
Definition update_banks (s : MMC) : MMC :=
  let s :=
    if latch s 0
    then set_base (map_bank_chr 0x0 0x4 (chr_page (selected_bank s 0)) (base s)) s
    else set_base (map_bank_chr 0x0 0x4 (chr_page (selected_bank s 1)) (base s)) s in
  if latch s 1
  then set_base (map_bank_chr 0x4 0x4 (chr_page (selected_bank s 2)) (base s)) s
  else set_base (map_bank_chr 0x4 0x4 (chr_page (selected_bank s 3)) (base s)) s.

Section BankSize.

(** The template parameter: 0x08 for [MMC2], 0x10 for [MMC4]. *)
Variable BANK_SIZE : Z.

(** The constructor [MMC::MMC]. *)
Definition MMC_new (metadata : ParsedMemory) (mode : MirroringMode) : MMC :=
  let m := Mapper_new metadata mode 0x8 0x2 in
  let m := map_bank_chr 0x0 0x8 0x0 m in
  let m := map_bank_prg 0x20 BANK_SIZE 0x0 m in
  let m := map_bank_prg (uint8 (0x20 + BANK_SIZE)) (uint8 (0x20 - BANK_SIZE))
             (uint16 (_banks_prg m - 0x20 + BANK_SIZE)) m in
  let m := map_bank_cpu_ram 0x18 0x8 0x0 true m in
  mkMMC m [false; false] [0; 0; 0; 0]%Z.

(** [MMC::write_cpu(uint16_t address, uint8_t value)] *)
Definition write_cpu (address value : Z) (s : MMC) : MMC :=
  if (address <? 0xA000)%Z then
    set_base (Mapper.write_cpu address value (base s)) s
  else if (address <? 0xB000)%Z then
    set_base
      (map_bank_prg 0x20 BANK_SIZE (uint16 (Z.land value 0xF * BANK_SIZE)) (base s))
      s
  else if (address <? 0xC000)%Z then
    update_banks (set_selected_bank 0 (Z.land value 0x1F) s)
  else if (address <? 0xD000)%Z then
    update_banks (set_selected_bank 1 (Z.land value 0x1F) s)
  else if (address <? 0xE000)%Z then
    update_banks (set_selected_bank 2 (Z.land value 0x1F) s)
  else if (address <? 0xF000)%Z then
    update_banks (set_selected_bank 3 (Z.land value 0x1F) s)
  else if negb (Z.land value 0x01 =? 0)%Z then
    set_base (set_mirroring_mode HORIZONTAL (base s)) s
  else
    set_base (set_mirroring_mode VERTICAL (base s)) s.

End BankSize.

(** [MMC::read_ppu(uint16_t address)]: the value is read first, the
    latches are updated afterwards.  [open_bus] is the value an unmapped
    bank reads as. *)
Definition read_ppu (open_bus address : Z) (s : MMC) : Z * MMC :=
  let value := Mapper.read_ppu open_bus address (base s) in
  let s :=
    if (address =? 0x0FD8)%Z then update_banks (set_latch 0 true s)
    else if (address =? 0x0FE8)%Z then update_banks (set_latch 0 false s)
    else if (0x1FD8 <=? address)%Z && (address <? 0x1FE0)%Z
    then update_banks (set_latch 1 true s)
    else if (0x1FE8 <=? address)%Z && (address <? 0x1FF0)%Z
    then update_banks (set_latch 1 false s)
    else s in
  (value, s).

(** The members [MMC] inherits unchanged from [Mapper]. *)
Definition write_ppu (address value : Z) (s : MMC) : MMC :=
  set_base (Mapper.write_ppu address value (base s)) s.

Definition read_cpu (open_bus address : Z) (s : MMC) : Z :=
  Mapper.read_cpu open_bus address (base s).

Definition tick (s : MMC) : MMC := set_base (Mapper.tick (base s)) s.

(** [MMC::dump] *)
Definition dump (operation : DumpOperation) (s : MMC) : M MMC :=
  b <- Mapper_dump operation (base s) ;;
  l <- dump_array dump_bool operation (_latches s) ;;
  sel <- dump_array (dump_uint 1) operation (_selected_banks s) ;;
  ret (mkMMC b l sel).

End MMC.

(** ** The Python wrapper ([wrapper.cpp], [class NesWrapper]) *)

Module Wrapper.

(** What the data pointer of a [pybind11::array_t<uint8_t>] points to:
    memory of the array's own, given as the bytes from the pointer on, or
    memory the emulator owns. *)
Inductive Storage : Type :=
| Owned (bytes : list Z)
| FrameBufferView
| RamView.

(** The fields of a numpy array the wrapper sets or reads. *)
Record Array : Type := mkArray {
  shape : list Z;
  strides : list Z;
  data : Storage;
  flags : Z
}.

(** [pybind11::detail::npy_api::NPY_ARRAY_WRITEABLE_] *)
Definition NPY_ARRAY_WRITEABLE_ : Z := 0x0400.

Definition writeable (a : Array) : bool :=
  negb (Z.land (flags a) NPY_ARRAY_WRITEABLE_ =? 0)%Z.

(** Strides of a C-contiguous (row-major) array of one-byte elements. *)
Fixpoint row_major_strides (shape : list Z) : list Z :=
  match shape with
  | [] => []
  | _ :: rest => fold_right Z.mul 1%Z rest :: row_major_strides rest
  end.

(** [static_cast<int>(v)], with the 32-bit [int] of the platforms the
    module is built for. *)
Definition to_int (v : Z) : Z := ((v + 2 ^ 31) mod 2 ^ 32 - 2 ^ 31)%Z.

(** Modelled from the spec: the error section 7 attaches to [load],
    "InvalidSaveStateError: buffer size does not match the expected size
    for this ROM"; [wrapper.cpp] declares no exception.  [ValueError] is
    the Python exception the two library calls of [wrapper.cpp] that can
    fail end in: [mutable_data()] throws [std::domain_error] on an array
    that is not writeable, which pybind11 hands to Python as a
    [ValueError], and numpy refuses to make an array of negative length
    with a [ValueError]. *)
Inductive PyError : Type := InvalidSaveStateError | ValueError.

(** How a call of a bound method ends for the Python caller. *)
Inductive PyResult (A : Type) : Type :=
| Returned (a : A)
| Raised (e : PyError).
Arguments Returned {A} a.
Arguments Raised {A} e.

(** What a call returns to Python. *)
Inductive Value : Type :=
| VNone
| VByte (v : Z)
| VArray (a : Array).

Section Facade.

(** Everything the console holds besides the CPU work RAM: CPU, PPU, APU,
    mapper ([nes.hpp], not among the sources). *)
Context {Machine : Type}.

(** Modelled from the spec: the facade [class NES] of [nes.hpp].  Section
    3: "Facade state. 2 KiB CPU work RAM; ...". *)
Record NES : Type := mkNES {
  _memory_cpu : list Z;
  machine : Machine
}.

(** The operations of the facade the wrapper calls; their bodies are in
    [nes.cpp], which is not among the sources, and stay parameters.
    [nes_save] is [NES::save] on a byte pointer: from the memory at the
    pointer and the console, the memory and the console after the call; it
    writes in place, so the memory keeps its size.  [nes_load] is
    [NES::load] on the memory at the byte pointer.  [fresh_memory] is what
    the allocation of a new numpy array holds, which numpy does not
    initialise. *)
Class Core : Type := mkCore {
  nes_open : list Z -> NES;              (* NES::NES(const char* path) *)
  nes_size : NES -> Z;                   (* NES::size() *)
  nes_step : Z -> Z -> NES -> bool * NES; (* NES::step(controller, frames) *)
  nes_save : list Z -> NES -> list Z * NES;
  nes_load : list Z -> NES -> NES;
  nes_reset : NES -> NES;                (* NES::reset() *)
  nes_read : Z -> NES -> Z * NES;        (* NES::read(address) *)
  nes_frame_buffer : NES -> list Z;      (* NES::get_frame_buffer() *)
  bus_write : Z -> Z -> NES -> Machine;  (* what a CPU write does besides RAM *)
  array_flags : Z;      (* flags numpy gives an array on foreign memory *)
  owned_flags : Z;      (* flags numpy gives an array on memory of its own *)
  fresh_memory : nat -> list Z;
  nes_save_length : forall memory n,
    length (fst (nes_save memory n)) = length memory;
  fresh_memory_length : forall n, length (fresh_memory n) = n
}.

Context {core : Core}.

(** Modelled from the spec: [NES::write], the CPU write the wrapper's
    [__setitem__] performs.  Section 4.4, memory map: "0x0000-0x1FFF:
    2 KiB internal RAM mirrored every 0x800". *)
Definition nes_write (address value : Z) (n : NES) : NES :=
  mkNES
    (if (address <? 0x2000)%Z
     then <[Z.to_nat (Z.land address 0x7FF) := value]> (_memory_cpu n)
     else _memory_cpu n)
    (bus_write address value n).

(** The data members of [class NesWrapper]. *)
Record NesWrapper : Type := mkNesWrapper {
  controller : Z;            (* uint8_t *)
  _nes : NES;
  _save_state_size : Z;
  _frame : Array;
  _crashed : bool
}.

(** [flags &= ~NPY_ARRAY_WRITEABLE_] *)
Definition clear_writeable (a : Array) : Array :=
  mkArray (shape a) (strides a) (data a)
    (Z.land (flags a) (Z.lnot NPY_ARRAY_WRITEABLE_)).

(** [NesWrapper::NesWrapper(const char* path_rom)] *)
Definition NesWrapper_new (path_rom : list Z) : NesWrapper :=
  let nes := nes_open path_rom in
  mkNesWrapper 0x00 nes (nes_size nes)
    (clear_writeable
       (mkArray [240; 256; 3]%Z [256 * 3; 3; 1]%Z FrameBufferView array_flags))
    false.

(** [NesWrapper::step(uint32_t frames)]: the new state and the array
    returned. *)
Definition step (frames : Z) (w : NesWrapper) : NesWrapper * Array :=
  let (crashed, nes) := nes_step (controller w) frames (_nes w) in
  (mkNesWrapper (controller w) nes (_save_state_size w) (_frame w)
     (_crashed w || crashed),
   _frame w).

(** [NesWrapper::save()]: the array is made with
    [static_cast<int>(_save_state_size)] bytes, which numpy refuses when
    the number is negative; [NES::save] then writes into its memory (a new
    array is writeable, so [mutable_data()] does not throw).  The new
    state and what Python receives. *)
Definition save (w : NesWrapper) : NesWrapper * PyResult Value :=
  let count := to_int (_save_state_size w) in
  if (count <? 0)%Z then (w, Raised ValueError)
  else
    let (bytes, nes) := nes_save (fresh_memory (Z.to_nat count)) (_nes w) in
    (mkNesWrapper (controller w) nes (_save_state_size w) (_frame w)
       (_crashed w),
     Returned (VArray (mkArray [count] [1%Z] (Owned bytes) owned_flags))).

(** The memory at the data pointer of an array, which is what
    [buffer.mutable_data()] hands to [NES::load]: the strides and the shape
    of the array play no part. *)
Definition memory_at (w : NesWrapper) (a : Array) : list Z :=
  match data a with
  | Owned bytes => bytes
  | FrameBufferView => nes_frame_buffer (_nes w)
  | RamView => _memory_cpu (_nes w)
  end.

(** [NesWrapper::load(pybind11::array_t<uint8_t> buffer)], on the array
    pybind11 made of the argument.  [buffer.mutable_data()] throws when the
    array is not writeable, before [NES::load] and [_crashed = false] are
    reached. *)
Definition load (buffer : Array) (w : NesWrapper)
    : NesWrapper * PyResult Value :=
  if writeable buffer then
    (mkNesWrapper (controller w) (nes_load (memory_at w buffer) (_nes w))
       (_save_state_size w) (_frame w) false,
     Returned VNone)
  else (w, Raised ValueError).

(** [NesWrapper::read_all_ram()] *)
Definition read_all_ram (w : NesWrapper) : Array :=
  mkArray [2048%Z] [1%Z] RamView array_flags.

(** Modelled from the spec: [NesWrapper::write], an inline member of
    [wrapper.hpp], which is not among the sources.  Section 6:
    "write(handle, addr, byte)", through the bus of the CPU. *)
Definition write (address value : Z) (w : NesWrapper) : NesWrapper :=
  mkNesWrapper (controller w) (nes_write address value (_nes w))
    (_save_state_size w) (_frame w) (_crashed w).

(** Modelled from the spec: [NesWrapper::read] of [wrapper.hpp].  Section
    6: "read(handle, addr) -> byte", "documented as having side effects". *)
Definition read (address : Z) (w : NesWrapper) : Z * NesWrapper :=
  let (value, nes) := nes_read address (_nes w) in
  (value,
   mkNesWrapper (controller w) nes (_save_state_size w) (_frame w) (_crashed w)).

(** Modelled from the spec: [NesWrapper::reset] of [wrapper.hpp].  Section
    4.7: "reset() re-initializes CPU/PPU/APU/mapper internal state";
    section 8: has_crashed "remains true until reset or load". *)
Definition reset (w : NesWrapper) : NesWrapper :=
  mkNesWrapper (controller w) (nes_reset (_nes w)) (_save_state_size w)
    (_frame w) false.

(** Modelled from the spec: [NesWrapper::has_crashed] of [wrapper.hpp].
    Section 6: "has_crashed - read-only boolean", the crash flag. *)
Definition has_crashed (w : NesWrapper) : bool := _crashed w.

(** An assignment to the attribute [controller] ([def_readwrite]). *)
Definition set_controller (value : Z) (w : NesWrapper) : NesWrapper :=
  mkNesWrapper value (_nes w) (_save_state_size w) (_frame w) (_crashed w).

(** The byte an array shows at an index, given the state of the handle
    whose memory it may point to. *)
Definition array_get (w : NesWrapper) (a : Array) (index : Z) : option Z :=
  match data a with
  | Owned bytes => bytes !! Z.to_nat index
  | RamView => _memory_cpu (_nes w) !! Z.to_nat index
  | FrameBufferView => None
  end.

(** The calls Python can make on a handle ([PYBIND11_MODULE]); a buffer is
    the [array_t<uint8_t>] pybind11 made of the argument. *)
Inductive Call : Type :=
| CallSetItem (address value : Z)
| CallGetItem (address : Z)
| CallGetAllRam
| CallReset
| CallStep (frames : Z)
| CallSave
| CallLoad (buffer : Array)
| CallSetController (value : Z).

(** One bound call: the state afterwards and what Python receives.  A
    call that raises leaves the state as the member left it when it
    threw. *)
Definition call (c : Call) (w : NesWrapper) : NesWrapper * PyResult Value :=
  match c with
  | CallSetItem address value => (write address value w, Returned VNone)
  | CallGetItem address =>
      let (v, w') := read address w in (w', Returned (VByte v))
  | CallGetAllRam => (w, Returned (VArray (read_all_ram w)))
  | CallReset => (reset w, Returned VNone)
  | CallStep frames =>
      let (w', frame) := step frames w in (w', Returned (VArray frame))
  | CallSave => save w
  | CallLoad buffer => load buffer w
  | CallSetController value => (set_controller value w, Returned VNone)
  end.

(** A sequence of calls, first to last. *)
Fixpoint calls (cs : list Call) (w : NesWrapper) : NesWrapper :=
  match cs with
  | [] => w
  | c :: rest => calls rest (fst (call c w))
  end.


End Facade.
Arguments NES : clear implicits.
Arguments Core : clear implicits.
Arguments NesWrapper : clear implicits.

End Wrapper.


(** ** Layouts: what a walk writes *)

Module Layout.
Import Dump.

(** A walk [walk] of a field of type [T] writes the bytes [layout v] of a
    valid field [v] at the cursor and leaves the field as it was. *)
Definition Writes {T} (walk : DumpOperation -> T -> M T)
    (layout : T -> list Z) (ok : T -> Prop) : Prop :=
  forall v b a, ok v -> (length (layout v) <= length a)%nat ->
    walk WRITE v (mkCursor b a)
    = Some (v, mkCursor (b ++ layout v) (drop (length (layout v)) a)).

(** Reading the bytes written for [v] into a field [v0] that [fits] it
    consumes exactly those bytes and yields a valid field that would be
    written as the same bytes. *)
Definition Restores {T} (walk : DumpOperation -> T -> M T)
    (layout : T -> list Z) (ok : T -> Prop) (fits : T -> T -> Prop) : Prop :=
  forall v0 v, ok v0 -> ok v -> fits v0 v ->
    exists v',
      (forall b rest, walk READ v0 (mkCursor b (layout v ++ rest))
                      = Some (v', mkCursor (b ++ layout v) rest))
      /\ layout v' = layout v /\ ok v' /\ fits v' v.

Definition always {T} (_ : T) : Prop := True.
Definition any {T} (_ _ : T) : Prop := True.

(** Arrays of fields: the layouts of the elements in index order. *)
Definition layout_array {T} (layout : T -> list Z) (a : list T) : list Z :=
  concat (map layout a).

Definition same_length {T} (a0 a : list T) : Prop := length a0 = length a.

Import Mapper.

(** A bank entry: the offset as a [size_t], then the two flags. *)
Definition layout_bank (bank : MemoryBank) : list Z :=
  le_bytes sizeof_size_t (offset bank)
  ++ bool_byte (read_only bank) ++ bool_byte (mapped bank).

(** The three regions of the mapper memory a save state may hold. *)
Definition chr_region (m : Mapper) : list Z :=
  region (Z.to_nat (_size_prg m)) (Z.to_nat (_size_chr m)) (_memory m).

Definition cpu_ram_region (m : Mapper) : list Z :=
  region (Z.to_nat (_size_prg m + _size_chr m)) (Z.to_nat (_size_cpu_ram m))
    (_memory m).

Definition ppu_ram_region (m : Mapper) : list Z :=
  region (Z.to_nat (_size_prg m + _size_chr m + _size_cpu_ram m))
    (Z.to_nat (_size_ppu_ram m)) (_memory m).

(** Section 6 of the spec, the mapper segment of a save state: "64 CPU
    bank entries + 16 PPU bank entries + optional CHR-RAM + optional
    CPU-RAM + optional PPU-RAM"; the CHR region is there when CHR is RAM,
    a work RAM when it has any byte. *)
Definition layout_mapper (m : Mapper) : list Z :=
  layout_array layout_bank (_banks_cpu m)
  ++ layout_array layout_bank (_banks_ppu m)
  ++ (if negb (_read_only_chr m) then chr_region m else [])
  ++ (if negb (_size_cpu_ram m =? 0)%Z then cpu_ram_region m else [])
  ++ (if negb (_size_ppu_ram m =? 0)%Z then ppu_ram_region m else []).

(** ... "+ variant-specific fields". *)
Definition layout_mmc (s : MMC.MMC) : list Z :=
  layout_mapper (MMC.base s)
  ++ layout_array bool_byte (MMC._latches s)
  ++ layout_array (le_bytes 1) (MMC._selected_banks s).

Definition layout_mmc1 (s : MMC1.MMC1) : list Z :=
  layout_mapper (MMC1.base s)
  ++ le_bytes 1 (MMC1._tick s)
  ++ layout_array (le_bytes 1) (MMC1._registers s)
  ++ le_bytes 1 (MMC1._register s)
  ++ le_bytes 1 (MMC1._counter s).

Definition layout_mmc3 (s : MMC3.MMC3) : list Z :=
  layout_mapper (MMC3.base s)
  ++ le_bytes 4 (MMC3._tick s)
  ++ layout_array (le_bytes 4) (MMC3._registers s)
  ++ le_bytes 2 (MMC3._counter s)
  ++ le_bytes 2 (MMC3._counter_reset_value s)
  ++ le_bytes 1 (MMC3._register_target s)
  ++ bool_byte (MMC3._mode_prg s)
  ++ bool_byte (MMC3._mode_chr s)
  ++ bool_byte (MMC3._enable_interrupt s)
  ++ bool_byte (MMC3._should_reload_interrupt s).

(** The shape of a mapper object: the two bank tables have their 0x40 and
    0x10 entries and the memory has the four regions. *)
Definition valid_mapper (m : Mapper) : Prop :=
  length (_banks_cpu m) = 0x40%nat
  /\ length (_banks_ppu m) = 0x10%nat
  /\ (0 <= _size_prg m)%Z /\ (0 <= _size_chr m)%Z
  /\ (0 <= _size_cpu_ram m)%Z /\ (0 <= _size_ppu_ram m)%Z
  /\ Z.of_nat (length (_memory m))
     = (_size_prg m + _size_chr m + _size_cpu_ram m + _size_ppu_ram m)%Z.

(** Two mapper objects of one cartridge: the constant members agree. *)
Definition same_cartridge (m0 m : Mapper) : Prop :=
  _size_prg m0 = _size_prg m /\ _size_chr m0 = _size_chr m
  /\ _size_cpu_ram m0 = _size_cpu_ram m /\ _size_ppu_ram m0 = _size_ppu_ram m
  /\ _read_only_chr m0 = _read_only_chr m.

Definition valid_mmc (s : MMC.MMC) : Prop :=
  valid_mapper (MMC.base s)
  /\ length (MMC._latches s) = 2%nat
  /\ length (MMC._selected_banks s) = 4%nat.

Definition same_mmc (s0 s : MMC.MMC) : Prop :=
  same_cartridge (MMC.base s0) (MMC.base s)
  /\ length (MMC._latches s0) = length (MMC._latches s)
  /\ length (MMC._selected_banks s0) = length (MMC._selected_banks s).

Definition valid_mmc1 (s : MMC1.MMC1) : Prop :=
  valid_mapper (MMC1.base s) /\ length (MMC1._registers s) = 4%nat.

Definition same_mmc1 (s0 s : MMC1.MMC1) : Prop :=
  same_cartridge (MMC1.base s0) (MMC1.base s)
  /\ length (MMC1._registers s0) = length (MMC1._registers s).

Definition valid_mmc3 (s : MMC3.MMC3) : Prop :=
  valid_mapper (MMC3.base s) /\ length (MMC3._registers s) = 8%nat.

Definition same_mmc3 (s0 s : MMC3.MMC3) : Prop :=
  same_cartridge (MMC3.base s0) (MMC3.base s)
  /\ length (MMC3._registers s0) = length (MMC3._registers s).

(** The mapper of a cartridge with the walk of its class: [MMC1], [MMC3]
    and [MMC] define a [dump] of their own, the other classes of
    [mapper.hpp] have the one of [Mapper]. *)
Inductive AnyMapper : Type :=
| Plain (m : Mapper)
| IsMMC1 (s : MMC1.MMC1)
| IsMMC3 (s : MMC3.MMC3)
| IsMMC (s : MMC.MMC).

Definition dump_any (operation : DumpOperation) (v : AnyMapper) : M AnyMapper :=
  match v with
  | Plain m => m' <- Mapper_dump operation m ;; ret (Plain m')
  | IsMMC1 s => s' <- MMC1.dump operation s ;; ret (IsMMC1 s')
  | IsMMC3 s => s' <- MMC3.dump operation s ;; ret (IsMMC3 s')
  | IsMMC s => s' <- MMC.dump operation s ;; ret (IsMMC s')
  end.

Definition layout_any (v : AnyMapper) : list Z :=
  match v with
  | Plain m => layout_mapper m
  | IsMMC1 s => layout_mmc1 s
  | IsMMC3 s => layout_mmc3 s
  | IsMMC s => layout_mmc s
  end.

Definition valid_any (v : AnyMapper) : Prop :=
  match v with
  | Plain m => valid_mapper m
  | IsMMC1 s => valid_mmc1 s
  | IsMMC3 s => valid_mmc3 s
  | IsMMC s => valid_mmc s
  end.

Definition same_any (v0 v : AnyMapper) : Prop :=
  match v0, v with
  | Plain m0, Plain m => same_cartridge m0 m
  | IsMMC1 s0, IsMMC1 s => same_mmc1 s0 s
  | IsMMC3 s0, IsMMC3 s => same_mmc3 s0 s
  | IsMMC s0, IsMMC s => same_mmc s0 s
  | _, _ => False
  end.

(** The variant-specific fields of section 6, class by class. *)
Definition variant_fields (v : AnyMapper) : list Z :=
  match v with
  | Plain _ => []
  | IsMMC1 s =>
      le_bytes 1 (MMC1._tick s)
      ++ layout_array (le_bytes 1) (MMC1._registers s)
      ++ le_bytes 1 (MMC1._register s)
      ++ le_bytes 1 (MMC1._counter s)
  | IsMMC3 s =>
      le_bytes 4 (MMC3._tick s)
      ++ layout_array (le_bytes 4) (MMC3._registers s)
      ++ le_bytes 2 (MMC3._counter s)
      ++ le_bytes 2 (MMC3._counter_reset_value s)
      ++ le_bytes 1 (MMC3._register_target s)
      ++ bool_byte (MMC3._mode_prg s)
      ++ bool_byte (MMC3._mode_chr s)
      ++ bool_byte (MMC3._enable_interrupt s)
      ++ bool_byte (MMC3._should_reload_interrupt s)
  | IsMMC s =>
      layout_array bool_byte (MMC._latches s)
      ++ layout_array (le_bytes 1) (MMC._selected_banks s)
  end.

Definition base_of (v : AnyMapper) : Mapper :=
  match v with
  | Plain m => m
  | IsMMC1 s => MMC1.base s
  | IsMMC3 s => MMC3.base s
  | IsMMC s => MMC.base s
  end.

(** Section 6 of the spec, word for word: the mapper segment is the 64
    CPU bank entries, the 16 PPU bank entries, the CHR region when CHR is
    RAM, the CPU work RAM and the PPU work RAM when present, then the
    variant-specific fields. *)
Definition mapper_segment (v : AnyMapper) : list Z :=
  let m := base_of v in
  layout_array layout_bank (take 64 (_banks_cpu m))
  ++ layout_array layout_bank (take 16 (_banks_ppu m))
  ++ (if _read_only_chr m then [] else chr_region m)
  ++ (if (_size_cpu_ram m =? 0)%Z then [] else cpu_ram_region m)
  ++ (if (_size_ppu_ram m =? 0)%Z then [] else ppu_ram_region m)
  ++ variant_fields v.

(** A computation that writes [bytes] at the cursor and returns [v]. *)
Definition Emits {A} (m : M A) (v : A) (bytes : list Z) : Prop :=
  forall b a, (length bytes <= length a)%nat ->
    m (mkCursor b a) = Some (v, mkCursor (b ++ bytes) (drop (length bytes) a)).

(** A computation that reads [bytes] at the cursor and returns [v]. *)
Definition Absorbs {A} (m : M A) (v : A) (bytes : list Z) : Prop :=
  forall b rest,
    m (mkCursor b (bytes ++ rest)) = Some (v, mkCursor (b ++ bytes) rest).

End Layout.

(** ** Bank entries *)

Module Banks.
Import Mapper.

(** The entry of the bank of 0x400 bytes number [address] of PRG, of CHR
    and of the PPU RAM. *)
Definition prg_entry (address : Z) : MemoryBank :=
  mkBank (Z.shiftl address 10) true true.

Definition chr_entry (m : Mapper) (address : Z) : MemoryBank :=
  mkBank (_size_prg m + Z.shiftl address 10) (_read_only_chr m) true.

Definition ppu_ram_entry (m : Mapper) (address : Z) : MemoryBank :=
  mkBank (_size_prg m + _size_chr m + _size_cpu_ram m + Z.shiftl address 10)
    false true.

(** The PPU addresses whose read moves a latch of [MMC]. *)
Definition latch_trigger (address : Z) : Prop :=
  (address = 0x0FD8 \/ address = 0x0FE8
   \/ 0x1FD8 <= address <= 0x1FDF \/ 0x1FE8 <= address <= 0x1FEF)%Z.

(** The CHR bank register a latch selects: registers 0 and 1 for latch 0,
    registers 2 and 3 for latch 1; the first when the latch is on. *)
Definition selected_register (s : MMC.MMC) (k : nat) : nat :=
  match k with
  | O => if MMC.latch s 0 then 0 else 1
  | _ => if MMC.latch s 1 then 2 else 3
  end%nat.

(** A bank entry lies within a memory of [limit] bytes. *)
Definition in_bounds (limit : Z) (bank : MemoryBank) : Prop :=
  mapped bank = true ->
  (0 <= offset bank /\ offset bank + 0x400 <= limit)%Z.

Definition limit (m : Mapper) : Z := Z.of_nat (length (_memory m)).

(** Section 3 of the spec: "mapped banks have offset + 0x400 <= byte-array
    length", for the CPU and the PPU bank tables. *)
Definition banks_in_bounds (m : Mapper) : Prop :=
  Forall (in_bounds (limit m)) (_banks_cpu m)
  /\ Forall (in_bounds (limit m)) (_banks_ppu m).

(** The bus accesses and the clock a mapper receives from the console. *)
Inductive Access : Type :=
| WriteCpu (address value : Z)
| WritePpu (address value : Z)
| ReadCpu (address : Z)
| ReadPpu (address : Z)
| Tick.

Definition access (BANK_SIZE open_bus : Z) (s : MMC.MMC) (a : Access) : MMC.MMC :=
  match a with
  | WriteCpu address value => MMC.write_cpu BANK_SIZE address value s
  | WritePpu address value => MMC.write_ppu address value s
  | ReadCpu address => s
  | ReadPpu address => snd (MMC.read_ppu open_bus address s)
  | Tick => MMC.tick s
  end.

Definition run (BANK_SIZE open_bus : Z) (accesses : list Access) (s : MMC.MMC)
    : MMC.MMC :=
  fold_left (access BANK_SIZE open_bus) accesses s.

(** A ROM as large as the registers of [MMC<BANK_SIZE>] can address: 16
    PRG banks of [BANK_SIZE] pages and 32 CHR banks of 4 pages (a page is
    0x400 bytes), with the bytes its sizes announce. *)
Definition well_sized (BANK_SIZE : Z) (metadata : ParsedMemory) : Prop :=
  (16 * BANK_SIZE <= size_prg metadata < 0x10000
   /\ 128 <= size_chr metadata < 0x10000
   /\ Z.of_nat (length (memory_prg metadata)) = size_prg metadata * 0x400
   /\ Z.of_nat (length (memory_chr metadata)) = size_chr metadata * 0x400)%Z.

(** What the members of an [MMC] mapper leave unchanged: the sizes of the
    regions and of the memory. *)
Definition frame (m : Mapper) : Z * Z * Z * Z * bool * nat :=
  (_size_prg m, _size_chr m, _size_cpu_ram m, _size_ppu_ram m,
   _read_only_chr m, length (_memory m)).

Definition mmc_invariant (BANK_SIZE : Z) (s : MMC.MMC) : Prop :=
  let m := MMC.base s in
  ((0 <= _size_prg m /\ 16 * BANK_SIZE * 0x400 <= _size_prg m)
   /\ 128 * 0x400 <= _size_chr m
   /\ 0 <= _size_cpu_ram m
   /\ 2 * 0x400 <= _size_ppu_ram m
   /\ limit m = _size_prg m + _size_chr m + _size_cpu_ram m + _size_ppu_ram m)%Z
  /\ Forall (fun x => 0 <= x <= 0x1F)%Z (MMC._selected_banks s)
  /\ banks_in_bounds m.

End Banks.

(** ** A cartridge for the examples *)

Module Examples.
Import Mapper.

(** A ROM of the size of the one MMC2 game: 128 KiB of PRG and 128 KiB of
    CHR ROM.  Every byte of a PRG bank of 0x2000 bytes, and every byte of
    a CHR bank of 0x1000 bytes, holds the number of its bank. *)
Definition rom : ParsedMemory :=
  mkParsedMemory true 128 128 None
    (flat_map (fun k => replicate (Z.to_nat 0x2000) (Z.of_nat k)) (seq 0 16))
    (flat_map (fun k => replicate (Z.to_nat 0x1000) (Z.of_nat k)) (seq 0 32)).

(** The [MMC2] mapper ([MMC<0x08>]) on that ROM. *)
Definition mmc2 : MMC.MMC := MMC.MMC_new 0x08 rom VERTICAL.

(** A console that is nothing but its 2 KiB of RAM, to run the wrapper
    on: a step crashes when the byte at address 0 is the KIL opcode 0x02,
    a save state is the RAM, a save writes the RAM over the start of the
    buffer, a load copies the start of the buffer over the RAM. *)
#[export] Instance ram_core : Wrapper.Core unit := {|
  Wrapper.nes_open := fun _ => Wrapper.mkNES (replicate 2048 0%Z) tt;
  Wrapper.nes_size := fun _ => 2048%Z;
  Wrapper.nes_step := fun _ _ n =>
    (match Wrapper._memory_cpu n !! 0%nat with
     | Some 0x02%Z => true
     | _ => false
     end, n);
  Wrapper.nes_save := fun memory n =>
    (take (length memory)
       (Wrapper._memory_cpu n
        ++ drop (length (Wrapper._memory_cpu n)) memory), n);
  Wrapper.nes_load := fun memory n =>
    Wrapper.mkNES
      (take (length (Wrapper._memory_cpu n))
         (memory ++ drop (length memory) (Wrapper._memory_cpu n)))
      tt;
  Wrapper.nes_reset := fun n => n;
  Wrapper.nes_read := fun address n =>
    (default 0%Z (Wrapper._memory_cpu n !! Z.to_nat (Z.land address 0x7FF)), n);
  Wrapper.nes_frame_buffer := fun _ => replicate (240 * 256 * 3) 0%Z;
  Wrapper.bus_write := fun _ _ _ => tt;
  Wrapper.array_flags := 0x0501%Z;
  Wrapper.owned_flags := 0x0505%Z;
  Wrapper.fresh_memory := fun n => replicate n 0xCD%Z;
  Wrapper.nes_save_length := fun memory n =>
    ltac:(cbn [fst]; rewrite length_take, length_app, length_drop; lia);
  Wrapper.fresh_memory_length := fun n => length_replicate n 0xCD%Z
|}.

(** A handle on that console after the calls [nes[0] = 0x02; nes.step()]. *)
Definition crashed_handle : Wrapper.NesWrapper unit :=
  Wrapper.calls [Wrapper.CallSetItem 0 0x02; Wrapper.CallStep 1]
    (Wrapper.NesWrapper_new []).

End Examples.

(** ** Further definitions: what a load leaves, sizes, histories *)

Module Restore.
Import Dump Mapper Layout.

(** A bank entry whose offset fits the [size_t] it is stored in. *)
Definition fits_size_t (bank : MemoryBank) : Prop :=
  (0 <= offset bank < 2 ^ 64)%Z.

(** An unsigned field of [width] bytes holds a value of its type. *)
Definition fits_uint (width : nat) (v : Z) : Prop :=
  (0 <= v < 256 ^ Z.of_nat width)%Z.

Definition representable_mapper (m : Mapper) : Prop :=
  Forall fits_size_t (_banks_cpu m) /\ Forall fits_size_t (_banks_ppu m).

(** Every dumped integer of a mapper object holds a value of its C++
    type. *)
Definition representable (v : AnyMapper) : Prop :=
  representable_mapper (base_of v)
  /\ match v with
     | Plain _ => True
     | IsMMC1 s =>
         fits_uint 1 (MMC1._tick s) /\ Forall (fits_uint 1) (MMC1._registers s)
         /\ fits_uint 1 (MMC1._register s) /\ fits_uint 1 (MMC1._counter s)
     | IsMMC3 s =>
         fits_uint 4 (MMC3._tick s) /\ Forall (fits_uint 4) (MMC3._registers s)
         /\ fits_uint 2 (MMC3._counter s)
         /\ fits_uint 2 (MMC3._counter_reset_value s)
         /\ fits_uint 1 (MMC3._register_target s)
     | IsMMC s => Forall (fits_uint 1) (MMC._selected_banks s)
     end.

(** The PRG region of the mapper memory. *)
Definition prg_region (m : Mapper) : list Z :=
  region 0 (Z.to_nat (_size_prg m)) (_memory m).

(** The memory of a mapper object [m0] after the state saved from [m] has
    been read into it: the PRG of [m0], the CHR of [m] when CHR is RAM and
    of [m0] when it is ROM, the two work RAMs of [m]. *)
Definition loaded_memory (m0 m : Mapper) : list Z :=
  prg_region m0
  ++ (if _read_only_chr m0 then chr_region m0 else chr_region m)
  ++ cpu_ram_region m ++ ppu_ram_region m.

(** The mapper object itself: the constants of [m0], the loaded memory and
    the two bank tables of [m]. *)
Definition loaded_mapper (m0 m : Mapper) : Mapper :=
  set_memory (loaded_memory m0 m)
    (set_banks_ppu (_banks_ppu m) (set_banks_cpu (_banks_cpu m) m0)).

(** The number of bytes of the fields a mapper class adds to the walk. *)
Definition variant_size (v : AnyMapper) : nat :=
  match v with
  | Plain _ => 0
  | IsMMC1 _ => 1 + 4 + 1 + 1
  | IsMMC3 _ => 4 + 4 * 8 + 2 + 2 + 1 + 1 + 1 + 1 + 1
  | IsMMC _ => 2 + 4
  end.

(** The number of bytes of the mapper segment, from the constants of the
    cartridge alone: 0x40 + 0x10 bank entries of a [size_t] and two
    [bool], the CHR region when CHR is RAM, the two work RAMs, the fields
    of the class. *)
Definition segment_size (v : AnyMapper) : nat :=
  let m := base_of v in
  (0x40 + 0x10) * (sizeof_size_t + 1 + 1)
  + (if _read_only_chr m then 0 else Z.to_nat (_size_chr m))
  + Z.to_nat (_size_cpu_ram m) + Z.to_nat (_size_ppu_ram m)
  + variant_size v.

(** Two mapper objects made from one ROM: the constant members agree and
    so do the bytes no access writes, PRG and, when CHR is ROM, CHR. *)
Definition same_rom (m0 m : Mapper) : Prop :=
  same_cartridge m0 m
  /\ _banks_prg m0 = _banks_prg m /\ _banks_chr m0 = _banks_chr m
  /\ _banks_cpu_ram m0 = _banks_cpu_ram m
  /\ _banks_ppu_ram m0 = _banks_ppu_ram m
  /\ prg_region m0 = prg_region m
  /\ (_read_only_chr m = true -> chr_region m0 = chr_region m).

(** Two objects of one class on one ROM. *)
Definition same_rom_any (v0 v : AnyMapper) : Prop :=
  same_any v0 v /\ same_rom (base_of v0) (base_of v).

End Restore.

(** ** The windows of the MMC mapper over a sequence of accesses *)

Module Windows.
Import Mapper Banks MMC.

(** The latch a PPU read moves and the value it gets: the four tests of
    [MMC::read_ppu], in their order. *)
Definition latch_event (a : Access) : option (nat * bool) :=
  match a with
  | ReadPpu address =>
      if (address =? 0x0FD8)%Z then Some (0%nat, true)
      else if (address =? 0x0FE8)%Z then Some (0%nat, false)
      else if (0x1FD8 <=? address)%Z && (address <? 0x1FE0)%Z
      then Some (1%nat, true)
      else if (0x1FE8 <=? address)%Z && (address <? 0x1FF0)%Z
      then Some (1%nat, false)
      else None
  | _ => None
  end.

(** The CHR bank register a CPU write stores into and the value stored:
    the tests of [MMC::write_cpu], in their order. *)
Definition register_event (a : Access) : option (nat * Z) :=
  match a with
  | WriteCpu address value =>
      if (address <? 0xB000)%Z then None
      else if (address <? 0xC000)%Z then Some (0%nat, Z.land value 0x1F)
      else if (address <? 0xD000)%Z then Some (1%nat, Z.land value 0x1F)
      else if (address <? 0xE000)%Z then Some (2%nat, Z.land value 0x1F)
      else if (address <? 0xF000)%Z then Some (3%nat, Z.land value 0x1F)
      else None
  | _ => None
  end.

Definition moves_latch (k : nat) (a : Access) : bool :=
  match latch_event a with
  | Some (k', _) => Nat.eqb k' k
  | None => false
  end.

Definition sets_register (k : nat) (a : Access) : bool :=
  match register_event a with
  | Some (k', _) => Nat.eqb k' k
  | None => false
  end.

(** The accesses that end in a call of [update_banks]. *)
Definition refreshes (a : Access) : bool :=
  match latch_event a, register_event a with
  | None, None => false
  | _, _ => true
  end.

(** The CHR bank of 0x1000 bytes pattern table [k] is to show: the
    register its latch selects. *)
Definition chr_window (s : MMC) (k : nat) : Z :=
  selected_bank s (selected_register s k).

(** The four bank entries [update_banks] gives pattern table [k]. *)
Definition window_pages (s : MMC) (k : nat) : list MemoryBank :=
  map (fun i => chr_entry (base s) (uint16 (chr_page (chr_window s k) + i)))
    [0; 1; 2; 3]%Z.

(** The entries of the PPU pages 0x0..0x7 (the two pattern tables). *)
Definition pattern_pages (s : MMC) : list MemoryBank :=
  take 8 (_banks_ppu (base s)).

(** The pattern tables show what the latches and the registers select. *)
Definition chr_synced (s : MMC) : Prop :=
  pattern_pages s = window_pages s 0 ++ window_pages s 1.

(** The entry of the bank of 0x400 bytes number [address] of the CPU work
    RAM, as the constructor of [MMC] maps it: read only. *)
Definition cpu_ram_entry (m : Mapper) (address : Z) : MemoryBank :=
  mkBank (_size_prg m + _size_chr m + Z.shiftl address 10) true true.

(** What the entry of a CHR bank is computed from. *)
Definition chr_frame (m : Mapper) : Z * bool := (_size_prg m, _read_only_chr m).


End Windows.

(** ** Sequences of calls on a handle *)

Module Handle.
Import Wrapper.

Section Facade.
Context {Machine : Type} {core : Core Machine}.

(** The calls that clear the crash flag: [reset], and a [load] that gets
    past [mutable_data()]. *)
Definition clears (c : Call) : bool :=
  match c with
  | CallReset => true
  | CallLoad buffer => writeable buffer
  | _ => false
  end.

(** Some [step] of the sequence reports a crash of the emulator. *)
Fixpoint reports_crash (cs : list Call) (w : NesWrapper Machine) : bool :=
  match cs with
  | [] => false
  | c :: rest =>
      match c with
      | CallStep frames => fst (nes_step (controller w) frames (_nes w))
      | _ => false
      end
      || reports_crash rest (fst (call c w))
  end.

End Facade.

End Handle.
(** * Properties *)

(** ** The dump primitive writes a layout and reads it back *)

Section DumpFacts.
Import Dump Layout.

Lemma dump_field_write {T} size (to_bytes : T -> list Z) of_bytes v b a :
  (size <= length a)%nat ->
  dump_field size to_bytes of_bytes WRITE v (mkCursor b a)
  = Some (v, mkCursor (b ++ to_bytes v) (drop size a)).
Proof.
  intros Hlen. unfold dump_field; simpl.
  destruct (decide (size <= length a)%nat); [reflexivity | lia].
Qed.

Lemma dump_field_read {T} size (to_bytes : T -> list Z) of_bytes v0 b bytes rest :
  length bytes = size ->
  dump_field size to_bytes of_bytes READ v0 (mkCursor b (bytes ++ rest))
  = Some (of_bytes bytes v0, mkCursor (b ++ bytes) rest).
Proof.
  intros Hlen. unfold dump_field; simpl.
  destruct (decide (size <= length (bytes ++ rest))%nat) as [_ | Hn].
  - rewrite take_app_length', drop_app_length' by congruence. reflexivity.
  - rewrite length_app in Hn. lia.
Qed.

Lemma le_bytes_length width v : length (le_bytes width v) = width.
Proof.
  revert v. induction width as [| w IH]; intros v; simpl; [reflexivity |].
  now rewrite IH.
Qed.

Lemma le_value_le_bytes width v :
  le_bytes width (le_value (le_bytes width v)) = le_bytes width v.
Proof.
  revert v. induction width as [| w IH]; intros v; simpl; [reflexivity |].
  f_equal.
  - rewrite (Z.mul_comm 256), Z.mod_add by lia.
    apply Z.mod_mod. lia.
  - rewrite (Z.mul_comm 256), Z.div_add by lia.
    rewrite (Z.div_small (v mod 256) 256) by (apply Z.mod_pos_bound; lia).
    apply IH.
Qed.

Lemma dump_uint_writes width :
  Writes (dump_uint width) (le_bytes width) always.
Proof.
  intros v b a _ Hlen. rewrite le_bytes_length in *.
  now apply dump_field_write.
Qed.

Lemma dump_uint_restores width :
  Restores (dump_uint width) (le_bytes width) always any.
Proof.
  intros v0 v _ _ _. exists (le_value (le_bytes width v)).
  split; [| split; [apply le_value_le_bytes | split; exact I]].
  intros b rest.
  unfold dump_uint. now rewrite dump_field_read by apply le_bytes_length.
Qed.

Lemma dump_bool_writes : Writes dump_bool bool_byte always.
Proof. intros v b a _ Hlen. now apply dump_field_write. Qed.

Lemma dump_bool_restores : Restores dump_bool bool_byte always any.
Proof.
  intros v0 v _ _ _. exists v.
  split; [| split; [reflexivity | split; exact I]].
  intros b rest.
  unfold dump_bool. rewrite dump_field_read by reflexivity.
  now destruct v.
Qed.

Lemma dump_array_writes {T} (walk : DumpOperation -> T -> M T) layout :
  Writes walk layout always ->
  Writes (dump_array walk) (layout_array layout) always.
Proof.
  intros HW a. induction a as [| x a IH]; intros b buf _ Hlen.
  - simpl. unfold ret. now rewrite app_nil_r.
  - unfold layout_array in *. simpl in *. rewrite length_app in Hlen.
    unfold bind at 1. rewrite HW by (exact I || lia).
    unfold bind at 1. rewrite IH by (exact I || (rewrite length_drop; lia)).
    unfold ret. rewrite drop_drop, length_app, app_assoc. reflexivity.
Qed.

Lemma dump_array_restores {T} (walk : DumpOperation -> T -> M T) layout :
  Restores walk layout always any ->
  Restores (dump_array walk) (layout_array layout) always same_length.
Proof.
  intros HR a0. induction a0 as [| x0 a0 IH]; intros [| x a] _ _ Hfit;
    try discriminate Hfit.
  - exists []. repeat split. intros b rest. simpl. unfold ret.
    now rewrite app_nil_r.
  - destruct (HR x0 x I I I) as (x' & Ex & Lx & _).
    destruct (IH a I I) as (a' & Ea & La & _ & Fa).
    { injection Hfit; auto. }
    exists (x' :: a'). unfold layout_array in *. simpl.
    rewrite Lx, La. repeat split.
    + intros b rest. rewrite <- app_assoc.
      unfold bind at 1. rewrite Ex. unfold bind at 1. rewrite Ea.
      unfold ret. now rewrite app_assoc.
    + unfold same_length in *. simpl. now rewrite Fa.
Qed.

End DumpFacts.

(** ** The walk of the mapper base class *)

Section MapperDumpFacts.
Import Dump Layout Mapper.

Lemma bool_byte_length v : length (bool_byte v) = 1%nat.
Proof. reflexivity. Qed.

Lemma MemoryBank_dump_writes : Writes MemoryBank_dump layout_bank always.
Proof.
  intros [o r m] b a _ Hlen. unfold layout_bank in *.
  cbn [offset read_only mapped] in *.
  rewrite !length_app, le_bytes_length, !bool_byte_length in *.
  unfold MemoryBank_dump. cbn [offset read_only mapped].
  unfold bind at 1.
  rewrite dump_uint_writes by (exact I || (rewrite le_bytes_length; lia)).
  unfold bind at 1.
  rewrite dump_bool_writes
    by (exact I || (rewrite length_drop, le_bytes_length, bool_byte_length; lia)).
  unfold bind at 1.
  rewrite dump_bool_writes
    by (exact I
        || (rewrite !length_drop, le_bytes_length, !bool_byte_length; lia)).
  unfold ret. rewrite !drop_drop, le_bytes_length, !bool_byte_length.
  rewrite <- !app_assoc. reflexivity.
Qed.

Lemma MemoryBank_dump_restores : Restores MemoryBank_dump layout_bank always any.
Proof.
  intros [o0 r0 m0] [o r m] _ _ _. unfold layout_bank.
  cbn [offset read_only mapped].
  destruct (dump_uint_restores sizeof_size_t o0 o I I I) as (o' & Eo & Lo & _).
  destruct (dump_bool_restores r0 r I I I) as (r' & Er & Lr & _).
  destruct (dump_bool_restores m0 m I I I) as (m' & Em & Lm & _).
  exists (mkBank o' r' m'). cbn [offset read_only mapped].
  rewrite Lo, Lr, Lm. repeat split.
  intros b rest. unfold MemoryBank_dump. cbn [offset read_only mapped].
  rewrite <- !app_assoc.
  unfold bind at 1. rewrite Eo. unfold bind at 1. rewrite Er.
  unfold bind at 1. rewrite Em. unfold ret. now rewrite <- !app_assoc.
Qed.

(** The loop over the bank table is the array walk on the entries it
    visits. *)
Lemma dump_banks_array operation count : forall k banks c,
  (k + count <= length banks)%nat ->
  dump_banks operation count k banks c
  = match dump_array MemoryBank_dump operation (take count (drop k banks)) c with
    | Some (l, c') => Some (take k banks ++ l ++ drop (k + count) banks, c')
    | None => None
    end.
Proof.
  induction count as [| count IH]; intros k banks c Hlen.
  - simpl. unfold ret. rewrite Nat.add_0_r, take_drop. reflexivity.
  - destruct (lookup_lt_is_Some_2 banks k) as [x Hx]; [lia |].
    rewrite (drop_S _ _ _ Hx). cbn [take dump_array dump_banks]. rewrite Hx.
    cbn [from_option]. unfold id, bind.
    destruct (MemoryBank_dump operation x c) as [[x' c1] |]; [| reflexivity].
    rewrite IH by (rewrite length_insert; lia).
    rewrite drop_insert_lt by lia.
    destruct (dump_array MemoryBank_dump operation (take count (drop (S k) banks)) c1)
      as [[l c2] |]; [| reflexivity].
    unfold ret. f_equal. f_equal.
    rewrite drop_insert_lt by lia.
    rewrite (take_S_r (<[k:=x']> banks) k x')
      by (apply list_lookup_insert_eq; lia).
    rewrite take_insert_ge by lia.
    rewrite <- app_assoc. simpl.
    now replace (k + S count)%nat with (S (k + count)) by lia.
Qed.

Lemma dump_banks_write n banks b a :
  length banks = n ->
  (length (layout_array layout_bank banks) <= length a)%nat ->
  dump_banks WRITE n 0 banks (mkCursor b a)
  = Some (banks, mkCursor (b ++ layout_array layout_bank banks)
                   (drop (length (layout_array layout_bank banks)) a)).
Proof.
  intros Hn Hlen. rewrite dump_banks_array by (simpl; lia).
  rewrite drop_0, take_ge by lia.
  rewrite (dump_array_writes _ _ MemoryBank_dump_writes) by (exact I || lia).
  rewrite drop_ge by (simpl; lia). now rewrite app_nil_r.
Qed.

Lemma dump_banks_read n banks0 banks :
  length banks0 = n -> length banks = n ->
  exists banks',
    (forall b rest,
       dump_banks READ n 0 banks0
         (mkCursor b (layout_array layout_bank banks ++ rest))
       = Some (banks', mkCursor (b ++ layout_array layout_bank banks) rest))
    /\ layout_array layout_bank banks' = layout_array layout_bank banks
    /\ length banks' = n.
Proof.
  intros Hn0 Hn.
  destruct (dump_array_restores _ _ MemoryBank_dump_restores banks0 banks I I)
    as (banks' & E & L & _ & F); [unfold same_length; congruence |].
  unfold same_length in F.
  exists banks'. repeat split; [| assumption | congruence].
  intros b rest. rewrite dump_banks_array by (simpl; lia).
  rewrite drop_0, take_ge by lia. rewrite E.
  rewrite drop_ge by (simpl; lia). now rewrite app_nil_r.
Qed.

Lemma length_region s n mem :
  (s + n <= length mem)%nat -> length (region s n mem) = n.
Proof. intros H. unfold region. rewrite length_take, length_drop. lia. Qed.

Lemma length_set_region s n bytes mem :
  (s + n <= length mem)%nat -> length bytes = n ->
  length (set_region s n bytes mem) = length mem.
Proof.
  intros H Hb. unfold set_region.
  rewrite !length_app, length_take, length_drop. lia.
Qed.

Lemma region_set_region s n bytes mem :
  (s <= length mem)%nat -> length bytes = n ->
  region s n (set_region s n bytes mem) = bytes.
Proof.
  intros H Hb. unfold region, set_region.
  rewrite drop_app_length' by (rewrite length_take; lia).
  now apply take_app_length'.
Qed.

Lemma region_set_region_before s1 n1 s2 n2 bytes mem :
  (s1 + n1 <= s2)%nat -> (s2 <= length mem)%nat ->
  region s1 n1 (set_region s2 n2 bytes mem) = region s1 n1 mem.
Proof.
  intros H1 H2. unfold region, set_region.
  rewrite drop_app_le by (rewrite length_take; lia).
  rewrite take_app_le by (rewrite length_drop, length_take; lia).
  rewrite !take_drop_commute, take_take. do 2 f_equal. lia.
Qed.

(** A region that is walked only under a condition. *)
Lemma optional_region_write (c : bool) s n mem b a :
  (s + n <= length mem)%nat ->
  (length (if c then region s n mem else []) <= length a)%nat ->
  (if c then dump_region s n WRITE mem else ret mem) (mkCursor b a)
  = Some (mem,
          mkCursor (b ++ (if c then region s n mem else []))
            (drop (length (if c then region s n mem else [])) a)).
Proof.
  intros Hm Hlen. destruct c.
  - rewrite length_region in * by assumption.
    now apply dump_field_write.
  - unfold ret. simpl. now rewrite app_nil_r.
Qed.

Lemma optional_region_read (c : bool) s n mem0 mem b rest :
  (s + n <= length mem)%nat ->
  (if c then dump_region s n READ mem0 else ret mem0)
    (mkCursor b ((if c then region s n mem else []) ++ rest))
  = Some ((if c then set_region s n (region s n mem) mem0 else mem0),
          mkCursor (b ++ (if c then region s n mem else [])) rest).
Proof.
  intros Hm. destruct c.
  - apply dump_field_read. now apply length_region.
  - unfold ret. simpl. now rewrite app_nil_r.
Qed.

Lemma Mapper_dump_writes : Writes Mapper_dump layout_mapper valid_mapper.
Proof.
  intros m b a (Hc & Hp & H1 & H2 & H3 & H4 & Hm) Hlen.
  unfold layout_mapper, chr_region, cpu_ram_region, ppu_ram_region in *.
  rewrite !length_app in Hlen. unfold Mapper_dump.
  unfold bind at 1. rewrite (dump_banks_write 0x40) by (assumption || lia).
  unfold bind at 1.
  rewrite (dump_banks_write 0x10) by (assumption || (rewrite length_drop; lia)).
  unfold bind at 1.
  rewrite optional_region_write by (rewrite ?length_drop; lia).
  unfold bind at 1.
  rewrite optional_region_write by (rewrite ?length_drop; lia).
  unfold bind at 1.
  rewrite optional_region_write by (rewrite ?length_drop; lia).
  unfold ret. rewrite !drop_drop, !length_app, <- !app_assoc.
  destruct m. cbn. repeat f_equal; lia.
Qed.

Lemma Mapper_dump_restores :
  Restores Mapper_dump layout_mapper valid_mapper same_cartridge.
Proof.
  intros m0 m (Hc0 & Hp0 & A1 & A2 & A3 & A4 & Hm0)
    (Hc & Hp & B1 & B2 & B3 & B4 & Hm) (F1 & F2 & F3 & F4 & F5).
  destruct (dump_banks_read 0x40 _ _ Hc0 Hc) as (cpu' & Ec & Lc & Nc).
  destruct (dump_banks_read 0x10 _ _ Hp0 Hp) as (ppu' & Ep & Lp & Np).
  set (s1 := Z.to_nat (_size_prg m)).
  set (n1 := Z.to_nat (_size_chr m)).
  set (s2 := Z.to_nat (_size_prg m + _size_chr m)).
  set (n2 := Z.to_nat (_size_cpu_ram m)).
  set (s3 := Z.to_nat (_size_prg m + _size_chr m + _size_cpu_ram m)).
  set (n3 := Z.to_nat (_size_ppu_ram m)).
  set (c1 := negb (_read_only_chr m)).
  set (c2 := negb (_size_cpu_ram m =? 0)%Z).
  set (c3 := negb (_size_ppu_ram m =? 0)%Z).
  set (mem1 := if c1 then set_region s1 n1 (region s1 n1 (_memory m)) (_memory m0)
               else _memory m0).
  set (mem2 := if c2 then set_region s2 n2 (region s2 n2 (_memory m)) mem1
               else mem1).
  set (mem3 := if c3 then set_region s3 n3 (region s3 n3 (_memory m)) mem2
               else mem2).
  assert (Hs : (s1 + n1 = s2 /\ s2 + n2 = s3 /\ s3 + n3 = length (_memory m)
                /\ length (_memory m0) = length (_memory m))%nat)
    by (subst s1 n1 s2 n2 s3 n3; lia).
  destruct Hs as (S1 & S2 & S3 & S0).
  assert (L1 : length mem1 = length (_memory m)).
  { subst mem1. destruct c1; [| assumption].
    rewrite length_set_region; [assumption | lia | apply length_region; lia]. }
  assert (L2 : length mem2 = length (_memory m)).
  { subst mem2. destruct c2; [| assumption].
    rewrite length_set_region; [assumption | lia | apply length_region; lia]. }
  assert (L3 : length mem3 = length (_memory m)).
  { subst mem3. destruct c3; [| assumption].
    rewrite length_set_region; [assumption | lia | apply length_region; lia]. }
  exists (set_memory mem3 (set_banks_ppu ppu' (set_banks_cpu cpu' m0))).
  split; [| split; [| split]].
  - intros b rest. unfold Mapper_dump, layout_mapper.
    unfold chr_region, cpu_ram_region, ppu_ram_region.
    rewrite F1, F2, F3, F4, F5. rewrite <- !app_assoc.
    unfold bind at 1. rewrite Ec. unfold bind at 1. rewrite Ep.
    unfold bind at 1. rewrite optional_region_read by (fold s1 n1; lia).
    unfold bind at 1. rewrite optional_region_read by (fold s2 n2; lia).
    unfold bind at 1. rewrite optional_region_read by (fold s3 n3; lia).
    unfold ret. rewrite <- !app_assoc. reflexivity.
  - unfold layout_mapper, chr_region, cpu_ram_region, ppu_ram_region.
    cbn [set_memory set_banks_ppu set_banks_cpu _banks_cpu _banks_ppu _memory
         _size_prg _size_chr _size_cpu_ram _size_ppu_ram _read_only_chr].
    rewrite F1, F2, F3, F4, F5, Lc, Lp.
    fold s1 n1 s2 n2 s3 n3 c1 c2 c3. do 2 f_equal.
    assert (R1 : c1 = true -> region s1 n1 mem3 = region s1 n1 (_memory m)).
    { intros C1. subst mem3 mem2 mem1. rewrite C1.
      destruct c2, c3;
        rewrite ?region_set_region_before
          by (rewrite ?length_set_region
                by (rewrite ?length_set_region
                      by (lia || (apply length_region; lia));
                    lia || (apply length_region; lia)); lia);
        apply region_set_region; (lia || apply length_region; lia). }
    assert (R2 : c2 = true -> region s2 n2 mem3 = region s2 n2 (_memory m)).
    { intros C2. subst mem3 mem2. rewrite C2.
      destruct c3;
        rewrite ?region_set_region_before
          by (rewrite ?length_set_region
                by (lia || (apply length_region; lia)); lia);
        apply region_set_region; (lia || apply length_region; lia). }
    assert (R3 : c3 = true -> region s3 n3 mem3 = region s3 n3 (_memory m)).
    { intros C3. subst mem3. rewrite C3.
      apply region_set_region; (lia || apply length_region; lia). }
    destruct c1, c2, c3; rewrite ?R1, ?R2, ?R3 by reflexivity; reflexivity.
  - unfold valid_mapper.
    cbn [set_memory set_banks_ppu set_banks_cpu _banks_cpu _banks_ppu _memory
         _size_prg _size_chr _size_cpu_ram _size_ppu_ram _read_only_chr].
    rewrite L3. repeat split; try assumption. lia.
  - unfold same_cartridge.
    cbn [set_memory set_banks_ppu set_banks_cpu _banks_cpu _banks_ppu _memory
         _size_prg _size_chr _size_cpu_ram _size_ppu_ram _read_only_chr].
    repeat split; assumption.
Qed.

End MapperDumpFacts.

(** ** The walks of the mapper classes *)

Section VariantDumpFacts.
Import Dump Layout Mapper.

Lemma emits_ret {A} (v : A) : Emits (ret v) v [].
Proof. intros b a _. unfold ret. simpl. now rewrite app_nil_r. Qed.

Lemma emits_bind {A B} (m : M A) (k : A -> M B) x y l1 l2 :
  Emits m x l1 -> Emits (k x) y l2 -> Emits (bind m k) y (l1 ++ l2).
Proof.
  intros H1 H2 b a Hlen. rewrite length_app in *.
  unfold bind. rewrite H1 by lia. rewrite H2 by (rewrite length_drop; lia).
  now rewrite drop_drop, app_assoc.
Qed.

Lemma absorbs_ret {A} (v : A) : Absorbs (ret v) v [].
Proof. intros b rest. unfold ret. simpl. now rewrite app_nil_r. Qed.

Lemma absorbs_bind {A B} (m : M A) (k : A -> M B) x y l1 l2 :
  Absorbs m x l1 -> Absorbs (k x) y l2 -> Absorbs (bind m k) y (l1 ++ l2).
Proof.
  intros H1 H2 b rest. unfold bind.
  rewrite <- app_assoc, H1, H2. now rewrite app_assoc.
Qed.

Lemma writes_emits {T} (walk : DumpOperation -> T -> M T) layout ok v :
  Writes walk layout ok -> ok v -> Emits (walk WRITE v) v (layout v).
Proof. intros HW Hok b a Hlen. now apply HW. Qed.

Lemma emits_to {A} (m : M A) v l l' : Emits m v l -> l = l' -> Emits m v l'.
Proof. now intros H <-. Qed.

Lemma absorbs_to {A} (m : M A) v l l' : Absorbs m v l -> l = l' -> Absorbs m v l'.
Proof. now intros H <-. Qed.

Ltac emit_fields :=
  repeat (eapply emits_bind;
          [first [ apply (writes_emits _ _ _ _ Mapper_dump_writes); assumption
                 | apply (writes_emits _ _ _ _ (dump_uint_writes _)); exact I
                 | apply (writes_emits _ _ _ _ dump_bool_writes); exact I
                 | apply (writes_emits _ _ _ _
                            (dump_array_writes _ _ (dump_uint_writes _))); exact I
                 | apply (writes_emits _ _ _ _
                            (dump_array_writes _ _ dump_bool_writes)); exact I ]
          |]);
  apply emits_ret.

Lemma MMC_dump_writes : Writes MMC.dump layout_mmc valid_mmc.
Proof.
  intros [b l sel] bh a (Hb & _) Hlen. simpl in Hb.
  refine (emits_to _ _ _ _ _ _ bh a Hlen).
  - unfold MMC.dump. cbn [MMC.base MMC._latches MMC._selected_banks].
    emit_fields.
  - unfold layout_mmc. cbn [MMC.base MMC._latches MMC._selected_banks].
    now rewrite app_nil_r.
Qed.

Lemma MMC1_dump_writes : Writes MMC1.dump layout_mmc1 valid_mmc1.
Proof.
  intros [b t rs r c] bh a (Hb & _) Hlen. simpl in Hb.
  refine (emits_to _ _ _ _ _ _ bh a Hlen).
  - unfold MMC1.dump.
    cbn [MMC1.base MMC1._tick MMC1._registers MMC1._register MMC1._counter].
    emit_fields.
  - unfold layout_mmc1.
    cbn [MMC1.base MMC1._tick MMC1._registers MMC1._register MMC1._counter].
    now rewrite app_nil_r.
Qed.

Lemma MMC3_dump_writes : Writes MMC3.dump layout_mmc3 valid_mmc3.
Proof.
  intros [b t rs c cr rt mp mc ei sr] bh a (Hb & _) Hlen. simpl in Hb.
  refine (emits_to _ _ _ _ _ _ bh a Hlen).
  - unfold MMC3.dump.
    cbn [MMC3.base MMC3._tick MMC3._registers MMC3._counter
         MMC3._counter_reset_value MMC3._register_target MMC3._mode_prg
         MMC3._mode_chr MMC3._enable_interrupt MMC3._should_reload_interrupt].
    emit_fields.
  - unfold layout_mmc3.
    cbn [MMC3.base MMC3._tick MMC3._registers MMC3._counter
         MMC3._counter_reset_value MMC3._register_target MMC3._mode_prg
         MMC3._mode_chr MMC3._enable_interrupt MMC3._should_reload_interrupt].
    now rewrite app_nil_r.
Qed.

Ltac absorb H := eapply absorbs_bind; [exact H |].

Lemma MMC_dump_restores : Restores MMC.dump layout_mmc valid_mmc same_mmc.
Proof.
  intros [b0 l0 sel0] [b l sel] (Hb0 & Hl0 & Hs0) (Hb & Hl & Hs) (Fb & Fl & Fs).
  cbn [MMC.base MMC._latches MMC._selected_banks] in *.
  destruct (Mapper_dump_restores b0 b Hb0 Hb Fb) as (b' & Eb & Lb & Ob & Fb').
  destruct (dump_array_restores _ _ dump_bool_restores l0 l I I Fl)
    as (l' & El & Ll & _ & Fl').
  destruct (dump_array_restores _ _ (dump_uint_restores 1) sel0 sel I I Fs)
    as (sel' & Es & Ls & _ & Fs').
  fold (Absorbs (Mapper_dump READ b0) b' (layout_mapper b)) in Eb.
  fold (Absorbs (dump_array dump_bool READ l0) l' (layout_array bool_byte l)) in El.
  fold (Absorbs (dump_array (dump_uint 1) READ sel0) sel'
          (layout_array (le_bytes 1) sel)) in Es.
  unfold same_length in *.
  exists (MMC.mkMMC b' l' sel'). unfold layout_mmc, valid_mmc, same_mmc.
  cbn [MMC.base MMC._latches MMC._selected_banks].
  rewrite Lb, Ll, Ls. repeat split;
    try assumption; try congruence; try apply Ob; try apply Fb'.
  intros bh rest. refine (absorbs_to _ _ _ _ _ _ bh rest).
  - unfold MMC.dump. cbn [MMC.base MMC._latches MMC._selected_banks].
    absorb Eb. absorb El. absorb Es. apply absorbs_ret.
  - now rewrite app_nil_r.
Qed.

Lemma MMC1_dump_restores : Restores MMC1.dump layout_mmc1 valid_mmc1 same_mmc1.
Proof.
  intros [b0 t0 rs0 r0 c0] [b t rs r c] (Hb0 & Hr0) (Hb & Hr) (Fb & Fr).
  cbn [MMC1.base MMC1._tick MMC1._registers MMC1._register MMC1._counter] in *.
  destruct (Mapper_dump_restores b0 b Hb0 Hb Fb) as (b' & Eb & Lb & Ob & Fb').
  destruct (dump_uint_restores 1 t0 t I I I) as (t' & Et & Lt & _).
  destruct (dump_array_restores _ _ (dump_uint_restores 1) rs0 rs I I Fr)
    as (rs' & Ers & Lrs & _ & Frs).
  destruct (dump_uint_restores 1 r0 r I I I) as (r' & Er & Lr & _).
  destruct (dump_uint_restores 1 c0 c I I I) as (c' & Ec & Lc & _).
  fold (Absorbs (Mapper_dump READ b0) b' (layout_mapper b)) in Eb.
  fold (Absorbs (dump_uint 1 READ t0) t' (le_bytes 1 t)) in Et.
  fold (Absorbs (dump_array (dump_uint 1) READ rs0) rs'
          (layout_array (le_bytes 1) rs)) in Ers.
  fold (Absorbs (dump_uint 1 READ r0) r' (le_bytes 1 r)) in Er.
  fold (Absorbs (dump_uint 1 READ c0) c' (le_bytes 1 c)) in Ec.
  unfold same_length in *.
  exists (MMC1.mkMMC1 b' t' rs' r' c'). unfold layout_mmc1, valid_mmc1, same_mmc1.
  cbn [MMC1.base MMC1._tick MMC1._registers MMC1._register MMC1._counter].
  rewrite Lb, Lt, Lrs, Lr, Lc. repeat split;
    try assumption; try congruence; try apply Ob; try apply Fb'.
  intros bh rest. refine (absorbs_to _ _ _ _ _ _ bh rest).
  - unfold MMC1.dump.
    cbn [MMC1.base MMC1._tick MMC1._registers MMC1._register MMC1._counter].
    absorb Eb. absorb Et. absorb Ers. absorb Er. absorb Ec.
    apply absorbs_ret.
  - now rewrite app_nil_r.
Qed.

Lemma MMC3_dump_restores : Restores MMC3.dump layout_mmc3 valid_mmc3 same_mmc3.
Proof.
  intros [b0 t0 rs0 c0 cr0 rt0 mp0 mc0 ei0 sr0] [b t rs c cr rt mp mc ei sr]
    (Hb0 & Hr0) (Hb & Hr) (Fb & Fr).
  cbn [MMC3.base MMC3._tick MMC3._registers MMC3._counter
       MMC3._counter_reset_value MMC3._register_target MMC3._mode_prg
       MMC3._mode_chr MMC3._enable_interrupt MMC3._should_reload_interrupt] in *.
  destruct (Mapper_dump_restores b0 b Hb0 Hb Fb) as (b' & Eb & Lb & Ob & Fb').
  destruct (dump_uint_restores 4 t0 t I I I) as (t' & Et & Lt & _).
  destruct (dump_array_restores _ _ (dump_uint_restores 4) rs0 rs I I Fr)
    as (rs' & Ers & Lrs & _ & Frs).
  destruct (dump_uint_restores 2 c0 c I I I) as (c' & Ec & Lc & _).
  destruct (dump_uint_restores 2 cr0 cr I I I) as (cr' & Ecr & Lcr & _).
  destruct (dump_uint_restores 1 rt0 rt I I I) as (rt' & Ert & Lrt & _).
  destruct (dump_bool_restores mp0 mp I I I) as (mp' & Emp & Lmp & _).
  destruct (dump_bool_restores mc0 mc I I I) as (mc' & Emc & Lmc & _).
  destruct (dump_bool_restores ei0 ei I I I) as (ei' & Eei & Lei & _).
  destruct (dump_bool_restores sr0 sr I I I) as (sr' & Esr & Lsr & _).
  fold (Absorbs (Mapper_dump READ b0) b' (layout_mapper b)) in Eb.
  fold (Absorbs (dump_uint 4 READ t0) t' (le_bytes 4 t)) in Et.
  fold (Absorbs (dump_array (dump_uint 4) READ rs0) rs'
          (layout_array (le_bytes 4) rs)) in Ers.
  fold (Absorbs (dump_uint 2 READ c0) c' (le_bytes 2 c)) in Ec.
  fold (Absorbs (dump_uint 2 READ cr0) cr' (le_bytes 2 cr)) in Ecr.
  fold (Absorbs (dump_uint 1 READ rt0) rt' (le_bytes 1 rt)) in Ert.
  fold (Absorbs (dump_bool READ mp0) mp' (bool_byte mp)) in Emp.
  fold (Absorbs (dump_bool READ mc0) mc' (bool_byte mc)) in Emc.
  fold (Absorbs (dump_bool READ ei0) ei' (bool_byte ei)) in Eei.
  fold (Absorbs (dump_bool READ sr0) sr' (bool_byte sr)) in Esr.
  unfold same_length in *.
  exists (MMC3.mkMMC3 b' t' rs' c' cr' rt' mp' mc' ei' sr').
  unfold layout_mmc3, valid_mmc3, same_mmc3.
  cbn [MMC3.base MMC3._tick MMC3._registers MMC3._counter
       MMC3._counter_reset_value MMC3._register_target MMC3._mode_prg
       MMC3._mode_chr MMC3._enable_interrupt MMC3._should_reload_interrupt].
  rewrite Lb, Lt, Lrs, Lc, Lcr, Lrt, Lmp, Lmc, Lei, Lsr.
  repeat split;
    try assumption; try congruence; try apply Ob; try apply Fb'.
  intros bh rest. refine (absorbs_to _ _ _ _ _ _ bh rest).
  - unfold MMC3.dump.
    cbn [MMC3.base MMC3._tick MMC3._registers MMC3._counter
         MMC3._counter_reset_value MMC3._register_target MMC3._mode_prg
         MMC3._mode_chr MMC3._enable_interrupt MMC3._should_reload_interrupt].
    absorb Eb. absorb Et. absorb Ers. absorb Ec. absorb Ecr. absorb Ert.
    absorb Emp. absorb Emc. absorb Eei. absorb Esr. apply absorbs_ret.
  - now rewrite app_nil_r.
Qed.

Lemma dump_any_writes : Writes dump_any layout_any valid_any.
Proof.
  intros [m | s | s | s] b a Hok Hlen; cbn [dump_any layout_any valid_any] in *;
    unfold bind, ret.
  - rewrite Mapper_dump_writes by assumption. reflexivity.
  - rewrite MMC1_dump_writes by assumption. reflexivity.
  - rewrite MMC3_dump_writes by assumption. reflexivity.
  - rewrite MMC_dump_writes by assumption. reflexivity.
Qed.

Lemma dump_any_restores : Restores dump_any layout_any valid_any same_any.
Proof.
  intros [m0 | s0 | s0 | s0] [m | s | s | s] Hok0 Hok Hfit;
    cbn [same_any] in Hfit; try contradiction;
    cbn [dump_any layout_any valid_any] in *.
  - destruct (Mapper_dump_restores m0 m Hok0 Hok Hfit) as (m' & E & L & O & F).
    exists (Plain m'). split; [| split; [| split]]; try assumption.
    intros b rest. unfold bind, ret. now rewrite E.
  - destruct (MMC1_dump_restores s0 s Hok0 Hok Hfit) as (s' & E & L & O & F).
    exists (IsMMC1 s'). split; [| split; [| split]]; try assumption.
    intros b rest. unfold bind, ret. now rewrite E.
  - destruct (MMC3_dump_restores s0 s Hok0 Hok Hfit) as (s' & E & L & O & F).
    exists (IsMMC3 s'). split; [| split; [| split]]; try assumption.
    intros b rest. unfold bind, ret. now rewrite E.
  - destruct (MMC_dump_restores s0 s Hok0 Hok Hfit) as (s' & E & L & O & F).
    exists (IsMMC s'). split; [| split; [| split]]; try assumption.
    intros b rest. unfold bind, ret. now rewrite E.
Qed.

End VariantDumpFacts.

(** ** Save states of the mapper *)

Section SaveStates.
Import Dump Layout Mapper.

Lemma layout_any_segment v : valid_any v -> layout_any v = mapper_segment v.
Proof.
  assert (Hbase : forall m, valid_mapper m ->
    layout_mapper m
    = layout_array layout_bank (take 64 (_banks_cpu m))
      ++ layout_array layout_bank (take 16 (_banks_ppu m))
      ++ (if _read_only_chr m then [] else chr_region m)
      ++ (if (_size_cpu_ram m =? 0)%Z then [] else cpu_ram_region m)
      ++ (if (_size_ppu_ram m =? 0)%Z then [] else ppu_ram_region m)).
  { intros m (Hc & Hp & _). unfold layout_mapper.
    rewrite !take_ge by lia.
    now destruct (_read_only_chr m), (_size_cpu_ram m =? 0)%Z,
      (_size_ppu_ram m =? 0)%Z. }
  destruct v as [m | s | s | s]; unfold mapper_segment;
    cbn [layout_any valid_any base_of variant_fields].
  - intros H. rewrite (Hbase _ H). now rewrite app_nil_r.
  - intros [H _]. unfold layout_mmc1. rewrite (Hbase _ H).
    now rewrite <- !app_assoc.
  - intros [H _]. unfold layout_mmc3. rewrite (Hbase _ H).
    now rewrite <- !app_assoc.
  - intros [H _]. unfold layout_mmc. rewrite (Hbase _ H).
    now rewrite <- !app_assoc.
Qed.

(** C1. Save, load, save: the walk in WRITE mode on a mapper [v] fills a
    buffer with bytes [saved]; the walk in READ mode over [saved], into any
    mapper object [v0] of the same cartridge ([v] itself included), consumes
    the whole buffer; and the walk in WRITE mode on the loaded mapper fills
    a second buffer with the very same bytes [saved]. *)
Theorem save_load_save_identity (v v0 : AnyMapper) (buffer buffer' : list Z) :
  valid_any v -> valid_any v0 -> same_any v0 v ->
  length buffer = length (layout_any v) -> length buffer' = length buffer ->
  exists saved v',
    dump_any WRITE v (rewind buffer) = Some (v, mkCursor saved [])
    /\ dump_any READ v0 (rewind saved) = Some (v', mkCursor saved [])
    /\ dump_any WRITE v' (rewind buffer') = Some (v', mkCursor saved []).
Proof.
  intros Hv Hv0 Hfit Hlen Hlen'.
  destruct (dump_any_restores v0 v Hv0 Hv Hfit) as (v' & E & L & O & _).
  exists (layout_any v), v'. unfold rewind. split; [| split].
  - rewrite dump_any_writes by (assumption || lia).
    now rewrite drop_ge by lia.
  - specialize (E [] []). now rewrite app_nil_r in E.
  - rewrite dump_any_writes by (assumption || (rewrite L; lia)).
    rewrite drop_ge by (rewrite L; lia). now rewrite L.
Qed.

Lemma example_mmc2_valid : valid_any (IsMMC Examples.mmc2).
Proof.
  unfold valid_any, valid_mmc, valid_mapper.
  split; [split; [| split; [| split; [| split; [| split; [| split]]]]] | split];
    vm_compute; first [reflexivity | discriminate].
Qed.

Lemma same_any_refl v : same_any v v.
Proof. destruct v; repeat split. Qed.

Lemma save_load_save_identity_witness :
  exists saved v',
    dump_any WRITE (IsMMC Examples.mmc2)
      (rewind (replicate (length (layout_any (IsMMC Examples.mmc2))) 0%Z))
    = Some (IsMMC Examples.mmc2, mkCursor saved [])
    /\ dump_any READ (IsMMC Examples.mmc2) (rewind saved)
       = Some (v', mkCursor saved [])
    /\ dump_any WRITE v'
         (rewind (replicate (length (layout_any (IsMMC Examples.mmc2))) 0xFF%Z))
       = Some (v', mkCursor saved []).
Proof.
  apply save_load_save_identity.
  - exact example_mmc2_valid.
  - exact example_mmc2_valid.
  - apply same_any_refl.
  - apply length_replicate.
  - now rewrite !length_replicate.
Defined.

(** C9. The segment a mapper writes into a save state is, in this order:
    the 64 CPU bank entries, the 16 PPU bank entries, the CHR region when
    CHR is RAM, the CPU work RAM and the PPU work RAM when they are
    present, then the fields of the concrete mapper class. *)
Theorem mapper_segment_order (v : AnyMapper) (b a : list Z) :
  valid_any v -> (length (mapper_segment v) <= length a)%nat ->
  dump_any WRITE v (mkCursor b a)
  = Some (v, mkCursor (b ++ mapper_segment v)
               (drop (length (mapper_segment v)) a)).
Proof.
  intros Hv Hlen. rewrite <- (layout_any_segment v Hv) in *.
  now apply dump_any_writes.
Qed.

Lemma mapper_segment_order_witness :
  dump_any WRITE (IsMMC Examples.mmc2)
    (mkCursor [] (replicate (length (mapper_segment (IsMMC Examples.mmc2))) 0%Z))
  = Some (IsMMC Examples.mmc2,
          mkCursor ([] ++ mapper_segment (IsMMC Examples.mmc2))
            (drop (length (mapper_segment (IsMMC Examples.mmc2)))
               (replicate (length (mapper_segment (IsMMC Examples.mmc2))) 0%Z))).
Proof.
  apply mapper_segment_order.
  - exact example_mmc2_valid.
  - now rewrite length_replicate.
Defined.

End SaveStates.

(** ** Bank helpers *)

Section MapPages.
Import Mapper Banks.

Variable get : Mapper -> list MemoryBank.
Variable entry : Mapper -> Z -> MemoryBank.
Variable map1 : Z -> Z -> Mapper -> Mapper.

Hypothesis get_map1 : forall page address m,
  get (map1 page address m) = <[Z.to_nat page := entry m address]> (get m).
Hypothesis entry_map1 : forall page address m a,
  entry (map1 page address m) a = entry m a.

Lemma map_pages_entry count : forall index page address m a,
  entry (map_pages map1 count index page address m) a = entry m a.
Proof.
  induction count as [| count IH]; intros index page address m a; simpl.
  - reflexivity.
  - now rewrite IH, entry_map1.
Qed.

Lemma uint8_small v : (0 <= v < 0x100)%Z -> uint8 v = v.
Proof. intros H. unfold uint8. now apply Z.mod_small. Qed.

Lemma uint16_small v : (0 <= v < 0x10000)%Z -> uint16 v = v.
Proof. intros H. unfold uint16. now apply Z.mod_small. Qed.

(** The pages [page + index .. page + index + count - 1] get the entries
    of the banks [address + index ..]; the other pages keep theirs. *)
Lemma map_pages_lookup page address count : forall index m (j : nat),
  (0 <= page)%Z -> (0 <= index)%Z ->
  (page + index + Z.of_nat count <= 0x100)%Z ->
  get (map_pages map1 count index page address m) !! j
  = if decide ((Z.to_nat (page + index) <= j < Z.to_nat (page + index) + count)%nat
               /\ (j < length (get m))%nat)
    then Some (entry m (uint16 (address + (Z.of_nat j - page))))
    else get m !! j.
Proof.
  induction count as [| count IH]; intros index m j Hp Hi Hc.
  - simpl. case_decide; [lia | reflexivity].
  - cbn [map_pages]. rewrite IH by lia.
    rewrite get_map1, length_insert, entry_map1, list_lookup_insert.
    rewrite uint8_small by lia.
    repeat case_decide; try lia; try reflexivity.
    do 3 f_equal. lia.
Qed.

Lemma map_pages_length page address count : forall index m,
  length (get (map_pages map1 count index page address m)) = length (get m).
Proof.
  induction count as [| count IH]; intros index m; simpl; [reflexivity |].
  now rewrite IH, get_map1, length_insert.
Qed.

Lemma map_pages_Forall (P : MemoryBank -> Prop) count :
  forall index page address m,
    Forall P (get m) ->
    (forall i, (index <= i < index + Z.of_nat count)%Z ->
       P (entry m (uint16 (address + i)))) ->
    Forall P (get (map_pages map1 count index page address m)).
Proof.
  induction count as [| count IH]; intros index page address m Hall Hnew.
  - exact Hall.
  - cbn [map_pages]. apply IH.
    + rewrite get_map1. apply Forall_insert; [exact Hall | apply Hnew; lia].
    + intros i Hi. rewrite entry_map1. apply Hnew. lia.
Qed.

End MapPages.

Section BankTables.
Import Mapper Banks.

Lemma map_pages_keeps {A} (f : Mapper -> A) (map1 : Z -> Z -> Mapper -> Mapper) :
  (forall page address m, f (map1 page address m) = f m) ->
  forall count index page address m,
    f (map_pages map1 count index page address m) = f m.
Proof.
  intros Hf. induction count as [| count IH]; intros index page address m.
  - reflexivity.
  - cbn [map_pages]. now rewrite IH, Hf.
Qed.

Lemma chr_entry_map1 page address m a :
  chr_entry (map_bank_chr1 page address m) a = chr_entry m a.
Proof. reflexivity. Qed.

Lemma map_bank_chr_lookup page size address m (j : nat) :
  (0 <= page)%Z -> (0 <= size)%Z -> (page + size <= 0x100)%Z ->
  _banks_ppu (map_bank_chr page size address m) !! j
  = if decide ((Z.to_nat page <= j < Z.to_nat page + Z.to_nat size)%nat
               /\ (j < length (_banks_ppu m))%nat)
    then Some (chr_entry m (uint16 (address + (Z.of_nat j - page))))
    else _banks_ppu m !! j.
Proof.
  intros Hp Hs Hps. unfold map_bank_chr.
  rewrite (map_pages_lookup _banks_ppu chr_entry map_bank_chr1)
    by (reflexivity || lia).
  now rewrite Z.add_0_r.
Qed.

Lemma map_bank_prg_lookup page size address m (j : nat) :
  (0 <= page)%Z -> (0 <= size)%Z -> (page + size <= 0x100)%Z ->
  _banks_cpu (map_bank_prg page size address m) !! j
  = if decide ((Z.to_nat page <= j < Z.to_nat page + Z.to_nat size)%nat
               /\ (j < length (_banks_cpu m))%nat)
    then Some (prg_entry (uint16 (address + (Z.of_nat j - page))))
    else _banks_cpu m !! j.
Proof.
  intros Hp Hs Hps. unfold map_bank_prg.
  rewrite (map_pages_lookup _banks_cpu (fun _ => prg_entry) map_bank_prg1)
    by (reflexivity || lia).
  now rewrite Z.add_0_r.
Qed.

Lemma map_bank_chr_length page size address m :
  length (_banks_ppu (map_bank_chr page size address m)) = length (_banks_ppu m).
Proof.
  unfold map_bank_chr.
  now rewrite (map_pages_length _banks_ppu chr_entry map_bank_chr1).
Qed.

Lemma map_bank_chr_entry page size address m a :
  chr_entry (map_bank_chr page size address m) a = chr_entry m a.
Proof.
  unfold map_bank_chr.
  now rewrite (map_pages_entry chr_entry map_bank_chr1 chr_entry_map1).
Qed.

Lemma bank_at_lookup banks (page : Z) bank :
  banks !! Z.to_nat page = Some bank -> bank_at banks page = bank.
Proof. intros H. unfold bank_at. now rewrite H. Qed.

End BankTables.

(** ** The MMC mapper *)

Section MMCFacts.
Import Mapper Banks MMC Layout.

Lemma update_banks_latches t : _latches (update_banks t) = _latches t.
Proof. unfold update_banks. now destruct (latch t 0), (latch _ 1). Qed.

Lemma update_banks_selected t :
  _selected_banks (update_banks t) = _selected_banks t.
Proof. unfold update_banks. now destruct (latch t 0), (latch _ 1). Qed.

(** [update_banks] maps the pages 0..3 from the register latch 0 selects
    and the pages 4..7 from the register latch 1 selects. *)
Lemma update_banks_base t :
  base (update_banks t)
  = map_bank_chr 0x4 0x4 (chr_page (selected_bank t (selected_register t 1)))
      (map_bank_chr 0x0 0x4 (chr_page (selected_bank t (selected_register t 0)))
         (base t)).
Proof.
  unfold update_banks, selected_register.
  destruct (latch t 0) eqn:E0; unfold latch in *;
    cbn [set_base _latches base _selected_banks selected_bank];
    destruct (default false (_latches t !! 1%nat)); reflexivity.
Qed.

Lemma update_banks_pages t (i : Z) :
  length (_banks_ppu (base t)) = 16%nat -> (0 <= i < 4)%Z ->
  bank_at (_banks_ppu (base (update_banks t))) i
  = chr_entry (base t)
      (uint16 (chr_page (selected_bank t (selected_register t 0)) + i))
  /\ bank_at (_banks_ppu (base (update_banks t))) (4 + i)
     = chr_entry (base t)
         (uint16 (chr_page (selected_bank t (selected_register t 1)) + i)).
Proof.
  intros Hlen Hi. rewrite update_banks_base. split; apply bank_at_lookup.
  - rewrite !map_bank_chr_lookup, map_bank_chr_length by lia.
    repeat case_decide; try lia. do 3 f_equal. lia.
  - rewrite !map_bank_chr_lookup, map_bank_chr_length by lia.
    repeat case_decide; try lia. rewrite map_bank_chr_entry.
    do 3 f_equal. lia.
Qed.

Lemma latch_set_latch_eq k v s :
  (k < length (_latches s))%nat -> latch (set_latch k v s) k = v.
Proof.
  intros H. unfold latch, set_latch; cbn [_latches].
  now rewrite list_lookup_insert_eq.
Qed.

Lemma latch_set_latch_ne k j v s :
  k <> j -> latch (set_latch k v s) j = latch s j.
Proof.
  intros H. unfold latch, set_latch; cbn [_latches].
  now rewrite list_lookup_insert_ne.
Qed.

Lemma latch_update_banks t k : latch (update_banks t) k = latch t k.
Proof. unfold latch. now rewrite update_banks_latches. Qed.

(** What a read at a trigger address leaves behind. *)
Lemma read_ppu_state open_bus address s :
  snd (read_ppu open_bus address s)
  = if (address =? 0x0FD8)%Z then update_banks (set_latch 0 true s)
    else if (address =? 0x0FE8)%Z then update_banks (set_latch 0 false s)
    else if (0x1FD8 <=? address)%Z && (address <? 0x1FE0)%Z
    then update_banks (set_latch 1 true s)
    else if (0x1FE8 <=? address)%Z && (address <? 0x1FF0)%Z
    then update_banks (set_latch 1 false s)
    else s.
Proof. reflexivity. Qed.

Lemma read_ppu_trigger open_bus address s :
  latch_trigger address ->
  exists k v,
    snd (read_ppu open_bus address s) = update_banks (set_latch k v s)
    /\ (address = 0x0FD8%Z -> k = 0%nat /\ v = true)
    /\ (address = 0x0FE8%Z -> k = 0%nat /\ v = false)
    /\ ((0x1FD8 <= address <= 0x1FDF)%Z -> k = 1%nat /\ v = true)
    /\ ((0x1FE8 <= address <= 0x1FEF)%Z -> k = 1%nat /\ v = false).
Proof.
  intros Ht. rewrite read_ppu_state.
  destruct (Z.eqb_spec address 0x0FD8) as [-> | N1].
  { exists 0%nat, true. repeat split; lia. }
  destruct (Z.eqb_spec address 0x0FE8) as [-> | N2].
  { exists 0%nat, false. repeat split; lia. }
  destruct (Z.leb_spec 0x1FD8 address), (Z.ltb_spec address 0x1FE0);
    cbn [andb]; try (exists 1%nat, true; repeat split; lia);
    destruct (Z.leb_spec 0x1FE8 address), (Z.ltb_spec address 0x1FF0);
    cbn [andb]; try (exists 1%nat, false; repeat split; lia);
    unfold latch_trigger in Ht; lia.
Qed.

(** C6. In the MMC2/MMC4 mapper a PPU read at 0x0FD8 sets latch 0 and a
    read at 0x0FE8 clears it, a read in 0x1FD8-0x1FDF sets latch 1 and a
    read in 0x1FE8-0x1FEF clears it, the other latch and the four bank
    registers staying as they were; after such a read the pattern-table
    pages 0x0-0x3 show the 0x1000 bytes of CHR numbered by register 0 when
    latch 0 is on and by register 1 when it is off, and the pages 0x4-0x7
    those numbered by register 2 when latch 1 is on and by register 3 when
    it is off. *)
Theorem mmc_latches_select_chr (open_bus address : Z) (s : MMC) :
  valid_mmc s -> latch_trigger address ->
  let s' := snd (read_ppu open_bus address s) in
  (address = 0x0FD8%Z -> latch s' 0 = true /\ latch s' 1 = latch s 1)
  /\ (address = 0x0FE8%Z -> latch s' 0 = false /\ latch s' 1 = latch s 1)
  /\ ((0x1FD8 <= address <= 0x1FDF)%Z ->
      latch s' 1 = true /\ latch s' 0 = latch s 0)
  /\ ((0x1FE8 <= address <= 0x1FEF)%Z ->
      latch s' 1 = false /\ latch s' 0 = latch s 0)
  /\ _selected_banks s' = _selected_banks s
  /\ base s'
     = map_bank_chr 0x4 0x4 (chr_page (selected_bank s (selected_register s' 1)))
         (map_bank_chr 0x0 0x4
            (chr_page (selected_bank s (selected_register s' 0))) (base s))
  /\ forall i, (0 <= i < 4)%Z ->
       bank_at (_banks_ppu (base s')) i
       = chr_entry (base s)
           (uint16 (chr_page (selected_bank s (selected_register s' 0)) + i))
       /\ bank_at (_banks_ppu (base s')) (4 + i)
          = chr_entry (base s)
              (uint16 (chr_page (selected_bank s (selected_register s' 1)) + i)).
Proof.
  intros (Hb & Hl & Hsel) Ht s'.
  destruct (read_ppu_trigger open_bus address s Ht)
    as (k & v & E & C1 & C2 & C3 & C4).
  fold s' in E. set (t := set_latch k v s) in *.
  assert (Hreg : forall j, selected_register s' j = selected_register t j).
  { intros j. rewrite E. unfold selected_register.
    now rewrite !latch_update_banks. }
  assert (Hpp : length (_banks_ppu (base t)) = 16%nat) by apply Hb.
  assert (Hlatch : forall k' v', k = k' -> v = v' -> (k' < 2)%nat ->
            forall j, j <> k' -> latch s' k' = v' /\ latch s' j = latch s j).
  { intros k' v' <- <- Hk j Hj. rewrite E, !latch_update_banks. split.
    - apply latch_set_latch_eq. lia.
    - apply latch_set_latch_ne. congruence. }
  split; [intros Ha; destruct (C1 Ha); apply Hlatch; (assumption || lia) |].
  split; [intros Ha; destruct (C2 Ha); apply Hlatch; (assumption || lia) |].
  split; [intros Ha; destruct (C3 Ha); apply Hlatch; (assumption || lia) |].
  split; [intros Ha; destruct (C4 Ha); apply Hlatch; (assumption || lia) |].
  split; [rewrite E, update_banks_selected; reflexivity |].
  split; [rewrite !Hreg, E, update_banks_base; reflexivity |].
  intros i Hi. rewrite !Hreg, E. exact (update_banks_pages t i Hpp Hi).
Qed.

Lemma example_mmc2_valid_mmc : valid_mmc Examples.mmc2.
Proof. exact example_mmc2_valid. Qed.

Lemma mmc_latches_select_chr_witness :
  valid_mmc Examples.mmc2 /\ latch_trigger 0x0FD8
  /\ latch (snd (read_ppu 0 0x0FD8 Examples.mmc2)) 0 = true.
Proof.
  split; [exact example_mmc2_valid_mmc |].
  split; [left; reflexivity |].
  apply (mmc_latches_select_chr 0 0x0FD8 Examples.mmc2 example_mmc2_valid_mmc
           (or_introl eq_refl)).
  reflexivity.
Defined.

(** On the example cartridge, with 5 in register 0 and 7 in register 1:
    the read at 0x0FD8 returns a byte of CHR bank 7, which the pages
    showed before it, and the same read again a byte of CHR bank 5. *)
Example mmc_read_ppu_before_update_example :
  let s := write_cpu 0x08 0xC000 7 (write_cpu 0x08 0xB000 5 Examples.mmc2) in
  fst (read_ppu 0 0x0FD8 s) = 7%Z
  /\ fst (read_ppu 0 0x0FD8 (snd (read_ppu 0 0x0FD8 s))) = 5%Z.
Proof. vm_compute. split; reflexivity. Qed.

Lemma land_low_bits value n :
  (0 <= n)%Z -> (0 <= Z.land value (Z.ones n) < 2 ^ n)%Z.
Proof.
  intros Hn. rewrite Z.land_ones by assumption.
  apply Z.mod_pos_bound. now apply Z.pow_pos_nonneg.
Qed.

Lemma bit0_test value :
  negb (Z.land value 0x01 =? 0)%Z = Z.testbit value 0.
Proof.
  change 0x01%Z with (Z.ones 1). rewrite Z.land_ones by lia.
  change (2 ^ 1)%Z with 2%Z. rewrite <- Z.bit0_mod.
  now destruct (Z.testbit value 0).
Qed.

Lemma register_index address q :
  (0xB000 + 0x1000 * q <= address < 0xB000 + 0x1000 * (q + 1))%Z ->
  ((address - 0xB000) / 0x1000 = q)%Z.
Proof.
  intros H. symmetry.
  apply (Z.div_unique _ _ _ (address - 0xB000 - 0x1000 * q)); lia.
Qed.

(** The nametable a slot shows under horizontal and vertical mirroring. *)
Lemma set_mirroring_mode_slots (horizontal : bool) m (slot : Z) :
  length (_banks_ppu m) = 16%nat -> (0 <= slot < 4)%Z ->
  bank_at (_banks_ppu
             (set_mirroring_mode (if horizontal then HORIZONTAL else VERTICAL) m))
    (0x8 + slot)
  = ppu_ram_entry m (if horizontal then Z.shiftr slot 1 else Z.land slot 1).
Proof.
  intros Hlen Hslot. destruct m as [? ? ? ? ? ? ? ? ? ? ? banks].
  cbn [_banks_ppu] in Hlen.
  do 17 (destruct banks as [| ? banks]; simpl in Hlen; try discriminate Hlen).
  assert (Hs : (slot = 0 \/ slot = 1 \/ slot = 2 \/ slot = 3)%Z) by lia.
  destruct horizontal; destruct Hs as [-> | [-> | [-> | ->]]]; reflexivity.
Qed.

(** C7. In the MMC2/MMC4 mapper a CPU write at 0xA000-0xAFFF maps the
    window of [BANK_SIZE] pages at 0x8000 (page 0x20) to the PRG bank
    [value & 0xF], counted in units of [BANK_SIZE] pages; a write at
    0xB000-0xEFFF stores [value & 0x1F] into the CHR bank register
    0, 1, 2 or 3 its range of 0x1000 addresses selects and leaves the
    others; a write at 0xF000 or above sets horizontal mirroring when
    bit 0 of the value is 1 and vertical mirroring when it is 0. *)
Theorem mmc_write_cpu_registers (BANK_SIZE address value : Z) (s : MMC) :
  BANK_SIZE = 0x08%Z \/ BANK_SIZE = 0x10%Z -> valid_mmc s ->
  let s' := write_cpu BANK_SIZE address value s in
  ((0xA000 <= address <= 0xAFFF)%Z ->
     s' = set_base
            (map_bank_prg 0x20 BANK_SIZE
               (uint16 (Z.land value 0xF * BANK_SIZE)) (base s)) s
     /\ forall i, (0 <= i < BANK_SIZE)%Z ->
          bank_at (_banks_cpu (base s')) (0x20 + i)
          = prg_entry (Z.land value 0xF * BANK_SIZE + i))
  /\ ((0xB000 <= address <= 0xEFFF)%Z ->
      let k := Z.to_nat ((address - 0xB000) / 0x1000) in
      _selected_banks s' = <[k := Z.land value 0x1F]> (_selected_banks s)
      /\ selected_bank s' k = Z.land value 0x1F
      /\ forall j, j <> k -> selected_bank s' j = selected_bank s j)
  /\ ((0xF000 <= address)%Z ->
      let mode := if Z.testbit value 0 then HORIZONTAL else VERTICAL in
      s' = set_base (set_mirroring_mode mode (base s)) s
      /\ forall slot, (0 <= slot < 4)%Z ->
           bank_at (_banks_ppu (base s')) (0x8 + slot)
           = ppu_ram_entry (base s)
               (if Z.testbit value 0 then Z.shiftr slot 1 else Z.land slot 1)).
Proof.
  intros HBS (Hb & Hl & Hsel) s'.
  pose proof (land_low_bits value 4 ltac:(lia)) as H4.
  change (Z.ones 4) with 0xF%Z in H4. change (2 ^ 4)%Z with 16%Z in H4.
  split; [| split].
  - intros Ha. subst s'. unfold write_cpu.
    destruct (Z.ltb_spec address 0xA000); [lia |].
    destruct (Z.ltb_spec address 0xB000); [| lia].
    split; [reflexivity |]. intros i Hi. cbn [base set_base].
    apply bank_at_lookup. destruct Hb as (Hc & _).
    destruct HBS as [-> | ->]; rewrite map_bank_prg_lookup by lia;
      (case_decide; [| lia]);
      repeat match goal with
             | |- context [uint16 ?x] => rewrite (uint16_small x) by lia
             end;
      do 2 f_equal; lia.
  - intros Ha k. subst s'. unfold write_cpu.
    destruct (Z.ltb_spec address 0xA000); [lia |].
    destruct (Z.ltb_spec address 0xB000); [lia |].
    assert (Hk : forall n, (Z.of_nat n = (address - 0xB000) / 0x1000)%Z ->
              (n < 4)%nat ->
              _selected_banks (update_banks (set_selected_bank n (Z.land value 0x1F) s))
              = <[k := Z.land value 0x1F]> (_selected_banks s)
              /\ selected_bank
                   (update_banks (set_selected_bank n (Z.land value 0x1F) s)) k
                 = Z.land value 0x1F
              /\ forall j, j <> k ->
                   selected_bank
                     (update_banks (set_selected_bank n (Z.land value 0x1F) s)) j
                   = selected_bank s j).
    { intros n Hn Hn4. assert (k = n) as -> by (subst k; lia).
      unfold selected_bank. rewrite !update_banks_selected.
      cbn [set_selected_bank _selected_banks]. split; [reflexivity |]. split.
      - now rewrite list_lookup_insert_eq by lia.
      - intros j Hj.
        now rewrite list_lookup_insert_ne by congruence. }
    destruct (Z.ltb_spec address 0xC000);
      [apply (Hk 0%nat); [rewrite (register_index address 0) by lia |]; lia |].
    destruct (Z.ltb_spec address 0xD000);
      [apply (Hk 1%nat); [rewrite (register_index address 1) by lia |]; lia |].
    destruct (Z.ltb_spec address 0xE000);
      [apply (Hk 2%nat); [rewrite (register_index address 2) by lia |]; lia |].
    destruct (Z.ltb_spec address 0xF000); [| lia].
    apply (Hk 3%nat); [rewrite (register_index address 3) by lia |]; lia.
  - intros Ha mode. subst s' mode. unfold write_cpu.
    destruct (Z.ltb_spec address 0xA000); [lia |].
    destruct (Z.ltb_spec address 0xB000); [lia |].
    destruct (Z.ltb_spec address 0xC000); [lia |].
    destruct (Z.ltb_spec address 0xD000); [lia |].
    destruct (Z.ltb_spec address 0xE000); [lia |].
    destruct (Z.ltb_spec address 0xF000); [lia |].
    rewrite bit0_test. destruct Hb as (_ & Hp & _).
    destruct (Z.testbit value 0) eqn:Hbit; cbn [base set_base].
    + split; [reflexivity |]. intros slot Hslot.
      now apply (set_mirroring_mode_slots true).
    + split; [reflexivity |]. intros slot Hslot.
      now apply (set_mirroring_mode_slots false).
Qed.

Lemma mmc_write_cpu_registers_witness :
  (0x08 = 0x08 \/ 0x08 = 0x10)%Z /\ valid_mmc Examples.mmc2
  /\ selected_bank (write_cpu 0x08 0xB000 0xE5 Examples.mmc2) 0 = 5%Z.
Proof.
  split; [left; reflexivity |].
  split; [exact example_mmc2_valid_mmc |].
  apply (mmc_write_cpu_registers 0x08 0xB000 0xE5 Examples.mmc2
           (or_introl eq_refl) example_mmc2_valid_mmc).
  lia.
Defined.

End MMCFacts.

(** ** Bank entries stay within the memory *)

Section Bounds.
Import Mapper Banks MMC.

Lemma frame_limit m m' : frame m' = frame m -> limit m' = limit m.
Proof. unfold frame, limit. intros H. injection H as _ _ _ _ _ ->. reflexivity. Qed.

Lemma in_bounds_unmapped lim : in_bounds lim unmapped_bank.
Proof. intros H. discriminate H. Qed.

Lemma bank_at_in_bounds lim banks page :
  Forall (in_bounds lim) banks -> in_bounds lim (bank_at banks page).
Proof.
  intros Hall. unfold bank_at.
  destruct (banks !! Z.to_nat page) as [bank |] eqn:E; simpl.
  - exact (Forall_lookup_1 _ _ _ _ Hall E).
  - apply in_bounds_unmapped.
Qed.

Lemma shiftl_10 a : Z.shiftl a 10 = (a * 0x400)%Z.
Proof. now rewrite Z.shiftl_mul_pow2 by lia. Qed.

(** The four mapping helpers leave the frame and the other table alone. *)
Lemma map_bank_chr_keeps page size address m :
  frame (map_bank_chr page size address m) = frame m
  /\ _banks_cpu (map_bank_chr page size address m) = _banks_cpu m.
Proof.
  unfold map_bank_chr. split.
  - now apply (map_pages_keeps frame).
  - now apply (map_pages_keeps _banks_cpu).
Qed.

Lemma map_bank_prg_keeps page size address m :
  frame (map_bank_prg page size address m) = frame m
  /\ _banks_ppu (map_bank_prg page size address m) = _banks_ppu m.
Proof.
  unfold map_bank_prg. split.
  - now apply (map_pages_keeps frame).
  - now apply (map_pages_keeps _banks_ppu).
Qed.

Lemma map_bank_cpu_ram_keeps page size address ro m :
  frame (map_bank_cpu_ram page size address ro m) = frame m
  /\ _banks_ppu (map_bank_cpu_ram page size address ro m) = _banks_ppu m.
Proof.
  unfold map_bank_cpu_ram. split.
  - now apply (map_pages_keeps frame).
  - now apply (map_pages_keeps _banks_ppu).
Qed.

Lemma map_bank_chr_bounds page size address m :
  banks_in_bounds m ->
  (0 <= _size_prg m)%Z -> (0 <= address)%Z -> (0 <= size)%Z ->
  (address + size <= 0x10000)%Z ->
  (_size_prg m + (address + size) * 0x400 <= limit m)%Z ->
  banks_in_bounds (map_bank_chr page size address m).
Proof.
  intros [Hc Hp] H0 Ha Hs Hw Hl.
  destruct (map_bank_chr_keeps page size address m) as [Hf Hcpu].
  unfold banks_in_bounds. rewrite Hcpu, (frame_limit _ _ Hf).
  split; [exact Hc |]. unfold map_bank_chr.
  apply (map_pages_Forall _banks_ppu chr_entry map_bank_chr1);
    [reflexivity | reflexivity | exact Hp |].
  intros i Hi _. unfold chr_entry; cbn [offset].
  rewrite uint16_small, shiftl_10 by lia. lia.
Qed.

Lemma map_bank_prg_bounds page size address m :
  banks_in_bounds m ->
  (0 <= address)%Z -> (0 <= size)%Z -> (address + size <= 0x10000)%Z ->
  ((address + size) * 0x400 <= limit m)%Z ->
  banks_in_bounds (map_bank_prg page size address m).
Proof.
  intros [Hc Hp] Ha Hs Hw Hl.
  destruct (map_bank_prg_keeps page size address m) as [Hf Hppu].
  unfold banks_in_bounds. rewrite Hppu, (frame_limit _ _ Hf).
  split; [| exact Hp]. unfold map_bank_prg.
  apply (map_pages_Forall _banks_cpu (fun _ => prg_entry) map_bank_prg1);
    [reflexivity | reflexivity | exact Hc |].
  intros i Hi _. unfold prg_entry; cbn [offset].
  rewrite uint16_small, shiftl_10 by lia. lia.
Qed.

Lemma map_bank_cpu_ram_bounds page size address ro m :
  banks_in_bounds m ->
  (0 <= _size_prg m + _size_chr m)%Z ->
  (0 <= address)%Z -> (0 <= size)%Z -> (address + size <= 0x10000)%Z ->
  (_size_prg m + _size_chr m + (address + size) * 0x400 <= limit m)%Z ->
  banks_in_bounds (map_bank_cpu_ram page size address ro m).
Proof.
  intros [Hc Hp] H0 Ha Hs Hw Hl.
  destruct (map_bank_cpu_ram_keeps page size address ro m) as [Hf Hppu].
  unfold banks_in_bounds. rewrite Hppu, (frame_limit _ _ Hf).
  split; [| exact Hp]. unfold map_bank_cpu_ram.
  apply (map_pages_Forall _banks_cpu
           (fun m a => mkBank (_size_prg m + _size_chr m + Z.shiftl a 10) ro true)
           (map_bank_cpu_ram1 ro));
    [reflexivity | reflexivity | exact Hc |].
  intros i Hi _. cbn [offset].
  rewrite uint16_small, shiftl_10 by lia. lia.
Qed.

Lemma nametable_of_range mode slot nt :
  nametable_of mode slot = Some nt -> (0 <= slot < 4)%Z -> (0 <= nt <= 1)%Z.
Proof.
  intros H Hslot.
  assert (Hs : (slot = 0 \/ slot = 1 \/ slot = 2 \/ slot = 3)%Z) by lia.
  destruct Hs as [-> | [-> | [-> | ->]]]; destruct mode; vm_compute in H;
    try discriminate H; injection H as <-; lia.
Qed.

Lemma map_nametable_bounds mode slot m :
  (0 <= slot < 4)%Z ->
  (0 <= _size_prg m + _size_chr m + _size_cpu_ram m)%Z ->
  (_size_prg m + _size_chr m + _size_cpu_ram m + 2 * 0x400 <= limit m)%Z ->
  banks_in_bounds m ->
  banks_in_bounds (map_nametable mode slot m)
  /\ frame (map_nametable mode slot m) = frame m.
Proof.
  intros Hslot H0 Hl [Hc Hp]. unfold map_nametable.
  destruct (nametable_of mode slot) as [nt |] eqn:E; [| now split].
  pose proof (nametable_of_range _ _ _ E Hslot) as Hnt.
  split; [| reflexivity]. split; [exact Hc |].
  cbn [map_bank_ppu_ram1 set_banks_ppu _banks_ppu].
  apply Forall_insert; [exact Hp |].
  intros _. cbn [offset]. rewrite shiftl_10.
  change (limit (map_bank_ppu_ram1 false (8 + slot) nt m)) with (limit m). lia.
Qed.

Lemma mirror_ppu_banks_bounds count : forall index page mirror m,
  banks_in_bounds m ->
  banks_in_bounds (mirror_ppu_banks_from count index page mirror m)
  /\ frame (mirror_ppu_banks_from count index page mirror m) = frame m.
Proof.
  induction count as [| count IH]; intros index page mirror m [Hc Hp].
  - now split.
  - cbn [mirror_ppu_banks_from].
    destruct (IH (index + 1)%Z page mirror
                (set_banks_ppu
                   (<[Z.to_nat (uint8 (mirror + index)) :=
                        bank_at (_banks_ppu m) (uint8 (page + index))]>
                      (_banks_ppu m)) m)) as [Hb Hf].
    { split; [exact Hc |]. cbn [set_banks_ppu _banks_ppu].
      apply Forall_insert; [exact Hp |]. now apply bank_at_in_bounds. }
    split; [exact Hb | now rewrite Hf].
Qed.

Lemma set_mirroring_mode_bounds mode m :
  (0 <= _size_prg m + _size_chr m + _size_cpu_ram m)%Z ->
  (_size_prg m + _size_chr m + _size_cpu_ram m + 2 * 0x400 <= limit m)%Z ->
  banks_in_bounds m ->
  banks_in_bounds (set_mirroring_mode mode m)
  /\ frame (set_mirroring_mode mode m) = frame m.
Proof.
  intros H0 Hl Hb. unfold set_mirroring_mode, mirror_ppu_banks.
  destruct (map_nametable_bounds mode 0 m ltac:(lia) H0 Hl Hb) as [B0 F0].
  set (m0 := map_nametable mode 0 m) in *.
  assert (E0 : frame m0 = frame m) by exact F0.
  unfold frame in E0. injection E0 as P0 C0 R0 U0 _ M0.
  destruct (map_nametable_bounds mode 1 m0) as [B1 F1];
    [lia | lia | unfold limit in *; lia | exact B0 |].
  set (m1 := map_nametable mode 1 m0) in *.
  assert (E1 : frame m1 = frame m0) by exact F1.
  unfold frame in E1. injection E1 as P1 C1 R1 U1 _ M1.
  destruct (map_nametable_bounds mode 2 m1) as [B2 F2];
    [lia | lia | unfold limit in *; lia | exact B1 |].
  set (m2 := map_nametable mode 2 m1) in *.
  assert (E2 : frame m2 = frame m1) by exact F2.
  unfold frame in E2. injection E2 as P2 C2 R2 U2 _ M2.
  destruct (map_nametable_bounds mode 3 m2) as [B3 F3];
    [lia | lia | unfold limit in *; lia | exact B2 |].
  destruct (mirror_ppu_banks_bounds (Z.to_nat 0x4) 0 0x8 0xC
              (map_nametable mode 3 m2) B3) as [B4 F4].
  split; [exact B4 |]. now rewrite F4, F3, F2, F1, F0.
Qed.

Lemma write_bank_keeps banks address value m :
  frame (write_bank banks address value m) = frame m
  /\ _banks_cpu (write_bank banks address value m) = _banks_cpu m
  /\ _banks_ppu (write_bank banks address value m) = _banks_ppu m.
Proof.
  unfold write_bank.
  destruct (mapped _ && negb (read_only _)); [| now repeat split].
  unfold frame; cbn [set_memory _size_prg _size_chr _size_cpu_ram _size_ppu_ram
                     _read_only_chr _memory _banks_cpu _banks_ppu].
  now rewrite length_insert.
Qed.

Lemma frame_eq m m' :
  frame m' = frame m ->
  _size_prg m' = _size_prg m /\ _size_chr m' = _size_chr m
  /\ _size_cpu_ram m' = _size_cpu_ram m /\ _size_ppu_ram m' = _size_ppu_ram m
  /\ limit m' = limit m.
Proof.
  intros H. pose proof (frame_limit _ _ H) as L.
  unfold frame in H. injection H as ? ? ? ? ? ?. now repeat split.
Qed.

Ltac frame_facts H := destruct (frame_eq _ _ H) as (? & ? & ? & ? & ?).

Lemma invariant_frame BANK_SIZE s s' :
  frame (base s') = frame (base s) ->
  _selected_banks s' = _selected_banks s ->
  banks_in_bounds (base s') ->
  mmc_invariant BANK_SIZE s -> mmc_invariant BANK_SIZE s'.
Proof.
  intros Hf Hsel Hb ((S1 & S2 & S3 & S4 & S5) & Hr & _). frame_facts Hf.
  unfold mmc_invariant. rewrite Hsel.
  split; [lia |]. split; [exact Hr | exact Hb].
Qed.

Lemma selected_bank_range s k :
  Forall (fun x => 0 <= x <= 0x1F)%Z (_selected_banks s) ->
  (0 <= selected_bank s k <= 0x1F)%Z.
Proof.
  intros Hall. unfold selected_bank.
  destruct (_selected_banks s !! k) as [x |] eqn:E; simpl.
  - exact (Forall_lookup_1 _ _ _ _ Hall E).
  - lia.
Qed.

Lemma chr_page_range x : (0 <= x <= 0x1F)%Z -> chr_page x = (4 * x)%Z.
Proof.
  intros H. unfold chr_page. rewrite Z.shiftl_mul_pow2 by lia.
  change (2 ^ 2)%Z with 4%Z. rewrite uint16_small by lia. lia.
Qed.

Lemma update_banks_invariant BANK_SIZE t :
  mmc_invariant BANK_SIZE t -> mmc_invariant BANK_SIZE (update_banks t).
Proof.
  intros Hinv. pose proof Hinv as ((H1 & H2 & H3 & H4 & H5) & Hr & Hb).
  pose proof (selected_bank_range t (selected_register t 0) Hr) as Ra.
  pose proof (selected_bank_range t (selected_register t 1) Hr) as Rb.
  set (m1 := map_bank_chr 0x0 0x4
               (chr_page (selected_bank t (selected_register t 0))) (base t)).
  destruct (map_bank_chr_keeps 0x0 0x4
              (chr_page (selected_bank t (selected_register t 0))) (base t))
    as [F1 _]. fold m1 in F1.
  destruct (map_bank_chr_keeps 0x4 0x4
              (chr_page (selected_bank t (selected_register t 1))) m1)
    as [F2 _].
  assert (B1 : banks_in_bounds m1).
  { apply map_bank_chr_bounds; rewrite ?chr_page_range by assumption;
      (assumption || lia). }
  apply (invariant_frame BANK_SIZE t); [| apply update_banks_selected | | exact Hinv];
    rewrite update_banks_base; fold m1.
  - now rewrite F2.
  - frame_facts F1.
    apply map_bank_chr_bounds; rewrite ?chr_page_range by assumption;
      (assumption || lia).
Qed.

Lemma set_latch_invariant BANK_SIZE k v s :
  mmc_invariant BANK_SIZE s -> mmc_invariant BANK_SIZE (set_latch k v s).
Proof. intros H. exact H. Qed.

Lemma set_selected_bank_invariant BANK_SIZE k value s :
  mmc_invariant BANK_SIZE s ->
  mmc_invariant BANK_SIZE (set_selected_bank k (Z.land value 0x1F) s).
Proof.
  intros (Hsz & Hr & Hb). split; [exact Hsz |]. split; [| exact Hb].
  cbn [set_selected_bank _selected_banks]. apply Forall_insert; [exact Hr |].
  pose proof (land_low_bits value 5 ltac:(lia)) as H5.
  change (Z.ones 5) with 0x1F%Z in H5. change (2 ^ 5)%Z with 32%Z in H5. lia.
Qed.

Lemma write_cpu_invariant BANK_SIZE address value s :
  BANK_SIZE = 0x08%Z \/ BANK_SIZE = 0x10%Z ->
  mmc_invariant BANK_SIZE s ->
  mmc_invariant BANK_SIZE (write_cpu BANK_SIZE address value s).
Proof.
  intros HBS Hinv. pose proof Hinv as ((H1 & H2 & H3 & H4 & H5) & Hr & Hb).
  unfold write_cpu.
  destruct (address <? 0xA000)%Z.
  { destruct (write_bank_keeps (_banks_cpu (base s)) address value (base s))
      as (Hf & Hc & Hp).
    apply (invariant_frame BANK_SIZE s);
      [exact Hf | reflexivity | | exact Hinv].
    cbn [set_base base]. unfold Mapper.write_cpu, banks_in_bounds.
    now rewrite Hc, Hp, (frame_limit _ _ Hf). }
  destruct (address <? 0xB000)%Z.
  { pose proof (land_low_bits value 4 ltac:(lia)) as H4b.
    change (Z.ones 4) with 0xF%Z in H4b. change (2 ^ 4)%Z with 16%Z in H4b.
    apply (invariant_frame BANK_SIZE s);
      [apply map_bank_prg_keeps | reflexivity | | exact Hinv].
    cbn [set_base base].
    destruct HBS as [-> | ->]; rewrite uint16_small by lia;
      apply map_bank_prg_bounds; (assumption || lia). }
  destruct (address <? 0xC000)%Z;
    [now apply update_banks_invariant, set_selected_bank_invariant |].
  destruct (address <? 0xD000)%Z;
    [now apply update_banks_invariant, set_selected_bank_invariant |].
  destruct (address <? 0xE000)%Z;
    [now apply update_banks_invariant, set_selected_bank_invariant |].
  destruct (address <? 0xF000)%Z;
    [now apply update_banks_invariant, set_selected_bank_invariant |].
  destruct (negb (Z.land value 1 =? 0)%Z).
  - destruct (set_mirroring_mode_bounds HORIZONTAL (base s)) as [B F];
      [lia | lia | exact Hb |].
    now apply (invariant_frame BANK_SIZE s).
  - destruct (set_mirroring_mode_bounds VERTICAL (base s)) as [B F];
      [lia | lia | exact Hb |].
    now apply (invariant_frame BANK_SIZE s).
Qed.

Lemma read_ppu_invariant BANK_SIZE open_bus address s :
  mmc_invariant BANK_SIZE s ->
  mmc_invariant BANK_SIZE (snd (read_ppu open_bus address s)).
Proof.
  intros Hinv. rewrite read_ppu_state.
  repeat match goal with
         | |- context [if ?c then _ else _] => destruct c
         end;
    try assumption; now apply update_banks_invariant, set_latch_invariant.
Qed.

Lemma write_ppu_invariant BANK_SIZE address value s :
  mmc_invariant BANK_SIZE s ->
  mmc_invariant BANK_SIZE (MMC.write_ppu address value s).
Proof.
  intros Hinv. pose proof Hinv as (_ & _ & Hb).
  destruct (write_bank_keeps (_banks_ppu (base s)) address value (base s))
    as (Hf & Hc & Hp).
  apply (invariant_frame BANK_SIZE s);
    [exact Hf | reflexivity | | exact Hinv].
  cbn [MMC.write_ppu set_base base]. unfold Mapper.write_ppu, banks_in_bounds.
  now rewrite Hc, Hp, (frame_limit _ _ Hf).
Qed.

Lemma access_invariant BANK_SIZE open_bus s a :
  BANK_SIZE = 0x08%Z \/ BANK_SIZE = 0x10%Z ->
  mmc_invariant BANK_SIZE s ->
  mmc_invariant BANK_SIZE (access BANK_SIZE open_bus s a).
Proof.
  intros HBS Hinv. destruct a; cbn [access].
  - now apply write_cpu_invariant.
  - now apply write_ppu_invariant.
  - exact Hinv.
  - now apply read_ppu_invariant.
  - exact Hinv.
Qed.

Lemma run_invariant BANK_SIZE open_bus accesses : forall s,
  BANK_SIZE = 0x08%Z \/ BANK_SIZE = 0x10%Z ->
  mmc_invariant BANK_SIZE s ->
  mmc_invariant BANK_SIZE (run BANK_SIZE open_bus accesses s).
Proof.
  induction accesses as [| a accesses IH]; intros s HBS Hinv.
  - exact Hinv.
  - unfold run. cbn [fold_left]. apply IH; [exact HBS |].
    now apply access_invariant.
Qed.

Lemma Mapper_new_invariant metadata mode :
  (0 <= size_prg metadata)%Z -> (0 <= size_chr metadata)%Z ->
  Z.of_nat (length (memory_prg metadata)) = (size_prg metadata * 0x400)%Z ->
  Z.of_nat (length (memory_chr metadata)) = (size_chr metadata * 0x400)%Z ->
  let m := Mapper_new metadata mode 0x8 0x2 in
  banks_in_bounds m
  /\ _banks_prg m = size_prg metadata
  /\ _size_prg m = (size_prg metadata * 0x400)%Z
  /\ _size_chr m = (size_chr metadata * 0x400)%Z
  /\ _size_cpu_ram m = (8 * 0x400)%Z
  /\ _size_ppu_ram m = (2 * 0x400)%Z
  /\ limit m = ((size_prg metadata + size_chr metadata + 10) * 0x400)%Z.
Proof.
  intros Hp Hc Lp Lc m. unfold Mapper_new in m.
  match (eval unfold m in m) with
  | set_mirroring_mode _ ?r => set (raw := r) in *
  end.
  assert (Hlim : limit raw = ((size_prg metadata + size_chr metadata + 10) * 0x400)%Z).
  { unfold limit, raw; cbn [_memory].
    rewrite !length_app, !length_take, !length_replicate, !shiftl_10. lia. }
  assert (Hraw : banks_in_bounds raw).
  { split; apply Forall_replicate, in_bounds_unmapped. }
  destruct (set_mirroring_mode_bounds mode raw) as [B F].
  { cbn [raw _size_prg _size_chr _size_cpu_ram]. rewrite !shiftl_10. lia. }
  { rewrite Hlim. cbn [raw _size_prg _size_chr _size_cpu_ram].
    rewrite !shiftl_10. lia. }
  { exact Hraw. }
  fold m in B, F. frame_facts F.
  split; [exact B |]. split; [subst m; destruct mode; reflexivity |].
  cbn [raw _size_prg _size_chr _size_cpu_ram _size_ppu_ram] in *.
  rewrite !shiftl_10 in *. repeat split; lia.
Qed.

Lemma MMC_new_invariant BANK_SIZE metadata mode :
  BANK_SIZE = 0x08%Z \/ BANK_SIZE = 0x10%Z ->
  well_sized BANK_SIZE metadata ->
  mmc_invariant BANK_SIZE (MMC_new BANK_SIZE metadata mode).
Proof.
  intros HBS ((W1 & W2) & (W3 & W4) & W5 & W6).
  destruct (Mapper_new_invariant metadata mode) as (B0 & P0 & S1 & S2 & S3 & S4 & L0);
    try assumption; try lia.
  unfold MMC_new. set (m0 := Mapper_new metadata mode 0x8 0x2) in *.
  set (m1 := map_bank_chr 0x0 0x8 0x0 m0).
  destruct (map_bank_chr_keeps 0x0 0x8 0x0 m0) as [F1 _]. fold m1 in F1.
  assert (B1 : banks_in_bounds m1)
    by (apply map_bank_chr_bounds; (assumption || lia)).
  frame_facts F1.
  set (m2 := map_bank_prg 0x20 BANK_SIZE 0x0 m1).
  destruct (map_bank_prg_keeps 0x20 BANK_SIZE 0x0 m1) as [F2 _]. fold m2 in F2.
  assert (B2 : banks_in_bounds m2)
    by (apply map_bank_prg_bounds; (assumption || lia)).
  frame_facts F2.
  assert (P2 : _banks_prg m2 = size_prg metadata).
  { rewrite <- P0. unfold m2, map_bank_prg, m1, map_bank_chr.
    now rewrite !(map_pages_keeps _banks_prg). }
  rewrite P2.
  set (m3 := map_bank_prg (uint8 (0x20 + BANK_SIZE)) (uint8 (0x20 - BANK_SIZE))
               (uint16 (size_prg metadata - 0x20 + BANK_SIZE)) m2).
  destruct (map_bank_prg_keeps (uint8 (0x20 + BANK_SIZE)) (uint8 (0x20 - BANK_SIZE))
              (uint16 (size_prg metadata - 0x20 + BANK_SIZE)) m2) as [F3 _].
  fold m3 in F3.
  assert (B3 : banks_in_bounds m3).
  { unfold m3. rewrite (uint8_small (0x20 - BANK_SIZE)), uint16_small by lia.
    apply map_bank_prg_bounds; (assumption || lia). }
  frame_facts F3.
  set (m4 := map_bank_cpu_ram 0x18 0x8 0x0 true m3).
  destruct (map_bank_cpu_ram_keeps 0x18 0x8 0x0 true m3) as [F4 _]. fold m4 in F4.
  assert (B4 : banks_in_bounds m4)
    by (apply map_bank_cpu_ram_bounds; (assumption || lia)).
  frame_facts F4.
  split; [cbn [base]; lia |]. split; [| exact B4].
  cbn [_selected_banks]. repeat constructor; lia.
Qed.

(** X15. For the MMC2/MMC4 mapper on a ROM that holds every bank its
    registers can select (16 PRG banks of [BANK_SIZE] pages and 32 CHR
    banks of 4 pages), after the construction and any sequence of CPU
    writes, PPU writes, CPU reads, PPU reads and ticks, every mapped entry
    of the CPU and of the PPU bank table satisfies
    [offset + 0x400 <= length of the mapper memory]: the masks [& 0xF] and
    [& 0x1F] of [write_cpu] keep every bank number within such a ROM. *)
Theorem mmc_banks_in_bounds (BANK_SIZE open_bus : Z) (metadata : ParsedMemory)
    (mode : MirroringMode) (accesses : list Access) :
  BANK_SIZE = 0x08%Z \/ BANK_SIZE = 0x10%Z ->
  well_sized BANK_SIZE metadata ->
  banks_in_bounds
    (base (run BANK_SIZE open_bus accesses (MMC_new BANK_SIZE metadata mode))).
Proof.
  intros HBS Hw.
  now apply (run_invariant BANK_SIZE open_bus accesses), MMC_new_invariant.
Qed.

Lemma example_rom_well_sized : well_sized 0x08 Examples.rom.
Proof.
  unfold well_sized.
  split; [| split; [| split]]; vm_compute;
    first [reflexivity | split; [discriminate | reflexivity]].
Qed.

Lemma mmc_banks_in_bounds_witness :
  (0x08 = 0x08 \/ 0x08 = 0x10)%Z /\ well_sized 0x08 Examples.rom
  /\ banks_in_bounds
       (base (run 0x08 0 [WriteCpu 0xC000 0x1F; ReadPpu 0x0FD8]
                (MMC_new 0x08 Examples.rom VERTICAL))).
Proof.
  split; [left; reflexivity |]. split; [exact example_rom_well_sized |].
  apply mmc_banks_in_bounds.
  - left; reflexivity.
  - exact example_rom_well_sized.
Defined.

End Bounds.

(** ** The Python wrapper *)

Section WrapperFacts.
Import Wrapper.
Context {Machine : Type} {core : Core Machine}.

Lemma save_keeps (w : NesWrapper Machine) :
  _frame (fst (save w)) = _frame w
  /\ _save_state_size (fst (save w)) = _save_state_size w
  /\ _crashed (fst (save w)) = _crashed w
  /\ controller (fst (save w)) = controller w.
Proof.
  unfold save. destruct (to_int (_save_state_size w) <? 0)%Z;
    [now repeat split |].
  now destruct (nes_save _ (_nes w)).
Qed.

Lemma load_keeps (buffer : Array) (w : NesWrapper Machine) :
  _frame (fst (load buffer w)) = _frame w
  /\ _save_state_size (fst (load buffer w)) = _save_state_size w
  /\ controller (fst (load buffer w)) = controller w.
Proof. unfold load. now destruct (writeable buffer). Qed.

Lemma call_frame (c : Call) (w : NesWrapper Machine) :
  _frame (fst (call c w)) = _frame w.
Proof.
  destruct c; cbn [call]; try reflexivity.
  - unfold read. now destruct (nes_read address (_nes w)).
  - unfold step. now destruct (nes_step (controller w) frames (_nes w)).
  - apply save_keeps.
  - apply load_keeps.
Qed.

Lemma calls_frame (cs : list Call) : forall w : NesWrapper Machine,
  _frame (calls cs w) = _frame w.
Proof.
  induction cs as [| c cs IH]; intros w; cbn [calls]; [reflexivity |].
  now rewrite IH, call_frame.
Qed.

Lemma clear_writeable_read_only (a : Array) :
  writeable (clear_writeable a) = false.
Proof.
  unfold writeable, clear_writeable; cbn [flags].
  rewrite <- Z.land_assoc, (Z.land_comm (Z.lnot _)), Z.land_lnot_diag, Z.land_0_r.
  reflexivity.
Qed.

(** C3. On every handle, that is after the constructor and any sequence
    of calls, [step] returns an array of shape 240 x 256 x 3 over the
    frame buffer of the emulator, with the strides 768, 3, 1 of a
    row-major array of bytes (three consecutive bytes per pixel), whose
    WRITEABLE flag is clear, so that numpy rejects a store through it. *)
Theorem step_frame_view (path_rom : list Z) (cs : list Call) (frames : Z) :
  let w := calls cs (NesWrapper_new path_rom) in
  let frame := snd (step frames w) in
  shape frame = [240; 256; 3]%Z
  /\ strides frame = [768; 3; 1]%Z
  /\ strides frame = row_major_strides (shape frame)
  /\ data frame = FrameBufferView
  /\ writeable frame = false.
Proof.
  intros w frame.
  assert (E : frame = _frame (NesWrapper_new path_rom)).
  { subst frame w. unfold step.
    destruct (nes_step _ frames _); cbn [snd]. apply calls_frame. }
  rewrite E. unfold NesWrapper_new; cbn [_frame].
  repeat split. apply clear_writeable_read_only.
Qed.

(** C4. [get_all_ram] returns an array of exactly 2048 bytes that points
    at the RAM of the emulator; after a CPU write of [value] at an address
    below 0x0800 the array shows [value] at that index, whether it was
    obtained after the write or before it. *)
Theorem ram_view_reflects_write (w : NesWrapper Machine) (address value : Z) :
  (0 <= address < 0x0800)%Z ->
  length (_memory_cpu (_nes w)) = 2048%nat ->
  let w' := write address value w in
  shape (read_all_ram w') = [2048%Z]
  /\ strides (read_all_ram w') = [1%Z]
  /\ data (read_all_ram w') = RamView
  /\ array_get w' (read_all_ram w') address = Some value
  /\ array_get w' (read_all_ram w) address = Some value.
Proof.
  intros Ha Hlen w'.
  assert (E : _memory_cpu (_nes w') !! Z.to_nat address = Some value).
  { subst w'. unfold write, nes_write; cbn [_nes _memory_cpu].
    destruct (Z.ltb_spec address 0x2000); [| lia].
    change 0x7FF%Z with (Z.ones 11). rewrite Z.land_ones by lia.
    rewrite Z.mod_small by (change (2 ^ 11)%Z with 2048%Z; lia).
    apply list_lookup_insert_eq. lia. }
  repeat split; exact E.
Qed.




Lemma step_crashed (frames : Z) (w : NesWrapper Machine) :
  _crashed (fst (step frames w))
  = _crashed w || fst (nes_step (controller w) frames (_nes w)).
Proof.
  unfold step. now destruct (nes_step (controller w) frames (_nes w)).
Qed.

Lemma steps_keep_crashed (frames : list Z) : forall w : NesWrapper Machine,
  has_crashed w = true ->
  has_crashed (calls (map CallStep frames) w) = true.
Proof.
  induction frames as [| f frames IH]; intros w Hw; cbn [map calls].
  - exact Hw.
  - apply IH. cbn [call]. unfold has_crashed in *.
    pose proof (step_crashed f w) as E.
    destruct (step f w) as [w' frame]; cbn [fst] in *.
    now rewrite E, Hw.
Qed.

(** C5. When the emulator reports a crash during a [step] (a KIL opcode
    has executed), [has_crashed] is true after that call; once it is true
    it stays true through any sequence of [step] calls; and the only calls
    after which it is false again are [reset] and [load]: [reset] clears
    it, and so does a [load] that returns, while a [load] that raises
    leaves it as it was. *)
Theorem crash_flag_latched :
  (forall (w : NesWrapper Machine) frames,
     fst (nes_step (controller w) frames (_nes w)) = true ->
     has_crashed (fst (step frames w)) = true)
  /\ (forall (w : NesWrapper Machine) (frames : list Z),
        has_crashed w = true ->
        has_crashed (calls (map CallStep frames) w) = true)
  /\ (forall (w : NesWrapper Machine) (c : Call),
        has_crashed w = true -> has_crashed (fst (call c w)) = false ->
        c = CallReset \/ exists buffer, c = CallLoad buffer)
  /\ (forall w : NesWrapper Machine, has_crashed (reset w) = false)
  /\ (forall (w : NesWrapper Machine) buffer,
        has_crashed (fst (load buffer w))
        = if writeable buffer then false else has_crashed w).
Proof.
  split; [| split; [| split; [| split]]].
  - intros w frames H. unfold has_crashed. rewrite step_crashed, H.
    apply orb_true_r.
  - intros w frames. apply steps_keep_crashed.
  - intros w c Hw Hc. unfold has_crashed in *.
    destruct c; cbn [call fst] in Hc;
      try (left; reflexivity); try (right; eexists; reflexivity);
      exfalso.
    + cbn [write _crashed] in Hc. congruence.
    + unfold read in Hc. destruct (nes_read address (_nes w)).
      cbn [fst _crashed] in Hc. congruence.
    + congruence.
    + pose proof (step_crashed frames w) as E.
      destruct (step frames w) as [w' frame]; cbn [fst] in *.
      rewrite E, Hw in Hc. discriminate Hc.
    + destruct (save_keeps w) as (_ & _ & E & _). congruence.
    + cbn [set_controller _crashed] in Hc. congruence.
  - reflexivity.
  - intros w buffer. unfold load. now destruct (writeable buffer).
Qed.

End WrapperFacts.

Section WrapperExamples.
Import Wrapper.
#[local] Existing Instance Examples.ram_core.

Lemma crashed_handle_has_crashed : has_crashed Examples.crashed_handle = true.
Proof. vm_compute. reflexivity. Qed.

Lemma ram_view_reflects_write_witness :
  (0 <= 0x10 < 0x0800)%Z
  /\ length (_memory_cpu (_nes Examples.crashed_handle)) = 2048%nat
  /\ array_get (write 0x10 0x7F Examples.crashed_handle)
       (read_all_ram Examples.crashed_handle) 0x10
     = Some 0x7F%Z.
Proof.
  split; [lia |]. split; [vm_compute; reflexivity |].
  apply (ram_view_reflects_write Examples.crashed_handle 0x10 0x7F).
  - lia.
  - vm_compute; reflexivity.
Defined.

Lemma crash_flag_latched_witness :
  has_crashed Examples.crashed_handle = true
  /\ has_crashed
       (calls (map CallStep [1; 60; 1]%Z) Examples.crashed_handle) = true.
Proof.
  split; [exact crashed_handle_has_crashed |].
  apply (crash_flag_latched (core := Examples.ram_core)).
  exact crashed_handle_has_crashed.
Defined.



End WrapperExamples.

(** * Further properties *)

(** ** What a load leaves *)

Section RestoreFacts.
Import Dump Mapper Layout Restore.

Lemma le_value_le_bytes_small width : forall v,
  fits_uint width v -> le_value (le_bytes width v) = v.
Proof.
  unfold fits_uint.
  induction width as [| w IH]; intros v Hv.
  - simpl in *. lia.
  - cbn [le_bytes le_value]. rewrite IH.
    + pose proof (Z.div_mod v 256). lia.
    + rewrite Nat2Z.inj_succ, Z.pow_succ_r in Hv by lia.
      split; [apply Z.div_pos; lia | apply Z.div_lt_upper_bound; lia].
Qed.

Lemma dump_uint_reads width v0 v :
  fits_uint width v -> Absorbs (dump_uint width READ v0) v (le_bytes width v).
Proof.
  intros Hv b rest. unfold dump_uint.
  rewrite dump_field_read by apply le_bytes_length.
  now rewrite le_value_le_bytes_small.
Qed.

Lemma dump_bool_reads v0 v : Absorbs (dump_bool READ v0) v (bool_byte v).
Proof.
  intros b rest. unfold dump_bool. rewrite dump_field_read by reflexivity.
  now destruct v.
Qed.

Lemma dump_array_reads {T} (walk : DumpOperation -> T -> M T) layout
    (P : T -> Prop) :
  (forall x0 x, P x -> Absorbs (walk READ x0) x (layout x)) ->
  forall a0 a, Forall P a -> length a0 = length a ->
    Absorbs (dump_array walk READ a0) a (layout_array layout a).
Proof.
  intros Hx a0. induction a0 as [| x0 a0 IH]; intros [| x a] Hall Hlen;
    try discriminate Hlen.
  - apply absorbs_ret.
  - apply Forall_cons in Hall as [Hp Hall]. injection Hlen as Hlen.
    unfold layout_array. cbn [map concat dump_array].
    eapply absorbs_bind; [apply Hx; exact Hp |].
    eapply absorbs_to.
    + eapply absorbs_bind; [apply IH; eassumption | apply absorbs_ret].
    + now rewrite app_nil_r.
Qed.

Lemma MemoryBank_dump_reads b0 bank :
  fits_size_t bank -> Absorbs (MemoryBank_dump READ b0) bank (layout_bank bank).
Proof.
  intros Hb. destruct bank as [o r m]. unfold fits_size_t in Hb.
  cbn [offset] in Hb. unfold MemoryBank_dump, layout_bank.
  cbn [offset read_only mapped].
  eapply absorbs_to.
  - eapply absorbs_bind; [apply (dump_uint_reads sizeof_size_t _ o); exact Hb |].
    eapply absorbs_bind; [apply dump_bool_reads |].
    eapply absorbs_bind; [apply dump_bool_reads |].
    apply absorbs_ret.
  - now rewrite app_nil_r.
Qed.

Lemma dump_banks_reads n banks0 banks :
  length banks0 = n -> length banks = n -> Forall fits_size_t banks ->
  Absorbs (dump_banks READ n 0 banks0) banks (layout_array layout_bank banks).
Proof.
  intros Hn0 Hn Hall b rest. rewrite dump_banks_array by (simpl; lia).
  rewrite drop_0, take_ge by lia.
  rewrite (dump_array_reads MemoryBank_dump layout_bank fits_size_t
             MemoryBank_dump_reads banks0 banks Hall) by congruence.
  rewrite drop_ge by (simpl; lia). now rewrite app_nil_r.
Qed.

Lemma region_split s n k mem :
  region s (n + k) mem = region s n mem ++ region (s + n) k mem.
Proof. unfold region. now rewrite <- drop_drop, take_take_drop. Qed.

Lemma region_whole mem : region 0 (length mem) mem = mem.
Proof. unfold region. rewrite drop_0. now apply take_ge. Qed.

Lemma region_four s1 n1 n2 n3 mem :
  length mem = (s1 + n1 + n2 + n3)%nat ->
  mem = region 0 s1 mem ++ region s1 n1 mem ++ region (s1 + n1) n2 mem
        ++ region (s1 + n1 + n2) n3 mem.
Proof.
  intros H. rewrite <- (region_whole mem) at 1. rewrite H.
  replace (s1 + n1 + n2 + n3)%nat with (s1 + (n1 + (n2 + n3)))%nat by lia.
  now rewrite (region_split 0 s1), (region_split s1 n1),
    (region_split (s1 + n1) n2).
Qed.

Lemma region_empty s mem : region s 0 mem = [].
Proof. reflexivity. Qed.

Lemma set_region_region s n mem :
  set_region s n (region s n mem) mem = mem.
Proof.
  unfold set_region, region.
  rewrite <- drop_drop, take_drop. apply take_drop.
Qed.

(** A region that is stored only under a condition. *)
Lemma optional_set_length (c : bool) s n bytes mem :
  (s + n <= length mem)%nat -> length bytes = n ->
  length (if c then set_region s n bytes mem else mem) = length mem.
Proof. intros. destruct c; [now apply length_set_region | reflexivity]. Qed.

Lemma optional_set_before (c : bool) s1 n1 s2 n2 bytes mem :
  (s1 + n1 <= s2)%nat -> (s2 <= length mem)%nat ->
  region s1 n1 (if c then set_region s2 n2 bytes mem else mem)
  = region s1 n1 mem.
Proof.
  intros. destruct c; [now apply region_set_region_before | reflexivity].
Qed.

Lemma optional_set_same (c : bool) s n bytes mem :
  (s <= length mem)%nat -> length bytes = n ->
  region s n (if c then set_region s n bytes mem else mem)
  = if c then bytes else region s n mem.
Proof. intros. destruct c; [now apply region_set_region | reflexivity]. Qed.

(** Reading the bytes saved from [m] into [m0] gives [loaded_mapper m0 m]. *)
Lemma Mapper_dump_reads m0 m :
  valid_mapper m0 -> valid_mapper m -> same_cartridge m0 m ->
  representable_mapper m ->
  Absorbs (Mapper_dump READ m0) (loaded_mapper m0 m) (layout_mapper m).
Proof.
  intros (Hc0 & Hp0 & A1 & A2 & A3 & A4 & Hm0)
    (Hc & Hp & B1 & B2 & B3 & B4 & Hm) (F1 & F2 & F3 & F4 & F5) [Rc Rp].
  set (s1 := Z.to_nat (_size_prg m)).
  set (n1 := Z.to_nat (_size_chr m)).
  set (s2 := Z.to_nat (_size_prg m + _size_chr m)).
  set (n2 := Z.to_nat (_size_cpu_ram m)).
  set (s3 := Z.to_nat (_size_prg m + _size_chr m + _size_cpu_ram m)).
  set (n3 := Z.to_nat (_size_ppu_ram m)).
  set (c1 := negb (_read_only_chr m)).
  set (c2 := negb (_size_cpu_ram m =? 0)%Z).
  set (c3 := negb (_size_ppu_ram m =? 0)%Z).
  set (mem1 := if c1 then set_region s1 n1 (region s1 n1 (_memory m)) (_memory m0)
               else _memory m0).
  set (mem2 := if c2 then set_region s2 n2 (region s2 n2 (_memory m)) mem1
               else mem1).
  set (mem3 := if c3 then set_region s3 n3 (region s3 n3 (_memory m)) mem2
               else mem2).
  assert (Hs : (s1 + n1 = s2 /\ s2 + n2 = s3 /\ s3 + n3 = length (_memory m)
                /\ length (_memory m0) = length (_memory m))%nat)
    by (subst s1 n1 s2 n2 s3 n3; lia).
  destruct Hs as (S1 & S2 & S3 & S0).
  assert (L1 : length mem1 = length (_memory m))
    by (subst mem1; rewrite optional_set_length;
        [assumption | lia | apply length_region; lia]).
  assert (L2 : length mem2 = length (_memory m))
    by (subst mem2; rewrite optional_set_length;
        [assumption | lia | apply length_region; lia]).
  assert (L3 : length mem3 = length (_memory m))
    by (subst mem3; rewrite optional_set_length;
        [assumption | lia | apply length_region; lia]).
  assert (E : mem3 = loaded_memory m0 m).
  { rewrite (region_four s1 n1 n2 n3 mem3) by lia.
    unfold loaded_memory, prg_region, chr_region, cpu_ram_region,
      ppu_ram_region.
    rewrite F1, F2, F5. fold s1 n1 s2 n2 s3 n3. rewrite S1, S2.
    f_equal; [| f_equal; [| f_equal]].
    - subst mem3 mem2 mem1.
      rewrite !optional_set_before; (reflexivity || lia).
    - subst mem3 mem2.
      rewrite !optional_set_before by lia.
      subst mem1. rewrite optional_set_same by (lia || (apply length_region; lia)).
      subst c1. now destruct (_read_only_chr m).
    - subst mem3. rewrite optional_set_before by lia.
      subst mem2. rewrite optional_set_same by (lia || (apply length_region; lia)).
      destruct c2 eqn:C2; [reflexivity |].
      assert (n2 = 0%nat) as ->
        by (subst c2 n2; destruct (Z.eqb_spec (_size_cpu_ram m) 0);
            [lia | discriminate]).
      reflexivity.
    - subst mem3. rewrite optional_set_same by (lia || (apply length_region; lia)).
      destruct c3 eqn:C3; [reflexivity |].
      assert (n3 = 0%nat) as ->
        by (subst c3 n3; destruct (Z.eqb_spec (_size_ppu_ram m) 0);
            [lia | discriminate]).
      reflexivity. }
  unfold loaded_mapper. rewrite <- E.
  eapply absorbs_to.
  - unfold Mapper_dump. rewrite F1, F2, F3, F4, F5.
    eapply absorbs_bind;
      [apply (dump_banks_reads 0x40 _ (_banks_cpu m)); assumption |].
    eapply absorbs_bind;
      [apply (dump_banks_reads 0x10 _ (_banks_ppu m)); assumption |].
    eapply absorbs_bind;
      [intros b rest; apply (optional_region_read _ _ _ _ (_memory m));
       fold s1 n1; lia |].
    eapply absorbs_bind;
      [intros b rest; apply (optional_region_read _ _ _ _ (_memory m));
       fold s2 n2; lia |].
    eapply absorbs_bind;
      [intros b rest; apply (optional_region_read _ _ _ _ (_memory m));
       fold s3 n3; lia |].
    apply absorbs_ret.
  - unfold layout_mapper, chr_region, cpu_ram_region, ppu_ram_region.
    now rewrite app_nil_r.
Qed.

Lemma loaded_mapper_same m : valid_mapper m -> loaded_mapper m m = m.
Proof.
  intros (Hc & Hp & B1 & B2 & B3 & B4 & Hm).
  assert (E : loaded_memory m m = _memory m).
  { unfold loaded_memory, prg_region, chr_region, cpu_ram_region,
      ppu_ram_region.
    replace (Z.to_nat (_size_prg m + _size_chr m))
      with (Z.to_nat (_size_prg m) + Z.to_nat (_size_chr m))%nat by lia.
    replace (Z.to_nat (_size_prg m + _size_chr m + _size_cpu_ram m))
      with (Z.to_nat (_size_prg m) + Z.to_nat (_size_chr m)
            + Z.to_nat (_size_cpu_ram m))%nat by lia.
    destruct (_read_only_chr m); symmetry; apply region_four; lia. }
  unfold loaded_mapper. rewrite E. now destruct m.
Qed.

Lemma MMC_dump_reads s0 s :
  valid_mmc s0 -> valid_mmc s -> same_mmc s0 s -> representable (IsMMC s) ->
  Absorbs (MMC.dump READ s0)
    (MMC.mkMMC (loaded_mapper (MMC.base s0) (MMC.base s)) (MMC._latches s)
       (MMC._selected_banks s))
    (layout_mmc s).
Proof.
  intros (Hb0 & _) (Hb & _) (Fb & Fl & Fs) (Rb & Rs).
  cbn [base_of] in Rb. eapply absorbs_to.
  - unfold MMC.dump.
    eapply absorbs_bind; [apply (Mapper_dump_reads _ (MMC.base s)); assumption |].
    eapply absorbs_bind;
      [apply (dump_array_reads dump_bool bool_byte (fun _ => True)
                (fun x0 x _ => dump_bool_reads x0 x) _ (MMC._latches s));
       [now apply Forall_true | exact Fl] |].
    eapply absorbs_bind;
      [apply (dump_array_reads (dump_uint 1) (le_bytes 1) (fits_uint 1)
                (dump_uint_reads 1) _ (MMC._selected_banks s));
       [exact Rs | exact Fs] |].
    apply absorbs_ret.
  - unfold layout_mmc. now rewrite app_nil_r.
Qed.

Lemma MMC1_dump_reads s0 s :
  valid_mmc1 s0 -> valid_mmc1 s -> same_mmc1 s0 s -> representable (IsMMC1 s) ->
  Absorbs (MMC1.dump READ s0)
    (MMC1.mkMMC1 (loaded_mapper (MMC1.base s0) (MMC1.base s)) (MMC1._tick s)
       (MMC1._registers s) (MMC1._register s) (MMC1._counter s))
    (layout_mmc1 s).
Proof.
  intros (Hb0 & _) (Hb & _) (Fb & Fr) (Rb & Rt & Rrs & Rr & Rc).
  cbn [base_of] in Rb. eapply absorbs_to.
  - unfold MMC1.dump.
    eapply absorbs_bind; [apply (Mapper_dump_reads _ (MMC1.base s)); assumption |].
    eapply absorbs_bind; [apply (dump_uint_reads 1 _ (MMC1._tick s)); exact Rt |].
    eapply absorbs_bind;
      [apply (dump_array_reads (dump_uint 1) (le_bytes 1) (fits_uint 1)
                (dump_uint_reads 1) _ (MMC1._registers s));
       [exact Rrs | exact Fr] |].
    eapply absorbs_bind;
      [apply (dump_uint_reads 1 _ (MMC1._register s)); exact Rr |].
    eapply absorbs_bind;
      [apply (dump_uint_reads 1 _ (MMC1._counter s)); exact Rc |].
    apply absorbs_ret.
  - unfold layout_mmc1. now rewrite app_nil_r.
Qed.

Lemma MMC3_dump_reads s0 s :
  valid_mmc3 s0 -> valid_mmc3 s -> same_mmc3 s0 s -> representable (IsMMC3 s) ->
  Absorbs (MMC3.dump READ s0)
    (MMC3.mkMMC3 (loaded_mapper (MMC3.base s0) (MMC3.base s)) (MMC3._tick s)
       (MMC3._registers s) (MMC3._counter s) (MMC3._counter_reset_value s)
       (MMC3._register_target s) (MMC3._mode_prg s) (MMC3._mode_chr s)
       (MMC3._enable_interrupt s) (MMC3._should_reload_interrupt s))
    (layout_mmc3 s).
Proof.
  intros (Hb0 & _) (Hb & _) (Fb & Fr) (Rb & Rt & Rrs & Rc & Rcr & Rrt).
  cbn [base_of] in Rb. eapply absorbs_to.
  - unfold MMC3.dump.
    eapply absorbs_bind; [apply (Mapper_dump_reads _ (MMC3.base s)); assumption |].
    eapply absorbs_bind; [apply (dump_uint_reads 4 _ (MMC3._tick s)); exact Rt |].
    eapply absorbs_bind;
      [apply (dump_array_reads (dump_uint 4) (le_bytes 4) (fits_uint 4)
                (dump_uint_reads 4) _ (MMC3._registers s));
       [exact Rrs | exact Fr] |].
    eapply absorbs_bind;
      [apply (dump_uint_reads 2 _ (MMC3._counter s)); exact Rc |].
    eapply absorbs_bind;
      [apply (dump_uint_reads 2 _ (MMC3._counter_reset_value s)); exact Rcr |].
    eapply absorbs_bind;
      [apply (dump_uint_reads 1 _ (MMC3._register_target s)); exact Rrt |].
    eapply absorbs_bind; [apply (dump_bool_reads _ (MMC3._mode_prg s)) |].
    eapply absorbs_bind; [apply (dump_bool_reads _ (MMC3._mode_chr s)) |].
    eapply absorbs_bind; [apply (dump_bool_reads _ (MMC3._enable_interrupt s)) |].
    eapply absorbs_bind;
      [apply (dump_bool_reads _ (MMC3._should_reload_interrupt s)) |].
    apply absorbs_ret.
  - unfold layout_mmc3. now rewrite app_nil_r.
Qed.

(** X1. A load into a mapper object of the same cartridge reads back every
    bank entry and the RAM regions that were saved, and nothing else: the
    two bank tables, the CHR region when CHR is RAM and the two work RAMs
    become those of the saved object, while the PRG bytes, the CHR bytes
    when CHR is ROM and the constant members stay those of the object
    loaded into. *)
Theorem mapper_load_result (m0 m : Mapper) (buffer : list Z) :
  valid_mapper m0 -> valid_mapper m -> same_cartridge m0 m ->
  representable_mapper m ->
  length buffer = length (layout_mapper m) ->
  exists saved,
    Mapper_dump WRITE m (rewind buffer) = Some (m, mkCursor saved [])
    /\ Mapper_dump READ m0 (rewind saved)
       = Some (loaded_mapper m0 m, mkCursor saved []).
Proof.
  intros H0 H Hsame Hrep Hlen. exists (layout_mapper m). unfold rewind. split.
  - rewrite Mapper_dump_writes by (assumption || lia).
    now rewrite drop_ge by lia.
  - pose proof (Mapper_dump_reads m0 m H0 H Hsame Hrep [] []) as E.
    now rewrite app_nil_r in E.
Qed.

(** X2. Saving a mapper and loading the bytes back into the same object
    leaves it exactly as it was, for every mapper class, when each dumped
    integer holds a value of its type. *)
Theorem save_then_load_is_noop (v : AnyMapper) (buffer : list Z) :
  valid_any v -> representable v ->
  length buffer = length (layout_any v) ->
  exists saved,
    dump_any WRITE v (rewind buffer) = Some (v, mkCursor saved [])
    /\ dump_any READ v (rewind saved) = Some (v, mkCursor saved []).
Proof.
  intros Hv Hrep Hlen. exists (layout_any v). unfold rewind. split.
  - rewrite dump_any_writes by (assumption || lia).
    now rewrite drop_ge by lia.
  - pose proof (same_any_refl v) as Hsame.
    destruct v as [m | s | s | s]; cbn [dump_any layout_any valid_any] in *;
      unfold bind, ret.
    + destruct Hrep as [Hrep _].
      pose proof (Mapper_dump_reads m m Hv Hv Hsame Hrep [] []) as E.
      rewrite app_nil_r in E. rewrite E.
      now rewrite loaded_mapper_same.
    + pose proof (MMC1_dump_reads s s Hv Hv Hsame Hrep [] []) as E.
      rewrite app_nil_r in E. rewrite E.
      rewrite loaded_mapper_same by apply Hv. now destruct s.
    + pose proof (MMC3_dump_reads s s Hv Hv Hsame Hrep [] []) as E.
      rewrite app_nil_r in E. rewrite E.
      rewrite loaded_mapper_same by apply Hv. now destruct s.
    + pose proof (MMC_dump_reads s s Hv Hv Hsame Hrep [] []) as E.
      rewrite app_nil_r in E. rewrite E.
      rewrite loaded_mapper_same by apply Hv. now destruct s.
Qed.

Lemma layout_array_length {T} (layout : T -> list Z) n a :
  (forall x, length (layout x) = n) ->
  length (layout_array layout a) = (n * length a)%nat.
Proof.
  intros Hn. unfold layout_array. induction a as [| x a IH]; simpl; [lia |].
  rewrite length_app, Hn, IH. lia.
Qed.

Lemma layout_bank_length bank :
  length (layout_bank bank) = (sizeof_size_t + 1 + 1)%nat.
Proof.
  unfold layout_bank.
  now rewrite !length_app, le_bytes_length, !bool_byte_length, Nat.add_assoc.
Qed.

(** X3. The number of bytes a mapper writes into a save state is fixed by
    its class and by the constants of the cartridge, whatever the state:
    80 bank entries of 10 bytes, the CHR size when CHR is RAM, the sizes of
    the two work RAMs, and 0, 7, 45 or 6 bytes for the class. *)
Theorem mapper_segment_size (v : AnyMapper) (b a : list Z) :
  valid_any v -> (segment_size v <= length a)%nat ->
  exists bytes,
    dump_any WRITE v (mkCursor b a)
    = Some (v, mkCursor (b ++ bytes) (drop (segment_size v) a))
    /\ length bytes = segment_size v.
Proof.
  intros Hv Hlen.
  assert (E : length (layout_any v) = segment_size v).
  { assert (Hbase : forall m, valid_mapper m ->
              length (layout_mapper m)
              = ((0x40 + 0x10) * (sizeof_size_t + 1 + 1)
                 + (if _read_only_chr m then 0 else Z.to_nat (_size_chr m))
                 + Z.to_nat (_size_cpu_ram m) + Z.to_nat (_size_ppu_ram m))%nat).
    { intros m (Hc & Hp & B1 & B2 & B3 & B4 & Hm). unfold layout_mapper.
      rewrite !length_app,
        !(layout_array_length layout_bank _ _ layout_bank_length), Hc, Hp.
      unfold chr_region, cpu_ram_region, ppu_ram_region.
      destruct (_read_only_chr m); cbn [negb];
        destruct (Z.eqb_spec (_size_cpu_ram m) 0);
        destruct (Z.eqb_spec (_size_ppu_ram m) 0); cbn [negb length];
        rewrite ?length_region by lia; lia. }
    unfold segment_size.
    destruct v as [m | s | s | s]; cbn [layout_any valid_any base_of variant_size] in *.
    - rewrite (Hbase _ Hv). lia.
    - destruct Hv as [Hb Hr]. unfold layout_mmc1.
      rewrite !length_app, (Hbase _ Hb), !le_bytes_length,
        (layout_array_length (le_bytes 1) 1) by (intros; apply le_bytes_length).
      rewrite Hr. lia.
    - destruct Hv as [Hb Hr]. unfold layout_mmc3.
      rewrite !length_app, (Hbase _ Hb), !le_bytes_length, !bool_byte_length,
        (layout_array_length (le_bytes 4) 4) by (intros; apply le_bytes_length).
      rewrite Hr. lia.
    - destruct Hv as (Hb & Hl & Hs). unfold layout_mmc.
      rewrite !length_app, (Hbase _ Hb),
        (layout_array_length bool_byte 1) by (intros; apply bool_byte_length).
      rewrite (layout_array_length (le_bytes 1) 1)
        by (intros; apply le_bytes_length).
      rewrite Hl, Hs. lia. }
  exists (layout_any v). split; [| exact E].
  rewrite <- E in *. now apply dump_any_writes.
Qed.

Lemma Forall_forallb_true {A} (P : A -> Prop) (f : A -> bool) :
  (forall x, f x = true -> P x) ->
  forall l, forallb f l = true -> Forall P l.
Proof.
  intros Hf l. induction l as [| x l IH]; cbn [forallb]; intros H.
  - constructor.
  - apply andb_prop in H. destruct H as [Hx Hl].
    constructor; [now apply Hf | now apply IH].
Qed.

Lemma fits_size_t_test (bank : MemoryBank) :
  ((0 <=? offset bank) && (offset bank <? 2 ^ 64))%Z = true ->
  fits_size_t bank.
Proof. unfold fits_size_t. lia. Qed.

Lemma fits_uint_test (width : nat) (v : Z) :
  ((0 <=? v) && (v <? 256 ^ Z.of_nat width))%Z = true -> fits_uint width v.
Proof. unfold fits_uint. lia. Qed.

Lemma example_mmc2_representable : representable (IsMMC Examples.mmc2).
Proof.
  unfold representable, representable_mapper. split; [split |].
  - apply (Forall_forallb_true _ _ fits_size_t_test).
    vm_compute. reflexivity.
  - apply (Forall_forallb_true _ _ fits_size_t_test).
    vm_compute. reflexivity.
  - apply (Forall_forallb_true _ _ (fits_uint_test 1)).
    vm_compute. reflexivity.
Qed.

Lemma example_switched_valid :
  valid_mapper (MMC.base (MMC.write_cpu 0x08 0xA000 3 Examples.mmc2)).
Proof.
  unfold valid_mapper.
  split; [| split; [| split; [| split; [| split; [| split]]]]];
    vm_compute; first [reflexivity | discriminate].
Qed.

Lemma example_switched_same :
  same_cartridge (MMC.base (MMC.write_cpu 0x08 0xA000 3 Examples.mmc2))
    (MMC.base Examples.mmc2).
Proof.
  unfold same_cartridge.
  split; [| split; [| split; [| split]]]; vm_compute; reflexivity.
Qed.

Lemma mapper_load_result_witness :
  exists saved,
    Mapper_dump WRITE (MMC.base Examples.mmc2)
      (rewind (replicate (length (layout_mapper (MMC.base Examples.mmc2))) 0%Z))
    = Some (MMC.base Examples.mmc2, mkCursor saved [])
    /\ Mapper_dump READ (MMC.base (MMC.write_cpu 0x08 0xA000 3 Examples.mmc2))
         (rewind saved)
       = Some (loaded_mapper
                 (MMC.base (MMC.write_cpu 0x08 0xA000 3 Examples.mmc2))
                 (MMC.base Examples.mmc2),
               mkCursor saved []).
Proof.
  apply mapper_load_result.
  - exact example_switched_valid.
  - apply example_mmc2_valid_mmc.
  - exact example_switched_same.
  - exact (proj1 example_mmc2_representable).
  - apply length_replicate.
Defined.

Lemma save_then_load_is_noop_witness :
  exists saved,
    dump_any WRITE (IsMMC Examples.mmc2)
      (rewind (replicate (length (layout_any (IsMMC Examples.mmc2))) 0%Z))
    = Some (IsMMC Examples.mmc2, mkCursor saved [])
    /\ dump_any READ (IsMMC Examples.mmc2) (rewind saved)
       = Some (IsMMC Examples.mmc2, mkCursor saved []).
Proof.
  apply save_then_load_is_noop.
  - exact example_mmc2_valid.
  - exact example_mmc2_representable.
  - apply length_replicate.
Defined.

Lemma mapper_segment_size_witness :
  Z.of_nat (segment_size (IsMMC Examples.mmc2)) = 11046%Z
  /\ exists bytes,
       dump_any WRITE (IsMMC Examples.mmc2)
         (mkCursor [] (replicate (segment_size (IsMMC Examples.mmc2)) 0%Z))
       = Some (IsMMC Examples.mmc2,
               mkCursor ([] ++ bytes)
                 (drop (segment_size (IsMMC Examples.mmc2))
                    (replicate (segment_size (IsMMC Examples.mmc2)) 0%Z)))
       /\ length bytes = segment_size (IsMMC Examples.mmc2).
Proof.
  split; [vm_compute; reflexivity |].
  apply mapper_segment_size.
  - exact example_mmc2_valid.
  - rewrite length_replicate. apply le_n.
Defined.

End RestoreFacts.

(** ** Loading into another object of the same ROM *)

Section RestoreAcross.
Import Dump Mapper Layout Restore.

Lemma loaded_mapper_rom m0 m :
  valid_mapper m0 -> valid_mapper m -> same_rom m0 m -> loaded_mapper m0 m = m.
Proof.
  intros _ (Hc & Hp & B1 & B2 & B3 & B4 & Hm)
    ((S1 & S2 & S3 & S4 & S5) & K1 & K2 & K3 & K4 & Rp & Rc).
  assert (E : loaded_memory m0 m = _memory m).
  { unfold loaded_memory. rewrite Rp, S5.
    assert (Ec : (if _read_only_chr m then chr_region m0 else chr_region m)
                 = chr_region m)
      by (destruct (_read_only_chr m); [now apply Rc | reflexivity]).
    rewrite Ec.
    unfold prg_region, chr_region, cpu_ram_region, ppu_ram_region.
    replace (Z.to_nat (_size_prg m + _size_chr m))
      with (Z.to_nat (_size_prg m) + Z.to_nat (_size_chr m))%nat by lia.
    replace (Z.to_nat (_size_prg m + _size_chr m + _size_cpu_ram m))
      with (Z.to_nat (_size_prg m) + Z.to_nat (_size_chr m)
            + Z.to_nat (_size_cpu_ram m))%nat by lia.
    symmetry; apply region_four; lia. }
  unfold loaded_mapper. rewrite E.
  destruct m0, m. cbn in *. now subst.
Qed.

(** X14. A save state restores the object it was taken from in any object
    of the same class on the same ROM, whatever the state of that one: the
    READ walk consumes the bytes and leaves the object equal to the saved
    one, for every mapper class. *)
Theorem load_restores_saved_object (v0 v : AnyMapper) (buffer : list Z) :
  valid_any v0 -> valid_any v -> same_rom_any v0 v -> representable v ->
  length buffer = length (layout_any v) ->
  exists saved,
    dump_any WRITE v (rewind buffer) = Some (v, mkCursor saved [])
    /\ dump_any READ v0 (rewind saved) = Some (v, mkCursor saved []).
Proof.
  intros Hv0 Hv [Hsame Hrom] Hrep Hlen. exists (layout_any v). unfold rewind.
  split.
  - rewrite dump_any_writes by (assumption || lia).
    now rewrite drop_ge by lia.
  - destruct v0 as [m0 | s0 | s0 | s0], v as [m | s | s | s];
      try contradiction Hsame;
      cbn [dump_any layout_any valid_any base_of] in *; unfold bind, ret.
    + destruct Hrep as [Hrep _].
      pose proof (Mapper_dump_reads m0 m Hv0 Hv Hsame Hrep [] []) as E.
      rewrite app_nil_r in E. rewrite E.
      now rewrite loaded_mapper_rom.
    + pose proof (MMC1_dump_reads s0 s Hv0 Hv Hsame Hrep [] []) as E.
      rewrite app_nil_r in E. rewrite E.
      rewrite loaded_mapper_rom by (apply Hv0 || apply Hv || exact Hrom).
      now destruct s.
    + pose proof (MMC3_dump_reads s0 s Hv0 Hv Hsame Hrep [] []) as E.
      rewrite app_nil_r in E. rewrite E.
      rewrite loaded_mapper_rom by (apply Hv0 || apply Hv || exact Hrom).
      now destruct s.
    + pose proof (MMC_dump_reads s0 s Hv0 Hv Hsame Hrep [] []) as E.
      rewrite app_nil_r in E. rewrite E.
      rewrite loaded_mapper_rom by (apply Hv0 || apply Hv || exact Hrom).
      now destruct s.
Qed.

(** The example mapper with its PRG window switched to bank 3 is another
    object of the same class on the same ROM. *)
Lemma example_switched_mmc :
  let s0 := MMC.write_cpu 0x08 0xA000 3 Examples.mmc2 in
  valid_mmc s0 /\ same_rom_any (IsMMC s0) (IsMMC Examples.mmc2)
  /\ s0 <> Examples.mmc2.
Proof.
  intros s0.
  assert (K : forall A (f : Mapper -> A),
            (forall page address m, f (map_bank_prg1 page address m) = f m) ->
            f (MMC.base s0) = f (MMC.base Examples.mmc2)).
  { intros A f Hf. subst s0.
    change (MMC.base (MMC.write_cpu 0x08 0xA000 3 Examples.mmc2))
      with (map_bank_prg 0x20 0x08 (uint16 (Z.land 3 0xF * 0x08))
              (MMC.base Examples.mmc2)).
    unfold map_bank_prg. now apply map_pages_keeps. }
  split; [| split].
  - split; [exact example_switched_valid |].
    split; vm_compute; reflexivity.
  - unfold same_rom_any, same_any, same_mmc, same_rom. cbn [base_of].
    split; [split; [exact example_switched_same |] |].
    + split; vm_compute; reflexivity.
    + split; [exact example_switched_same |].
      unfold prg_region, chr_region.
      rewrite (K _ _banks_prg), (K _ _banks_chr), (K _ _banks_cpu_ram),
        (K _ _banks_ppu_ram), (K _ _memory), (K _ _size_prg), (K _ _size_chr)
        by reflexivity.
      now repeat split.
  - intros E.
    apply (f_equal (fun s => _banks_cpu (MMC.base s) !! 0x20%nat)) in E.
    vm_compute in E. discriminate E.
Qed.

Lemma load_restores_saved_object_witness :
  let s0 := MMC.write_cpu 0x08 0xA000 3 Examples.mmc2 in
  exists saved,
    dump_any WRITE (IsMMC Examples.mmc2)
      (rewind (replicate (length (layout_any (IsMMC Examples.mmc2))) 0%Z))
    = Some (IsMMC Examples.mmc2, mkCursor saved [])
    /\ dump_any READ (IsMMC s0) (rewind saved)
       = Some (IsMMC Examples.mmc2, mkCursor saved []).
Proof.
  intros s0. destruct example_switched_mmc as (Hv0 & Hrom & _).
  apply (load_restores_saved_object (IsMMC s0) (IsMMC Examples.mmc2)).
  - exact Hv0.
  - exact example_mmc2_valid.
  - exact Hrom.
  - exact example_mmc2_representable.
  - apply length_replicate.
Defined.

End RestoreAcross.
(** ** The MMC mapper over a sequence of accesses *)

Section WindowFacts.
Import Mapper Banks MMC Layout Windows.

Ltac split_tests :=
  repeat match goal with
         | |- context [if ?c then _ else _] =>
             match type of c with bool => destruct c end
         end.

(** *** Latches *)

Lemma write_cpu_latches BANK_SIZE address value s :
  _latches (write_cpu BANK_SIZE address value s) = _latches s.
Proof.
  unfold write_cpu. split_tests; rewrite ?update_banks_latches; reflexivity.
Qed.

Lemma access_update_banks_latch BANK_SIZE open_bus s a k v :
  latch_event a = Some (k, v) ->
  access BANK_SIZE open_bus s a = update_banks (set_latch k v s)
  /\ (k < 2)%nat.
Proof.
  destruct a as [| | | address |]; cbn [latch_event]; try discriminate.
  cbn [access]. rewrite read_ppu_state.
  split_tests; intros H; try discriminate H; injection H as <- <-;
    (split; [reflexivity | lia]).
Qed.

Lemma access_latches BANK_SIZE open_bus s a :
  _latches (access BANK_SIZE open_bus s a)
  = match latch_event a with
    | Some (k, v) => <[k := v]> (_latches s)
    | None => _latches s
    end.
Proof.
  destruct (latch_event a) as [[k v] |] eqn:E.
  - destruct (access_update_banks_latch BANK_SIZE open_bus s a k v E) as [-> _].
    now rewrite update_banks_latches.
  - destruct a as [address value | | | address |]; cbn [access];
      try reflexivity.
    + apply write_cpu_latches.
    + cbn [latch_event] in E. rewrite read_ppu_state.
      revert E. split_tests; intros E; try discriminate E; reflexivity.
Qed.

Lemma run_app BANK_SIZE open_bus pre post s :
  run BANK_SIZE open_bus (pre ++ post) s
  = run BANK_SIZE open_bus post (run BANK_SIZE open_bus pre s).
Proof. unfold run. apply fold_left_app. Qed.

Lemma run_cons BANK_SIZE open_bus a accesses s :
  run BANK_SIZE open_bus (a :: accesses) s
  = run BANK_SIZE open_bus accesses (access BANK_SIZE open_bus s a).
Proof. reflexivity. Qed.

Lemma run_latches_length BANK_SIZE open_bus accesses : forall s,
  length (_latches (run BANK_SIZE open_bus accesses s)) = length (_latches s).
Proof.
  induction accesses as [| a accesses IH]; intros s; [reflexivity |].
  rewrite run_cons.
  rewrite IH, access_latches.
  destruct (latch_event a) as [[k v] |]; [apply length_insert | reflexivity].
Qed.

Lemma run_latch_quiet BANK_SIZE open_bus k post : forall s,
  forallb (fun x => negb (moves_latch k x)) post = true ->
  latch (run BANK_SIZE open_bus post s) k = latch s k.
Proof.
  induction post as [| a post IH]; intros s H; [reflexivity |].
  cbn [forallb] in H. apply andb_prop in H. destruct H as [Ha Hpost].
  rewrite run_cons.
  rewrite (IH _ Hpost). unfold latch. rewrite access_latches.
  unfold moves_latch in Ha.
  destruct (latch_event a) as [[k' v] |]; [| reflexivity].
  rewrite list_lookup_insert_ne; [reflexivity |].
  intros ->. rewrite Nat.eqb_refl in Ha. discriminate Ha.
Qed.

(** X4. A latch of the MMC2/MMC4 mapper is moved by PPU reads at its
    trigger addresses and by nothing else: through accesses that read none
    of the trigger addresses of latch [k] (CPU writes, PPU writes, CPU
    reads, ticks, reads elsewhere, reads at the triggers of the other
    latch) the latch keeps its value, and after any sequence of accesses
    it holds what the last read at one of its trigger addresses set. *)
Theorem mmc_latch_history (BANK_SIZE open_bus : Z) (k : nat)
    (pre post : list Access) (s : MMC) :
  length (_latches s) = 2%nat ->
  forallb (fun x => negb (moves_latch k x)) post = true ->
  latch (run BANK_SIZE open_bus post s) k = latch s k
  /\ forall a v, latch_event a = Some (k, v) ->
       latch (run BANK_SIZE open_bus (pre ++ a :: post) s) k = v.
Proof.
  intros Hlen Hpost. split; [now apply run_latch_quiet |].
  intros a v Ha. rewrite run_app, run_cons.
  rewrite (run_latch_quiet _ _ _ _ _ Hpost).
  destruct (access_update_banks_latch BANK_SIZE open_bus
              (run BANK_SIZE open_bus pre s) a k v Ha) as [-> Hk].
  rewrite latch_update_banks. apply latch_set_latch_eq.
  rewrite run_latches_length. lia.
Qed.

(** *** Registers *)

Lemma access_selected_banks BANK_SIZE open_bus s a :
  _selected_banks (access BANK_SIZE open_bus s a)
  = match register_event a with
    | Some (k, v) => <[k := v]> (_selected_banks s)
    | None => _selected_banks s
    end.
Proof.
  destruct a as [address value | | | address |]; cbn [access register_event];
    try reflexivity.
  - unfold write_cpu.
    destruct (address <? 0xA000)%Z eqn:E1.
    { assert ((address <? 0xB000)%Z = true) as -> by lia. reflexivity. }
    split_tests; rewrite ?update_banks_selected; reflexivity.
  - rewrite read_ppu_state. split_tests; rewrite ?update_banks_selected;
      reflexivity.
Qed.

Lemma run_selected_length BANK_SIZE open_bus accesses : forall s,
  length (_selected_banks (run BANK_SIZE open_bus accesses s))
  = length (_selected_banks s).
Proof.
  induction accesses as [| a accesses IH]; intros s; [reflexivity |].
  rewrite run_cons.
  rewrite IH, access_selected_banks.
  destruct (register_event a) as [[k v] |]; [apply length_insert | reflexivity].
Qed.

Lemma run_register_quiet BANK_SIZE open_bus k post : forall s,
  forallb (fun x => negb (sets_register k x)) post = true ->
  selected_bank (run BANK_SIZE open_bus post s) k = selected_bank s k.
Proof.
  induction post as [| a post IH]; intros s H; [reflexivity |].
  cbn [forallb] in H. apply andb_prop in H. destruct H as [Ha Hpost].
  rewrite run_cons.
  rewrite (IH _ Hpost). unfold selected_bank. rewrite access_selected_banks.
  unfold sets_register in Ha.
  destruct (register_event a) as [[k' v] |]; [| reflexivity].
  rewrite list_lookup_insert_ne; [reflexivity |].
  intros ->. rewrite Nat.eqb_refl in Ha. discriminate Ha.
Qed.

(** X5. A CHR bank register of the MMC2/MMC4 mapper is changed by CPU
    writes in its own range of 0x1000 addresses (0xB000, 0xC000, 0xD000,
    0xE000 for the registers 0 to 3) and by nothing else: through accesses
    that do not write there it keeps its value, and after any sequence of
    accesses it holds the low five bits of the last value written there. *)
Theorem mmc_register_history (BANK_SIZE open_bus : Z) (k : nat)
    (pre post : list Access) (s : MMC) :
  length (_selected_banks s) = 4%nat ->
  forallb (fun x => negb (sets_register k x)) post = true ->
  selected_bank (run BANK_SIZE open_bus post s) k = selected_bank s k
  /\ forall address value,
       (0xB000 + 0x1000 * Z.of_nat k <= address
        < 0xB000 + 0x1000 * (Z.of_nat k + 1))%Z ->
       (k < 4)%nat ->
       selected_bank
         (run BANK_SIZE open_bus (pre ++ WriteCpu address value :: post) s) k
       = Z.land value 0x1F.
Proof.
  intros Hlen Hpost. split; [now apply run_register_quiet |].
  intros address value Ha Hk. rewrite run_app, run_cons.
  rewrite (run_register_quiet _ _ _ _ _ Hpost).
  unfold selected_bank. rewrite access_selected_banks.
  assert (E : register_event (WriteCpu address value)
              = Some (k, Z.land value 0x1F)).
  { cbn [register_event].
    destruct k as [| [| [| [| k]]]]; [| | | | lia];
      repeat match goal with
             | |- context [(?x <? ?y)%Z] => destruct (Z.ltb_spec x y); try lia
             end; reflexivity. }
  rewrite E, list_lookup_insert_eq; [reflexivity |].
  rewrite run_selected_length. lia.
Qed.

(** *** The pattern tables *)

Lemma mirror_ppu_banks_from_keeps {A} (f : Mapper -> A) :
  (forall banks m, f (set_banks_ppu banks m) = f m) ->
  forall count index page mirror m,
    f (mirror_ppu_banks_from count index page mirror m) = f m.
Proof.
  intros Hf. induction count as [| count IH]; intros index page mirror m.
  - reflexivity.
  - cbn [mirror_ppu_banks_from]. now rewrite IH, Hf.
Qed.

Lemma set_mirroring_mode_keeps {A} (f : Mapper -> A) mode m :
  (forall banks m, f (set_banks_ppu banks m) = f m) ->
  f (set_mirroring_mode mode m) = f m.
Proof.
  intros Hf. unfold set_mirroring_mode, mirror_ppu_banks.
  rewrite (mirror_ppu_banks_from_keeps f Hf).
  unfold map_nametable, map_bank_ppu_ram1.
  repeat match goal with
         | |- context [nametable_of ?mo ?sl] => destruct (nametable_of mo sl)
         end; rewrite ?Hf; reflexivity.
Qed.

Lemma set_mirroring_mode_low mode m :
  length (_banks_ppu m) = 16%nat ->
  take 8 (_banks_ppu (set_mirroring_mode mode m)) = take 8 (_banks_ppu m)
  /\ length (_banks_ppu (set_mirroring_mode mode m)) = 16%nat.
Proof.
  intros Hlen. destruct m as [? ? ? ? ? ? ? ? ? ? ? banks].
  cbn [_banks_ppu] in Hlen.
  do 17 (destruct banks as [| ? banks]; simpl in Hlen; try discriminate Hlen).
  destruct mode; split; reflexivity.
Qed.

Lemma update_banks_synced t :
  length (_banks_ppu (base t)) = 16%nat -> chr_synced (update_banks t).
Proof.
  intros Hlen.
  unfold chr_synced, pattern_pages, window_pages, chr_window, selected_register.
  rewrite !latch_update_banks. unfold selected_bank.
  rewrite !update_banks_selected, update_banks_base.
  unfold selected_register, selected_bank.
  destruct (latch t 0), (latch t 1);
    repeat match goal with
           | |- context [default 0%Z ?x] => generalize (default 0%Z x); intro
           end;
    destruct (base t) as [? ? ? ? ? ? ? ? ? ? ? banks];
    cbn [_banks_ppu] in Hlen;
    do 17 (destruct banks as [| ? banks]; simpl in Hlen; try discriminate Hlen);
    reflexivity.
Qed.

Lemma write_bank_keeps_field {A} (f : Mapper -> A) banks address value m :
  (forall memory m, f (set_memory memory m) = f m) ->
  f (write_bank banks address value m) = f m.
Proof.
  intros Hf. unfold write_bank.
  destruct (mapped _ && negb (read_only _)); [apply Hf | reflexivity].
Qed.

Lemma update_banks_keeps {A} (f : Mapper -> A) t :
  (forall banks m, f (set_banks_ppu banks m) = f m) ->
  f (base (update_banks t)) = f (base t).
Proof.
  intros Hf. rewrite update_banks_base. unfold map_bank_chr.
  rewrite !(map_pages_keeps f map_bank_chr1); [reflexivity | |];
    intros page address m; apply Hf.
Qed.

Lemma update_banks_ppu_length t :
  length (_banks_ppu (base (update_banks t))) = length (_banks_ppu (base t)).
Proof. now rewrite update_banks_base, !map_bank_chr_length. Qed.

Lemma chr_frame_entry m m' a :
  chr_frame m' = chr_frame m -> chr_entry m' a = chr_entry m a.
Proof.
  unfold chr_frame, chr_entry. intros H. injection H as -> ->. reflexivity.
Qed.

(** An access that calls [update_banks] leaves the pattern tables in
    step with the latches and the registers. *)
Lemma access_refreshes BANK_SIZE open_bus s a :
  refreshes a = true ->
  exists t, access BANK_SIZE open_bus s a = update_banks t
            /\ base t = base s.
Proof.
  unfold refreshes.
  destruct (latch_event a) as [[k v] |] eqn:E.
  { intros _. exists (set_latch k v s).
    split; [| reflexivity]. eapply access_update_banks_latch. exact E. }
  destruct a as [address value | | | |]; cbn [register_event]; try discriminate.
  cbn [access]. unfold write_cpu.
  destruct (address <? 0xA000)%Z eqn:E1.
  { assert ((address <? 0xB000)%Z = true) as -> by lia. discriminate. }
  split_tests; intros H; try discriminate H;
    eexists; (split; [reflexivity | reflexivity]).
Qed.

(** The other accesses leave the pattern tables, the latches and the
    registers as they are. *)
Lemma access_keeps_windows BANK_SIZE open_bus s a :
  refreshes a = false ->
  length (_banks_ppu (base s)) = 16%nat ->
  let s' := access BANK_SIZE open_bus s a in
  pattern_pages s' = pattern_pages s
  /\ _latches s' = _latches s
  /\ _selected_banks s' = _selected_banks s
  /\ chr_frame (base s') = chr_frame (base s)
  /\ length (_banks_ppu (base s')) = 16%nat.
Proof.
  intros Hr Hlen s'. unfold refreshes in Hr.
  assert (El : _latches s' = _latches s).
  { subst s'. rewrite access_latches.
    now destruct (latch_event a) as [[k v] |]. }
  assert (Es : _selected_banks s' = _selected_banks s).
  { subst s'. rewrite access_selected_banks.
    destruct (latch_event a) as [[k v] |]; [discriminate Hr |].
    now destruct (register_event a) as [[k v] |]. }
  assert (Eb : take 8 (_banks_ppu (base s')) = take 8 (_banks_ppu (base s))
               /\ chr_frame (base s') = chr_frame (base s)
               /\ length (_banks_ppu (base s')) = 16%nat).
  { subst s'. destruct a as [address value | address value | | address |];
      cbn [access].
    - cbn [latch_event register_event] in Hr. unfold write_cpu.
      destruct (address <? 0xA000)%Z eqn:E1.
      { cbn [base set_base]. unfold Mapper.write_cpu.
        rewrite !(write_bank_keeps_field _banks_ppu),
          (write_bank_keeps_field chr_frame) by reflexivity.
        now repeat split. }
      destruct (address <? 0xB000)%Z eqn:E2.
      { cbn [base set_base]. unfold map_bank_prg.
        rewrite !(map_pages_keeps _banks_ppu map_bank_prg1),
          (map_pages_keeps chr_frame map_bank_prg1) by reflexivity.
        now repeat split. }
      revert Hr. split_tests; intros Hr; try discriminate Hr;
        cbn [base set_base];
        destruct (set_mirroring_mode_low HORIZONTAL (base s) Hlen) as [Th Lh];
        destruct (set_mirroring_mode_low VERTICAL (base s) Hlen) as [Tv Lv];
        rewrite ?Th, ?Tv, ?Lh, ?Lv,
          ?(set_mirroring_mode_keeps chr_frame) by reflexivity;
        now repeat split.
    - unfold MMC.write_ppu. cbn [base set_base]. unfold Mapper.write_ppu.
      rewrite !(write_bank_keeps_field _banks_ppu),
        (write_bank_keeps_field chr_frame) by reflexivity.
      now repeat split.
    - now repeat split.
    - cbn [latch_event] in Hr. rewrite read_ppu_state.
      revert Hr. split_tests; intros Hr; try discriminate Hr.
      now repeat split.
    - now repeat split. }
  destruct Eb as (Et & Ef & Elen). now repeat split.
Qed.

Lemma synced_congruence s s' :
  pattern_pages s' = pattern_pages s ->
  _latches s' = _latches s ->
  _selected_banks s' = _selected_banks s ->
  chr_frame (base s') = chr_frame (base s) ->
  chr_synced s' <-> chr_synced s.
Proof.
  intros Ep El Es Ef.
  unfold chr_synced, window_pages, chr_window, selected_register,
    selected_bank, latch.
  rewrite Ep, El, Es.
  assert (E : forall a, chr_entry (base s') a = chr_entry (base s) a)
    by (intros a; now apply chr_frame_entry).
  cbn [map]. now rewrite !E.
Qed.

Lemma run_synced BANK_SIZE open_bus accesses : forall s,
  length (_banks_ppu (base s)) = 16%nat ->
  chr_synced (run BANK_SIZE open_bus accesses s)
  <-> existsb refreshes accesses = true \/ chr_synced s.
Proof.
  induction accesses as [| a accesses IH]; intros s Hlen.
  - cbn [run fold_left existsb]. intuition discriminate.
  - rewrite run_cons. cbn [existsb].
    destruct (refreshes a) eqn:Hr.
    + destruct (access_refreshes BANK_SIZE open_bus s a Hr) as (t & -> & Et).
      rewrite IH by (now rewrite update_banks_ppu_length, Et).
      cbn [orb]. split; [now left |]. intros _. right.
      apply update_banks_synced. now rewrite Et.
    + destruct (access_keeps_windows BANK_SIZE open_bus s a Hr Hlen)
        as (Ep & El & Es & Ef & Elen).
      rewrite IH by exact Elen. cbn [orb].
      now rewrite (synced_congruence s _ Ep El Es Ef).
Qed.

Lemma MMC_new_pattern_pages BANK_SIZE metadata mode :
  let s := MMC_new BANK_SIZE metadata mode in
  length (_banks_ppu (base s)) = 16%nat
  /\ _banks_ppu (base s) !! 4%nat = Some (chr_entry (base s) 4).
Proof.
  intros s. subst s. unfold MMC_new. cbn [base].
  set (m0 := Mapper_new metadata mode 0x8 0x2).
  assert (L0 : length (_banks_ppu m0) = 16%nat).
  { subst m0. unfold Mapper_new. now apply set_mirroring_mode_low. }
  unfold map_bank_cpu_ram, map_bank_prg.
  rewrite !(map_pages_keeps _banks_ppu) by reflexivity.
  rewrite map_bank_chr_length. split; [exact L0 |].
  rewrite map_bank_chr_lookup by lia. case_decide; [| lia].
  f_equal. apply chr_frame_entry.
  rewrite !(map_pages_keeps chr_frame) by reflexivity. unfold map_bank_chr.
  now rewrite (map_pages_keeps chr_frame) by reflexivity.
Qed.

(** X6. The pattern-table pages 0x0-0x7 of an MMC2/MMC4 mapper show the
    CHR banks its latches and registers select exactly when, since the
    constructor, some access has called [update_banks] (a CPU write at
    0xB000-0xEFFF or a PPU read at a trigger address): every later access
    keeps them in step, and a freshly constructed mapper is out of step,
    since the constructor maps the pages 0x4-0x7 to the CHR pages 4-7 while
    latch 1 and register 3 select bank 0. *)
Theorem mmc_pattern_tables_synced (BANK_SIZE open_bus : Z)
    (metadata : ParsedMemory) (mode : MirroringMode) (accesses : list Access) :
  chr_synced (run BANK_SIZE open_bus accesses (MMC_new BANK_SIZE metadata mode))
  <-> existsb refreshes accesses = true.
Proof.
  destruct (MMC_new_pattern_pages BANK_SIZE metadata mode) as [Hlen H4].
  rewrite (run_synced _ _ _ _ Hlen).
  split; [| now left]. intros [H | H]; [exact H | exfalso].
  unfold chr_synced, pattern_pages in H.
  apply (f_equal (fun l => l !! 4%nat)) in H.
  rewrite lookup_take_lt, H4 in H by lia.
  change ((window_pages ?s 0 ++ window_pages ?s 1) !! 4%nat)
    with (Some (chr_entry (base s) (uint16 (chr_page (chr_window s 1) + 0))))
    in H.
  change (chr_window (MMC_new BANK_SIZE metadata mode) 1) with 0%Z in H.
  change (uint16 (chr_page 0 + 0)) with 0%Z in H.
  unfold chr_entry in H. injection H as H.
  change (Z.shiftl 4 10) with 4096%Z in H. change (Z.shiftl 0 10) with 0%Z in H.
  lia.
Qed.

(** *** The CPU bank table *)

(** What no access changes: every member of the base class but the
    memory and the two bank tables. *)
Lemma access_keeps_field {A} (f : Mapper -> A) BANK_SIZE open_bus s a :
  (forall banks m, f (set_banks_ppu banks m) = f m) ->
  (forall banks m, f (set_banks_cpu banks m) = f m) ->
  (forall memory m, f (set_memory memory m) = f m) ->
  f (base (access BANK_SIZE open_bus s a)) = f (base s).
Proof.
  intros Hp Hc Hm.
  destruct a as [address value | address value | | address |]; cbn [access];
    try reflexivity.
  - unfold write_cpu. split_tests; cbn [base set_base];
      rewrite ?(update_banks_keeps f) by exact Hp; cbn [base set_selected_bank];
      rewrite ?(set_mirroring_mode_keeps f) by exact Hp;
      try reflexivity.
    + now apply write_bank_keeps_field.
    + unfold map_bank_prg. apply (map_pages_keeps f). intros.
      unfold map_bank_prg1. apply Hc.
  - unfold MMC.write_ppu. cbn [base set_base].
    now apply write_bank_keeps_field.
  - rewrite read_ppu_state. split_tests;
      rewrite ?(update_banks_keeps f) by exact Hp; reflexivity.
Qed.

Lemma run_keeps_field {A} (f : Mapper -> A) BANK_SIZE open_bus accesses :
  (forall banks m, f (set_banks_ppu banks m) = f m) ->
  (forall banks m, f (set_banks_cpu banks m) = f m) ->
  (forall memory m, f (set_memory memory m) = f m) ->
  forall s, f (base (run BANK_SIZE open_bus accesses s)) = f (base s).
Proof.
  intros Hp Hc Hm. induction accesses as [| a accesses IH]; intros s.
  - reflexivity.
  - rewrite run_cons, IH. now apply access_keeps_field.
Qed.

Lemma map_bank_prg_length page size address m :
  length (_banks_cpu (map_bank_prg page size address m))
  = length (_banks_cpu m).
Proof.
  unfold map_bank_prg.
  now rewrite (map_pages_length _banks_cpu (fun _ => prg_entry) map_bank_prg1).
Qed.

Lemma map_bank_cpu_ram_lookup page size address m (j : nat) :
  (0 <= page)%Z -> (0 <= size)%Z -> (page + size <= 0x100)%Z ->
  _banks_cpu (map_bank_cpu_ram page size address true m) !! j
  = if decide ((Z.to_nat page <= j < Z.to_nat page + Z.to_nat size)%nat
               /\ (j < length (_banks_cpu m))%nat)
    then Some (cpu_ram_entry m (uint16 (address + (Z.of_nat j - page))))
    else _banks_cpu m !! j.
Proof.
  intros Hp Hs Hps. unfold map_bank_cpu_ram.
  rewrite (map_pages_lookup _banks_cpu cpu_ram_entry (map_bank_cpu_ram1 true))
    by (reflexivity || lia).
  now rewrite Z.add_0_r.
Qed.

(** The only CPU pages an access maps anew are the [BANK_SIZE] pages from
    0x20 on, the window at 0x8000. *)
Lemma access_cpu_banks BANK_SIZE open_bus s a (j : nat) :
  BANK_SIZE = 0x08%Z \/ BANK_SIZE = 0x10%Z ->
  (j < 0x20 \/ 0x20 + Z.to_nat BANK_SIZE <= j)%nat ->
  _banks_cpu (base (access BANK_SIZE open_bus s a)) !! j
  = _banks_cpu (base s) !! j
  /\ length (_banks_cpu (base (access BANK_SIZE open_bus s a)))
     = length (_banks_cpu (base s)).
Proof.
  intros HBS Hj.
  destruct a as [address value | address value | | address |]; cbn [access];
    try (split; reflexivity).
  - unfold write_cpu. split_tests; cbn [base set_base];
      rewrite ?(update_banks_keeps _banks_cpu) by reflexivity;
      cbn [base set_selected_bank];
      rewrite ?(set_mirroring_mode_keeps _banks_cpu) by reflexivity;
      try (split; reflexivity).
    + unfold Mapper.write_cpu.
      now rewrite (write_bank_keeps_field _banks_cpu) by reflexivity.
    + rewrite map_bank_prg_length. split; [| reflexivity].
      rewrite map_bank_prg_lookup by lia. case_decide; [lia | reflexivity].
  - unfold MMC.write_ppu. cbn [base set_base]. unfold Mapper.write_ppu.
    now rewrite (write_bank_keeps_field _banks_cpu) by reflexivity.
  - rewrite read_ppu_state. split_tests;
      rewrite ?(update_banks_keeps _banks_cpu) by reflexivity;
      split; reflexivity.
Qed.

Lemma run_cpu_banks BANK_SIZE open_bus accesses (j : nat) :
  BANK_SIZE = 0x08%Z \/ BANK_SIZE = 0x10%Z ->
  (j < 0x20 \/ 0x20 + Z.to_nat BANK_SIZE <= j)%nat ->
  forall s,
    _banks_cpu (base (run BANK_SIZE open_bus accesses s)) !! j
    = _banks_cpu (base s) !! j.
Proof.
  intros HBS Hj. induction accesses as [| a accesses IH]; intros s.
  - reflexivity.
  - rewrite run_cons, IH. now apply access_cpu_banks.
Qed.

(** The CPU bank table the constructor leaves. *)
Lemma MMC_new_cpu_banks BANK_SIZE metadata mode (j : nat) :
  BANK_SIZE = 0x08%Z \/ BANK_SIZE = 0x10%Z ->
  (0x20 - BANK_SIZE <= size_prg metadata < 0x10000)%Z ->
  let m := base (MMC_new BANK_SIZE metadata mode) in
  ((j < 0x18)%nat -> _banks_cpu m !! j = Some unmapped_bank)
  /\ ((0x18 <= j < 0x20)%nat ->
      _banks_cpu m !! j = Some (cpu_ram_entry m (Z.of_nat j - 0x18)))
  /\ ((0x20 + Z.to_nat BANK_SIZE <= j < 0x40)%nat ->
      _banks_cpu m !! j
      = Some (prg_entry (size_prg metadata - 0x40 + Z.of_nat j))).
Proof.
  intros HBS Hprg m. subst m. unfold MMC_new. cbn [base].
  set (m0 := Mapper_new metadata mode 0x8 0x2).
  set (m1 := map_bank_chr 0x0 0x8 0x0 m0).
  set (m2 := map_bank_prg 0x20 BANK_SIZE 0x0 m1).
  assert (E1 : _banks_cpu m1 = replicate 0x40 unmapped_bank).
  { subst m1 m0. unfold map_bank_chr, Mapper_new.
    rewrite (map_pages_keeps _banks_cpu) by reflexivity.
    now rewrite (set_mirroring_mode_keeps _banks_cpu) by reflexivity. }
  assert (P2 : _banks_prg m2 = size_prg metadata).
  { subst m2 m1. unfold map_bank_prg, map_bank_chr.
    rewrite !(map_pages_keeps _banks_prg) by reflexivity.
    subst m0. unfold Mapper_new.
    now rewrite (set_mirroring_mode_keeps _banks_prg) by reflexivity. }
  assert (L2 : length (_banks_cpu m2) = 0x40%nat).
  { subst m2. now rewrite map_bank_prg_length, E1, length_replicate. }
  rewrite P2.
  assert (W : (uint8 (0x20 + BANK_SIZE) = 0x20 + BANK_SIZE
               /\ uint8 (0x20 - BANK_SIZE) = 0x20 - BANK_SIZE
               /\ uint16 (size_prg metadata - 0x20 + BANK_SIZE)
                  = size_prg metadata - 0x20 + BANK_SIZE)%Z).
  { rewrite !uint8_small, uint16_small by lia. now repeat split. }
  destruct W as (-> & -> & ->).
  set (m3 := map_bank_prg _ _ _ m2).
  assert (L3 : length (_banks_cpu m3) = 0x40%nat).
  { subst m3. now rewrite map_bank_prg_length. }
  assert (F : forall a, cpu_ram_entry m3 a
                        = cpu_ram_entry
                            (map_bank_cpu_ram 0x18 0x8 0x0 true m3) a).
  { intros a. unfold cpu_ram_entry, map_bank_cpu_ram.
    now rewrite (map_pages_keeps _size_prg), (map_pages_keeps _size_chr)
      by reflexivity. }
  rewrite map_bank_cpu_ram_lookup by lia.
  assert (E2 : (j < 0x20)%nat -> _banks_cpu m2 !! j = Some unmapped_bank).
  { intros Hj. subst m2. rewrite map_bank_prg_lookup by lia.
    case_decide; [lia |]. rewrite E1. apply lookup_replicate_2. lia. }
  assert (E3 : (0x20 + Z.to_nat BANK_SIZE <= j < 0x40)%nat ->
               _banks_cpu m3 !! j
               = Some (prg_entry (size_prg metadata - 0x40 + Z.of_nat j))).
  { intros Hj. subst m3. rewrite map_bank_prg_lookup by lia.
    case_decide; [| lia]. do 2 f_equal. rewrite uint16_small by lia. lia. }
  assert (E4 : (j < 0x20)%nat -> _banks_cpu m3 !! j = _banks_cpu m2 !! j).
  { intros Hj. subst m3. rewrite map_bank_prg_lookup by lia.
    case_decide; [lia | reflexivity]. }
  split; [| split]; intros Hj; (case_decide; try lia).
  - rewrite E4 by lia. apply E2. lia.
  - rewrite <- F. do 2 f_equal. rewrite uint16_small by lia. lia.
  - now apply E3.
Qed.

(** X7. Whatever accesses follow the constructor of an MMC2/MMC4 mapper on
    a ROM of at least [0x20 - BANK_SIZE] PRG pages, the CPU pages below
    0x18 stay unmapped, the pages 0x18-0x1F (0x6000-0x7FFF) stay the eight
    pages of the CPU work RAM, mapped read only, and the pages from
    [0x20 + BANK_SIZE] to 0x3F stay the last [0x20 - BANK_SIZE] pages of
    PRG: only the window of [BANK_SIZE] pages at 0x8000 is ever switched. *)
Theorem mmc_fixed_cpu_windows (BANK_SIZE open_bus : Z)
    (metadata : ParsedMemory) (mode : MirroringMode) (accesses : list Access) :
  BANK_SIZE = 0x08%Z \/ BANK_SIZE = 0x10%Z ->
  (0x20 - BANK_SIZE <= size_prg metadata < 0x10000)%Z ->
  let m := base (run BANK_SIZE open_bus accesses
                   (MMC_new BANK_SIZE metadata mode)) in
  (forall i, (0 <= i < 0x18)%Z -> bank_at (_banks_cpu m) i = unmapped_bank)
  /\ (forall i, (0 <= i < 0x8)%Z ->
        bank_at (_banks_cpu m) (0x18 + i) = cpu_ram_entry m i)
  /\ (forall i, (0 <= i < 0x20 - BANK_SIZE)%Z ->
        bank_at (_banks_cpu m) (0x20 + BANK_SIZE + i)
        = prg_entry (size_prg metadata - 0x20 + BANK_SIZE + i)).
Proof.
  intros HBS Hprg m. subst m.
  set (s0 := MMC_new BANK_SIZE metadata mode).
  assert (F : forall a,
            cpu_ram_entry (base (run BANK_SIZE open_bus accesses s0)) a
            = cpu_ram_entry (base s0) a).
  { intros a. unfold cpu_ram_entry.
    now rewrite (run_keeps_field _size_prg), (run_keeps_field _size_chr)
      by reflexivity. }
  split; [| split]; intros i Hi; apply bank_at_lookup;
    rewrite run_cpu_banks by (assumption || lia);
    destruct (MMC_new_cpu_banks BANK_SIZE metadata mode
                (Z.to_nat (0x20 + BANK_SIZE + i)) HBS Hprg) as (_ & _ & H3);
    destruct (MMC_new_cpu_banks BANK_SIZE metadata mode
                (Z.to_nat (0x18 + i)) HBS Hprg) as (_ & H2 & _);
    destruct (MMC_new_cpu_banks BANK_SIZE metadata mode
                (Z.to_nat i) HBS Hprg) as (H1 & _ & _).
  - apply H1. lia.
  - subst s0. rewrite H2 by lia. rewrite F. do 2 f_equal. lia.
  - subst s0. rewrite H3 by lia. do 2 f_equal. lia.
Qed.

(** *** CPU writes and the memory *)








(** *** Reads through the windows *)

Lemma address_page address :
  Z.shiftr address 10 = (address / 0x400)%Z
  /\ Z.land address 0x3FF = (address mod 0x400)%Z.
Proof.
  split.
  - now rewrite Z.shiftr_div_pow2 by lia.
  - change 0x3FF%Z with (Z.ones 10). now rewrite Z.land_ones by lia.
Qed.

(** X9. After a CPU write of [value] at 0xA000-0xAFFF, a CPU read at
    [0x8000 + k], for [k] within the window of [BANK_SIZE] pages, returns
    the byte [k] of the PRG bank [value & 0xF], the banks counting
    [BANK_SIZE * 0x400] bytes. *)
Theorem mmc_prg_window_read (BANK_SIZE open_bus address value k : Z)
    (s : MMC) :
  BANK_SIZE = 0x08%Z \/ BANK_SIZE = 0x10%Z ->
  length (_banks_cpu (base s)) = 0x40%nat ->
  (0xA000 <= address < 0xB000)%Z ->
  (0 <= k < BANK_SIZE * 0x400)%Z ->
  read_cpu open_bus (0x8000 + k) (write_cpu BANK_SIZE address value s)
  = default 0%Z
      (_memory (base s)
         !! Z.to_nat (Z.land value 0xF * (BANK_SIZE * 0x400) + k)).
Proof.
  intros HBS Hlen Ha Hk.
  pose proof (land_low_bits value 4 ltac:(lia)) as H4.
  change (Z.ones 4) with 0xF%Z in H4. change (2 ^ 4)%Z with 16%Z in H4.
  unfold write_cpu.
  destruct (Z.ltb_spec address 0xA000); [lia |].
  destruct (Z.ltb_spec address 0xB000); [| lia].
  unfold read_cpu, Mapper.read_cpu, read_bank. cbn [base set_base].
  destruct (address_page (0x8000 + k)) as [-> ->].
  assert (Eb : bank_at
                 (_banks_cpu
                    (map_bank_prg 0x20 BANK_SIZE
                       (uint16 (Z.land value 0xF * BANK_SIZE)) (base s)))
                 ((0x8000 + k) / 0x400)
               = prg_entry (Z.land value 0xF * BANK_SIZE + k / 0x400)).
  { apply bank_at_lookup.
    destruct HBS as [-> | ->]; rewrite map_bank_prg_lookup by lia;
      (case_decide; [| Z.div_mod_to_equations; lia]);
      repeat match goal with
             | |- context [uint16 ?x] =>
                 rewrite (uint16_small x) by (Z.div_mod_to_equations; lia)
             end;
      do 2 f_equal; Z.div_mod_to_equations; lia. }
  rewrite Eb. cbn [prg_entry mapped offset].
  unfold map_bank_prg. rewrite (map_pages_keeps _memory) by reflexivity.
  rewrite shiftl_10. do 3 f_equal.
  Z.div_mod_to_equations. lia.
Qed.

(** X10. When the pattern-table pages are in step with the latches and
    the registers hold five-bit values, a PPU read at an address below
    0x2000 returns the byte of CHR at [address mod 0x1000] within the bank
    of 0x1000 bytes that the latch of that pattern table selects: register
    0 or 1 for 0x0000-0x0FFF, register 2 or 3 for 0x1000-0x1FFF. *)
Theorem mmc_pattern_table_read (open_bus address : Z) (s : MMC) :
  length (_banks_ppu (base s)) = 0x10%nat ->
  Forall (fun x => 0 <= x <= 0x1F)%Z (_selected_banks s) ->
  chr_synced s ->
  (0 <= address < 0x2000)%Z ->
  fst (read_ppu open_bus address s)
  = default 0%Z
      (_memory (base s)
         !! Z.to_nat (_size_prg (base s)
                      + 0x1000 * chr_window s (Z.to_nat (address / 0x1000))
                      + address mod 0x1000)).
Proof.
  intros Hlen Hr Hs Ha.
  unfold read_ppu. cbn [fst]. unfold Mapper.read_ppu, read_bank.
  destruct (address_page address) as [-> ->].
  pose proof (selected_bank_range s (selected_register s 0) Hr) as R0.
  pose proof (selected_bank_range s (selected_register s 1) Hr) as R1.
  fold (chr_window s 0) in R0. fold (chr_window s 1) in R1.
  assert (Eb : exists i w,
             bank_at (_banks_ppu (base s)) (address / 0x400)
             = chr_entry (base s) (4 * w + i)
             /\ w = chr_window s (Z.to_nat (address / 0x1000))
             /\ (0 <= w <= 0x1F)%Z
             /\ (address / 0x400 = 4 * (address / 0x1000) + i)%Z
             /\ (0 <= i < 4)%Z).
  { assert (Hj : exists j : nat,
               (j < 8)%nat /\ (address / 0x400 = Z.of_nat j)%Z).
    { exists (Z.to_nat (address / 0x400)). Z.div_mod_to_equations. lia. }
    destruct Hj as (j & Hj & Ej).
    assert (El : _banks_ppu (base s) !! j
                 = (window_pages s 0 ++ window_pages s 1) !! j).
    { rewrite <- Hs. unfold pattern_pages. now rewrite lookup_take_lt by lia. }
    rewrite Ej. unfold bank_at. rewrite Nat2Z.id, El.
    unfold window_pages. rewrite !chr_page_range by assumption.
    do 8 (destruct j as [| j]; [
      cbn [map app lookup list_lookup from_option default];
      rewrite uint16_small by lia;
      eexists _, _; (split; [reflexivity |]);
      (split; [f_equal;
               match goal with
               | |- ?a = Z.to_nat ?b =>
                   assert (b = Z.of_nat a) as ->
                     by (Z.div_mod_to_equations; lia);
                   now rewrite Nat2Z.id
               end |]);
      (split; [assumption |]); Z.div_mod_to_equations; lia |]).
    lia. }
  destruct Eb as (i & w & -> & Ew & Rw & Ei & Ri).
  cbn [chr_entry mapped offset]. rewrite shiftl_10, <- Ew.
  do 3 f_equal. Z.div_mod_to_equations. lia.
Qed.

(** C10. A PPU read of the MMC2/MMC4 mapper at a latch-trigger address
    returns the byte under the bank mapping in effect before the latch
    moves: the byte of the entry the PPU bank table held for that page when
    the read began.  The latch has its new value only after the read, and
    the pages of its pattern table then show the CHR bank of the register
    the new value selects, so that every later read in that pattern table,
    a second read at the trigger address included, returns a byte of that
    bank. *)
Theorem mmc_read_ppu_value_before_update (open_bus address : Z) (k : nat)
    (v : bool) (s : MMC) :
  valid_mmc s ->
  latch_event (ReadPpu address) = Some (k, v) ->
  let s' := snd (read_ppu open_bus address s) in
  let before := bank_at (_banks_ppu (base s)) (Z.shiftr address 10) in
  let register := (if v then 2 * k else 2 * k + 1)%nat in
  fst (read_ppu open_bus address s)
  = (if mapped before
     then default 0%Z
            (_memory (base s)
               !! Z.to_nat (offset before + Z.land address 0x3FF))
     else open_bus)
  /\ latch s' k = v
  /\ (forall i, (0 <= i < 4)%Z ->
        bank_at (_banks_ppu (base s')) (4 * Z.of_nat k + i)
        = chr_entry (base s) (uint16 (chr_page (selected_bank s register) + i)))
  /\ (forall address2,
        (0x1000 * Z.of_nat k <= address2 < 0x1000 * (Z.of_nat k + 1))%Z ->
        fst (read_ppu open_bus address2 s')
        = default 0%Z
            (_memory (base s)
               !! Z.to_nat
                    (_size_prg (base s)
                     + Z.shiftl
                         (uint16 (chr_page (selected_bank s register)
                                  + (address2 / 0x400 - 4 * Z.of_nat k))) 10
                     + address2 mod 0x400))).
Proof.
  intros (Hb & Hl & Hsel) He s' before register.
  destruct (access_update_banks_latch 0 open_bus s (ReadPpu address) k v He)
    as [E Hk].
  cbn [access] in E. fold s' in E.
  set (t := set_latch k v s) in *.
  assert (Hpp : length (_banks_ppu (base t)) = 16%nat) by apply Hb.
  assert (Hlatch : latch s' k = v).
  { rewrite E, latch_update_banks. apply latch_set_latch_eq. lia. }
  assert (Hreg : selected_register t k = register).
  { assert (Lt : latch t k = v) by (apply latch_set_latch_eq; lia).
    subst register. unfold selected_register.
    destruct k as [| [| k]]; [| | lia]; rewrite Lt; now destruct v. }
  assert (Hpages : forall i, (0 <= i < 4)%Z ->
            bank_at (_banks_ppu (base s')) (4 * Z.of_nat k + i)
            = chr_entry (base s)
                (uint16 (chr_page (selected_bank s register) + i))).
  { intros i Hi. rewrite E.
    destruct (update_banks_pages t i Hpp Hi) as [P0 P1].
    rewrite <- Hreg.
    destruct k as [| [| k]]; [exact P0 | exact P1 | lia]. }
  split; [reflexivity |]. split; [exact Hlatch |]. split; [exact Hpages |].
  intros address2 Ha2.
  unfold read_ppu. cbn [fst]. unfold Mapper.read_ppu, read_bank.
  destruct (address_page address2) as [-> ->].
  assert (Hm : _memory (base s') = _memory (base s))
    by (rewrite E; now rewrite (update_banks_keeps _memory)).
  set (i := (address2 / 0x400 - 4 * Z.of_nat k)%Z).
  assert (Hi : (0 <= i < 4)%Z) by (subst i; Z.div_mod_to_equations; lia).
  replace (address2 / 0x400)%Z with (4 * Z.of_nat k + i)%Z by (subst i; lia).
  rewrite (Hpages i Hi). unfold chr_entry. cbn [mapped offset].
  now rewrite Hm.
Qed.

(** *** Reading a trigger address again *)

Lemma MMC_eq s s' :
  base s = base s' -> _latches s = _latches s' ->
  _selected_banks s = _selected_banks s' -> s = s'.
Proof. destruct s, s'. cbn. now intros -> -> ->. Qed.

(** A mapping of CHR pages changes the PPU bank table only. *)
Lemma map_pages_chr_table page address m count : forall index m' banks,
  m' = set_banks_ppu banks m ->
  map_pages map_bank_chr1 count index page address m'
  = set_banks_ppu
      (_banks_ppu (map_pages map_bank_chr1 count index page address m')) m.
Proof.
  induction count as [| count IH]; intros index m' banks ->.
  - reflexivity.
  - cbn [map_pages]. eapply IH. reflexivity.
Qed.

Lemma map_bank_chr_table page size address m :
  map_bank_chr page size address m
  = set_banks_ppu (_banks_ppu (map_bank_chr page size address m)) m.
Proof.
  unfold map_bank_chr. apply (map_pages_chr_table _ _ _ _ _ _ (_banks_ppu m)).
  now destruct m.
Qed.

Lemma map_bank_chr_twice a b m :
  length (_banks_ppu m) = 16%nat ->
  map_bank_chr 0x4 0x4 b
    (map_bank_chr 0x0 0x4 a (map_bank_chr 0x4 0x4 b (map_bank_chr 0x0 0x4 a m)))
  = map_bank_chr 0x4 0x4 b (map_bank_chr 0x0 0x4 a m).
Proof.
  intros Hlen. set (m' := map_bank_chr 0x4 0x4 b (map_bank_chr 0x0 0x4 a m)).
  assert (L' : length (_banks_ppu m') = 16%nat)
    by (subst m'; now rewrite !map_bank_chr_length).
  assert (E' : forall x, chr_entry m' x = chr_entry m x)
    by (intros x; subst m'; now rewrite !map_bank_chr_entry).
  rewrite (map_bank_chr_table 0x4), (map_bank_chr_table 0x0 0x4 a m').
  cbn [set_banks_ppu _banks_ppu].
  rewrite <- (map_bank_chr_table 0x0 0x4 a m').
  assert (Et : _banks_ppu (map_bank_chr 0x4 0x4 b (map_bank_chr 0x0 0x4 a m'))
               = _banks_ppu m').
  { apply list_eq. intros j.
    rewrite !map_bank_chr_lookup, map_bank_chr_length by lia.
    rewrite map_bank_chr_entry, !E'.
    subst m'. rewrite !map_bank_chr_lookup, map_bank_chr_length by lia.
    rewrite map_bank_chr_entry.
    repeat case_decide; try lia; reflexivity. }
  rewrite Et. now destruct m'.
Qed.

Lemma update_banks_idempotent t :
  length (_banks_ppu (base t)) = 16%nat ->
  update_banks (update_banks t) = update_banks t.
Proof.
  intros Hlen. apply MMC_eq.
  - rewrite (update_banks_base (update_banks t)).
    unfold selected_register, selected_bank.
    rewrite !latch_update_banks, !update_banks_selected.
    fold (selected_bank t (if latch t 0 then 0 else 1)%nat).
    fold (selected_bank t (if latch t 1 then 2 else 3)%nat).
    fold (selected_register t 0) (selected_register t 1).
    rewrite update_banks_base. now apply map_bank_chr_twice.
  - now rewrite !update_banks_latches.
  - now rewrite !update_banks_selected.
Qed.

Lemma set_latch_again k v t :
  set_latch k v (update_banks (set_latch k v t))
  = update_banks (set_latch k v t).
Proof.
  pose proof (update_banks_latches (set_latch k v t)) as E.
  destruct (update_banks (set_latch k v t)) as [m l sel].
  cbn [set_latch _latches base _selected_banks] in *. subst l.
  unfold set_latch. cbn [_latches base _selected_banks].
  now rewrite list_insert_insert_eq.
Qed.

(** X13. A PPU read of the MMC2/MMC4 mapper is idempotent on the state:
    reading the same address a second time leaves the latches, the
    registers, the bank tables and the memory as the first read left
    them. *)
Theorem mmc_read_ppu_idempotent (open_bus address : Z) (s : MMC) :
  length (_banks_ppu (base s)) = 0x10%nat ->
  snd (read_ppu open_bus address (snd (read_ppu open_bus address s)))
  = snd (read_ppu open_bus address s).
Proof.
  intros Hlen. rewrite !read_ppu_state.
  split_tests; try reflexivity;
    rewrite set_latch_again; now apply update_banks_idempotent.
Qed.

End WindowFacts.

(** ** Sequences of calls on a handle *)

Section HandleFacts.
Import Wrapper Handle.
Context {Machine : Type} {core : Core Machine}.

Lemma calls_app (cs1 cs2 : list Call) : forall w : NesWrapper Machine,
  calls (cs1 ++ cs2) w = calls cs2 (calls cs1 w).
Proof.
  induction cs1 as [| c cs1 IH]; intros w; cbn [app calls]; [reflexivity |].
  apply IH.
Qed.

Lemma call_save_state_size (c : Call) (w : NesWrapper Machine) :
  _save_state_size (fst (call c w)) = _save_state_size w.
Proof.
  destruct c; cbn [call]; try reflexivity.
  - unfold read. now destruct (nes_read address (_nes w)).
  - unfold step. now destruct (nes_step (controller w) frames (_nes w)).
  - apply save_keeps.
  - apply load_keeps.
Qed.

Lemma calls_save_state_size (cs : list Call) : forall w : NesWrapper Machine,
  _save_state_size (calls cs w) = _save_state_size w.
Proof.
  induction cs as [| c cs IH]; intros w; cbn [calls]; [reflexivity |].
  now rewrite IH, call_save_state_size.
Qed.

(** X11. After the constructor and any sequence of calls the save-state
    size of the handle is the one the constructor asked the emulator for,
    and [save] makes its array with [static_cast<int>] of it: when that
    number is not negative the call returns a contiguous array of one
    dimension, on memory of its own, of exactly that many bytes; when it
    is negative (a size of 2^31 bytes or more) the call raises and leaves
    the handle as it was. *)
Theorem save_array_size_fixed (path_rom : list Z) (cs : list Call) :
  let size := nes_size (nes_open path_rom) in
  let w := calls cs (NesWrapper_new path_rom) in
  _save_state_size w = size
  /\ ((0 <= to_int size)%Z ->
      exists bytes,
        snd (save w)
        = Returned
            (VArray (mkArray [to_int size] [1%Z] (Owned bytes) owned_flags))
        /\ Z.of_nat (length bytes) = to_int size)
  /\ ((to_int size < 0)%Z -> save w = (w, Raised ValueError)).
Proof.
  intros size w.
  assert (E : _save_state_size w = size)
    by (subst w; now rewrite calls_save_state_size).
  split; [exact E |]. unfold save. rewrite E. split; intros H.
  - destruct (Z.ltb_spec (to_int size) 0); [lia |].
    pose proof (nes_save_length (fresh_memory (Z.to_nat (to_int size)))
                  (_nes w)) as L.
    destruct (nes_save _ (_nes w)) as [bytes nes]. cbn [fst snd] in *.
    exists bytes. split; [reflexivity |].
    rewrite L, fresh_memory_length. lia.
  - destruct (Z.ltb_spec (to_int size) 0); [reflexivity | lia].
Qed.

(** What one call does to the crash flag. *)
Lemma call_crashed (c : Call) (w : NesWrapper Machine) :
  _crashed (fst (call c w))
  = if clears c then false
    else _crashed w || reports_crash [c] w.
Proof.
  destruct c; cbn [call clears reports_crash fst];
    rewrite ?orb_false_r; try reflexivity.
  - unfold read. now destruct (nes_read address (_nes w)).
  - unfold step. now destruct (nes_step (controller w) frames (_nes w)).
  - apply save_keeps.
  - unfold load. now destruct (writeable buffer).
Qed.

Lemma calls_crashed (cs : list Call) : forall w : NesWrapper Machine,
  forallb (fun c => negb (clears c)) cs = true ->
  has_crashed (calls cs w) = has_crashed w || reports_crash cs w.
Proof.
  unfold has_crashed.
  induction cs as [| c cs IH]; intros w H; cbn [calls reports_crash].
  - now rewrite orb_false_r.
  - cbn [forallb] in H. apply andb_prop in H. destruct H as [Hc Hcs].
    rewrite (IH _ Hcs), call_crashed.
    destruct (clears c); [discriminate Hc |].
    cbn [reports_crash]. rewrite orb_false_r. now rewrite orb_assoc.
Qed.

(** X12. Over calls other than [reset] and a [load] of a writeable array
    (a [load] of an array that is not writeable raises before it touches
    the flag), the crash flag is the flag before or-ed with the crash
    reports of the [step] calls made: it is never raised without a report
    and never lowered; after a [reset], or a [load] of a writeable array,
    followed by such calls it is true exactly when a [step] since then
    reported a crash, whatever happened before. *)
Theorem crash_flag_history (cs : list Call) :
  forallb (fun c => negb (clears c)) cs = true ->
  (forall w : NesWrapper Machine,
     has_crashed (calls cs w) = has_crashed w || reports_crash cs w)
  /\ (forall before c (w : NesWrapper Machine),
        clears c = true ->
        has_crashed (calls (before ++ c :: cs) w)
        = reports_crash cs (calls (before ++ [c]) w)).
Proof.
  intros H. split; [intros w; now apply calls_crashed |].
  intros before c w Hc.
  replace (before ++ c :: cs) with ((before ++ [c]) ++ cs)
    by now rewrite <- app_assoc.
  rewrite calls_app, (calls_crashed cs _ H).
  rewrite (calls_app before [c]). cbn [calls]. unfold has_crashed.
  now rewrite call_crashed, Hc.
Qed.

End HandleFacts.

(** ** The extra properties on the example cartridge and console *)

Section WindowExamples.
Import Mapper Banks MMC Layout Windows.

Lemma mmc_latch_history_witness :
  length (_latches Examples.mmc2) = 2%nat
  /\ forallb (fun x => negb (moves_latch 0 x))
       [WriteCpu 0xC000 3; ReadPpu 0x1FE8] = true
  /\ latch (run 0x08 0
              ([ReadPpu 0x0FE8]
               ++ ReadPpu 0x0FD8 :: [WriteCpu 0xC000 3; ReadPpu 0x1FE8])
              Examples.mmc2) 0
     = true.
Proof.
  split; [vm_compute; reflexivity |]. split; [reflexivity |].
  apply (mmc_latch_history 0x08 0 0 [ReadPpu 0x0FE8]
           [WriteCpu 0xC000 3; ReadPpu 0x1FE8] Examples.mmc2).
  - vm_compute; reflexivity.
  - reflexivity.
  - reflexivity.
Defined.

Lemma mmc_register_history_witness :
  length (_selected_banks Examples.mmc2) = 4%nat
  /\ forallb (fun x => negb (sets_register 1 x))
       [ReadPpu 0x0FD8; WriteCpu 0xB000 2] = true
  /\ selected_bank
       (run 0x08 0
          ([WriteCpu 0xC000 7]
           ++ WriteCpu 0xC123 0xE5 :: [ReadPpu 0x0FD8; WriteCpu 0xB000 2])
          Examples.mmc2) 1
     = Z.land 0xE5 0x1F.
Proof.
  split; [vm_compute; reflexivity |]. split; [reflexivity |].
  apply (mmc_register_history 0x08 0 1 [WriteCpu 0xC000 7]
           [ReadPpu 0x0FD8; WriteCpu 0xB000 2] Examples.mmc2).
  - vm_compute; reflexivity.
  - reflexivity.
  - lia.
  - lia.
Defined.

Lemma mmc_fixed_cpu_windows_witness :
  (0x08 = 0x08 \/ 0x08 = 0x10)%Z
  /\ (0x20 - 0x08 <= size_prg Examples.rom < 0x10000)%Z
  /\ bank_at
       (_banks_cpu
          (base (run 0x08 0 [WriteCpu 0xA000 3; ReadPpu 0x0FD8]
                   (MMC_new 0x08 Examples.rom VERTICAL))))
       (0x20 + 0x08 + 23)
     = prg_entry (size_prg Examples.rom - 0x20 + 0x08 + 23).
Proof.
  split; [left; reflexivity |].
  split; [cbn [size_prg Examples.rom]; lia |].
  apply (mmc_fixed_cpu_windows 0x08 0 Examples.rom VERTICAL
           [WriteCpu 0xA000 3; ReadPpu 0x0FD8]).
  - left; reflexivity.
  - cbn [size_prg Examples.rom]; lia.
  - lia.
Defined.

Lemma mmc_prg_window_read_witness :
  (0x08 = 0x08 \/ 0x08 = 0x10)%Z
  /\ length (_banks_cpu (base Examples.mmc2)) = 0x40%nat
  /\ (0xA000 <= 0xA000 < 0xB000)%Z
  /\ (0 <= 0x1234 < 0x08 * 0x400)%Z
  /\ read_cpu 0 (0x8000 + 0x1234) (write_cpu 0x08 0xA000 3 Examples.mmc2)
     = default 0%Z
         (_memory (base Examples.mmc2)
            !! Z.to_nat (Z.land 3 0xF * (0x08 * 0x400) + 0x1234)).
Proof.
  split; [left; reflexivity |].
  split; [vm_compute; reflexivity |].
  split; [lia |]. split; [lia |].
  apply (mmc_prg_window_read 0x08 0 0xA000 3 0x1234 Examples.mmc2).
  - left; reflexivity.
  - vm_compute; reflexivity.
  - lia.
  - lia.
Defined.

(** The example mapper with 5 in register 0, after a read at 0x0FD8. *)
Lemma example_selected_synced :
  let s := snd (read_ppu 0 0x0FD8 (write_cpu 0x08 0xB000 5 Examples.mmc2)) in
  length (_banks_ppu (base s)) = 0x10%nat
  /\ Forall (fun x => 0 <= x <= 0x1F)%Z (_selected_banks s)
  /\ chr_synced s.
Proof.
  split; [vm_compute; reflexivity |]. split.
  - apply (Forall_forallb_true _ (fun x => (0 <=? x)%Z && (x <=? 0x1F)%Z)).
    + intros x. lia.
    + vm_compute. reflexivity.
  - unfold chr_synced. vm_compute. reflexivity.
Qed.

Lemma mmc_pattern_table_read_witness :
  let s := snd (read_ppu 0 0x0FD8 (write_cpu 0x08 0xB000 5 Examples.mmc2)) in
  length (_banks_ppu (base s)) = 0x10%nat
  /\ Forall (fun x => 0 <= x <= 0x1F)%Z (_selected_banks s)
  /\ chr_synced s
  /\ (0 <= 0x0123 < 0x2000)%Z
  /\ fst (read_ppu 0 0x0123 s)
     = default 0%Z
         (_memory (base s)
            !! Z.to_nat (_size_prg (base s)
                         + 0x1000 * chr_window s (Z.to_nat (0x0123 / 0x1000))
                         + 0x0123 mod 0x1000)).
Proof.
  intros s. destruct example_selected_synced as (H1 & H2 & H3).
  fold s in H1, H2, H3.
  split; [exact H1 |]. split; [exact H2 |]. split; [exact H3 |].
  split; [lia |].
  apply (mmc_pattern_table_read 0 0x0123 s H1 H2 H3). lia.
Defined.

(** On the example cartridge every byte of a bank holds the number of the
    bank: the read through the PRG window switched to bank 3 returns 3,
    the read of the lower pattern table with latch 0 on and 5 in register
    0 returns 5. *)
Example mmc_window_reads_example :
  read_cpu 0 (0x8000 + 0x1234) (write_cpu 0x08 0xA000 3 Examples.mmc2) = 3%Z
  /\ fst (read_ppu 0 0x0123
            (snd (read_ppu 0 0x0FD8
                    (write_cpu 0x08 0xB000 5 Examples.mmc2)))) = 5%Z.
Proof. split; vm_compute; reflexivity. Qed.

(** The example mapper is out of step as constructed and in step after
    one read at a trigger address. *)
Example mmc_pattern_tables_synced_example :
  ~ chr_synced Examples.mmc2
  /\ chr_synced (run 0x08 0 [ReadPpu 0x0FE8] Examples.mmc2).
Proof.
  split.
  - unfold chr_synced. vm_compute. discriminate.
  - unfold chr_synced. vm_compute. reflexivity.
Qed.

(** The example mapper with 5 in register 0 and 7 in register 1. *)
Lemma example_registers_valid :
  valid_mmc (write_cpu 0x08 0xC000 7 (write_cpu 0x08 0xB000 5 Examples.mmc2)).
Proof.
  unfold valid_mmc, valid_mapper.
  split; [split; [| split; [| split; [| split; [| split; [| split]]]]]
         | split];
    vm_compute; first [reflexivity | discriminate].
Qed.

Lemma mmc_read_ppu_value_before_update_witness :
  let s := write_cpu 0x08 0xC000 7 (write_cpu 0x08 0xB000 5 Examples.mmc2) in
  let s' := snd (read_ppu 0 0x0FD8 s) in
  valid_mmc s
  /\ latch_event (ReadPpu 0x0FD8) = Some (0%nat, true)
  /\ latch s 0 = false
  /\ latch s' 0 = true
  /\ bank_at (_banks_ppu (base s)) (Z.shiftr 0x0FD8 10)
     = chr_entry (base s) (4 * 7 + 3)
  /\ bank_at (_banks_ppu (base s')) (4 * 0 + 3)
     = chr_entry (base s) (uint16 (chr_page (selected_bank s 0) + 3)).
Proof.
  intros s s'.
  destruct (mmc_read_ppu_value_before_update 0 0x0FD8 0 true s
              example_registers_valid eq_refl) as (_ & Hlatch & Hpages & _).
  split; [exact example_registers_valid |]. split; [reflexivity |].
  split; [vm_compute; reflexivity |]. split; [exact Hlatch |].
  split; [vm_compute; reflexivity |].
  apply (Hpages 3%Z). lia.
Defined.

Lemma mmc_read_ppu_idempotent_witness :
  length (_banks_ppu (base Examples.mmc2)) = 0x10%nat
  /\ snd (read_ppu 0 0x1FD8 (snd (read_ppu 0 0x1FD8 Examples.mmc2)))
     = snd (read_ppu 0 0x1FD8 Examples.mmc2).
Proof.
  split; [vm_compute; reflexivity |].
  apply (mmc_read_ppu_idempotent 0 0x1FD8 Examples.mmc2).
  vm_compute; reflexivity.
Defined.

End WindowExamples.

Section HandleExamples.
Import Wrapper Handle.
#[local] Existing Instance Examples.ram_core.

Lemma save_array_size_fixed_witness :
  let w := calls [CallSetItem 0 0x02; CallStep 1; CallSave]
             (NesWrapper_new []) in
  (0 <= to_int (nes_size (nes_open [])))%Z
  /\ exists bytes,
       snd (save w)
       = Returned (VArray (mkArray [2048%Z] [1%Z] (Owned bytes) 0x0505))
       /\ Z.of_nat (length bytes) = 2048%Z.
Proof.
  intros w. split; [vm_compute; discriminate |].
  apply (save_array_size_fixed (core := Examples.ram_core) []
           [CallSetItem 0 0x02; CallStep 1; CallSave]).
  vm_compute; discriminate.
Defined.

(** A load of the frame [step] returns, which is not writeable, does not
    clear the flag; a load of a writeable array does. *)
Lemma crash_flag_history_witness :
  let frame := snd (step 1 (NesWrapper_new [])) in
  let saved := mkArray [2048%Z] [1%Z] (Owned (replicate 2048 0%Z)) 0x0505 in
  forallb (fun c => negb (clears c))
    [CallStep 1; CallLoad frame; CallGetAllRam] = true
  /\ clears (CallLoad saved) = true
  /\ has_crashed
       (calls ([CallSetItem 0 0x02; CallStep 1]
               ++ CallLoad saved :: [CallStep 1; CallLoad frame; CallGetAllRam])
          (NesWrapper_new []))
     = reports_crash [CallStep 1; CallLoad frame; CallGetAllRam]
         (calls ([CallSetItem 0 0x02; CallStep 1] ++ [CallLoad saved])
            (NesWrapper_new [])).
Proof.
  intros frame saved. split; [reflexivity |]. split; [reflexivity |].
  apply (crash_flag_history (core := Examples.ram_core)
           [CallStep 1; CallLoad frame; CallGetAllRam]).
  - reflexivity.
  - reflexivity.
Defined.

End HandleExamples.
